(** * Incremental mailbox synchronisation: a shallow embedding

    The development follows two source files of the backend:

    - [email_sync.service.ts] (class [EmailSynceService]): the batch detail
      fetcher [processAndSaveBatch], the embedding step
      [generateEmbeddingsForEmails], diff-mode reconciliation
      [syncEmailsWithDeletion] and the history path
      [syncEmailsWithHistory] / [processHistoryRecords];
    - the listener of the ['email.sync'] event (class [EmailSyncListener],
      method [handleSyncOldEmails]) together with the event class
      [EmailSyncEvent].

    Every [await] of the source is one operation of a small free monad
    ([Prog]); a rejected promise is an [Err] value that is threaded through
    the continuation exactly as [try]/[catch] and [async] functions do.  One
    interpreter ([run]) executes a single call against a world made of the
    local store, the remote mailbox and a log of the performed operations; a
    second one ([Bus]) interleaves several handler executions at their
    suspension points. *)

From Stdlib Require Qcanon.
From Stdlib Require Import Floats.
From stdpp Require Import gmap strings list fin_maps.

Set Default Proof Using "Type".
Open Scope Z_scope.

(** ** JavaScript values as the code uses them *)

(** [if (s)], [s || d], [!s] on a string: the empty string is falsy. *)
Definition truthy (s : string) : bool :=
  match s with
  | EmptyString => false
  | String _ _ => true
  end.

(** Truthiness of a [string | null | undefined]. *)
Definition truthy_opt (o : option string) : bool :=
  match o with
  | Some s => truthy s
  | None => false
  end.

(** [o || d] and [o ?? d] with a string default. *)
Definition or_else (o : option string) (d : string) : string :=
  match o with
  | Some s => if truthy s then s else d
  | None => d
  end.

Definition nullish_else (o : option string) (d : string) : string :=
  match o with
  | Some s => s
  | None => d
  end.

(** [o || null] and [o || undefined]: a falsy value becomes absent. *)
Definition or_null (o : option string) : option string :=
  match o with
  | Some s => if truthy s then Some s else None
  | None => None
  end.

(** [new Set(l)] followed by [Array.from]: insertion order, first occurrence
    kept. *)
Fixpoint set_from {A} `{EqDecision A} (seen l : list A) : list A :=
  match l with
  | [] => []
  | x :: l' =>
      if bool_decide (x ∈ seen) then set_from seen l'
      else x :: set_from (x :: seen) l'
  end.

Definition new_Set {A} `{EqDecision A} (l : list A) : list A := set_from [] l.

(** [set.has(x)]. *)
Definition has {A} `{EqDecision A} (s : list A) (x : A) : bool :=
  bool_decide (x ∈ s).

(** ** Data model *)

(** A component of an embedding vector; the code only inspects the length of
    a vector. *)
Definition number := Qcanon.Qc.

(** The [Email] entity.  Modelled from the spec: the entity class is not part
    of the sources; its attributes are those of the email record of the data
    model (plus [summary], read by [prepareTextForEmbedding]), and
    [(userId, id)] identifies a record. *)
Record Email := mkEmail {
  id : string;
  threadId : option string;
  snippet : string;
  internalDate : string;
  subject : string;
  sender : string;
  userId : Z;
  embedding : option (list number);
  summary : option string;
}.

(** [gmail_v1.Schema$Message], as far as the code reads it. *)
Record Message := mkMessage {
  msg_id : option string;
  msg_threadId : option string;
}.

Record Header := mkHeader {
  h_name : option string;
  h_value : option string;
}.

Record Payload := mkPayload { p_headers : option (list Header) }.

(** [detail.data] of a [users.messages.get] response. *)
Record MessageDetail := mkDetail {
  d_threadId : option string;
  d_snippet : option string;
  d_internalDate : option string;
  d_payload : option Payload;
}.

(** [listRes.data] of a [users.messages.list] response. *)
Record ListRes := mkListRes {
  l_messages : option (list Message);
  l_nextPageToken : option string;
}.

(** One entry of [record.messagesAdded] / [record.messagesDeleted]. *)
Record HistoryEntry := mkEntry { e_message : option Message }.

Record HistoryRecord := mkRecord {
  messagesAdded : option (list HistoryEntry);
  messagesDeleted : option (list HistoryEntry);
}.

(** The response of [getMailboxHistory]. *)
Record HistoryRes := mkHistoryRes {
  history : option (list HistoryRecord);
  nextPageToken : option string;
  historyId : option string;
}.

Record Profile := mkProfile { p_historyId : option string }.

(** The authenticated client handle ([gmailClient: any]). *)
Record GmailClient := mkClient { client_user : Z }.

(** [EmailSyncEvent].  [pageCount] is a JavaScript [number], that is an
    IEEE 754 double: [===], [>] and [+] on it are the operations of binary64
    ([=?], [<?] and [+] of [float]), rounding included. *)
Record EmailSyncEvent := mkSyncEvent {
  ev_userId : Z;
  ev_pageToken : option string;
  ev_pageCount : float;
  ev_deletedEmailIds : option (list string);
}.

(** [new EmailSyncEvent(userId, pageToken, pageCount)]: the fourth argument
    is left out. *)
Definition EmailSyncEvent3 (u : Z) (tok : option string) (n : float) : EmailSyncEvent :=
  mkSyncEvent u tok n None.

(** [EmailEmbeddingEvent(userId, emailIds, batchMarker)]. *)
Record EmailEmbeddingEvent := mkEmbeddingEvent {
  em_userId : Z;
  em_emailIds : list string;
  em_batch : Z;
}.

Inductive Event :=
  | email_sync (e : EmailSyncEvent)
  | email_embedding (e : EmailEmbeddingEvent).

(** The failures a call can end in (the taxonomy of the error-handling
    design); the code treats them all alike. *)
Inductive Error :=
  | TransientNetworkError
  | NotFound
  | HistoryExpired
  | AuthError
  | RateLimited
  | OtherError (msg : string).

(** The failure of a [save] that violates the key of the [Email] table. *)
Definition duplicate_key : Error :=
  OtherError "duplicate key value violates unique constraint".

(** A settled promise. *)
Inductive result (A : Type) :=
  | Ok (a : A)
  | Err (e : Error).
Arguments Ok {A} a.
Arguments Err {A} e.


(** ** Operations and programs

    One constructor per call the two classes make on their collaborators.
    [GmailService], the gmail client, the TypeORM repository, the embedding
    service, the event emitter and the gateway are not part of the sources;
    the operations keep the names and the arguments the call sites use. *)
Inductive Op : Type -> Type :=
  (* GmailService *)
  | getLastHistoryId (u : Z) : Op (option string)
  | updateLastHistoryId (u : Z) (h : string) : Op unit
  | getProfile (u : Z) : Op Profile
  | getMailboxHistory (u : Z) (startHistoryId : option string)
      (maxResults : option Z) (pageToken : option string) : Op HistoryRes
  | getAuthenticatedGmailClient (u : Z) : Op GmailClient
  (* gmailClient.users.messages *)
  | messages_get (c : GmailClient) (mid : option string) : Op MessageDetail
  | messages_list (c : GmailClient) (maxResults : Z) (pageToken : option string) : Op ListRes
  (* emailRepository *)
  | repo_find_id_in (ids : list (option string)) : Op (list Email)
  | repo_find_user (u : Z) : Op (list Email)
  | repo_query_no_embedding (u : Z) (ids : list string) (take : nat) : Op (list Email)
  | repo_save (rows : list Email) : Op unit
  | repo_delete (ids : list string) (u : Z) : Op unit
  (* openRouterService *)
  | generateEmbedding (text : string) : Op (list number)
  (* eventEmitter, snoozeGateway, timers *)
  | emit (ev : Event) : Op unit
  | notifyNewEmails (u : Z) (ids : list string) : Op unit
  | sleep (ms : Z) : Op unit.

(** [emit] and [notifyNewEmails] are plain calls; every other operation is
    awaited, hence a suspension point of the caller. *)
Definition is_await {X} (op : Op X) : bool :=
  match op with
  | emit _ | notifyNewEmails _ _ => false
  | _ => true
  end.

(** A program: a finite tree of operations, each continued on the settled
    outcome of the operation. *)
Inductive Prog (A : Type) : Type :=
  | Ret (a : A)
  | Vis {X : Type} (op : Op X) (k : result X -> Prog A).
Arguments Ret {A} a.
Arguments Vis {A X} op k.

Fixpoint bind {A B} (m : Prog A) (f : A -> Prog B) : Prog B :=
  match m with
  | Ret a => f a
  | Vis op k => Vis op (fun r => bind (k r) f)
  end.

(** An [async] computation: it resolves to a value or rejects. *)
Definition Async (A : Type) : Type := Prog (result A).

Definition resolve {A} (a : A) : Async A := Ret (Ok a).
Definition reject {A} (e : Error) : Async A := Ret (Err e).

(** [await op] (or a plain call that may throw). *)
Definition call {X} (op : Op X) : Async X := Vis op Ret.

(** Sequencing inside an [async] function: a rejection skips the rest. *)
Definition abind {A B} (m : Async A) (f : A -> Async B) : Async B :=
  bind m (fun r => match r with Ok a => f a | Err e => reject e end).

(** [try { m } catch (e) { h e }]. *)
Definition try_catch {A} (m : Async A) (h : Error -> Async A) : Async A :=
  bind m (fun r => match r with Ok a => resolve a | Err e => h e end).

Declare Scope async_scope.
Delimit Scope async_scope with async.
Notation "x <- m ;; k" := (abind m (fun x => k))
  (at level 20, m at level 99, k at level 200, only parsing) : async_scope.
Notation "'do' m ;; k" := (abind m (fun _ => k))
  (at level 20, m at level 99, k at level 200, only parsing) : async_scope.
Open Scope async_scope.

(** [if (c) { m }] for a statement. *)
Definition when (c : bool) (m : Async unit) : Async unit :=
  if c then m else resolve tt.

(** [Promise.all(ps)]: every promise is started; the outcome is the list of
    values, or the first rejection. The promises are settled here in list
    order. *)
Fixpoint promise_all {A} (ps : list (Async A)) : Async (list A) :=
  match ps with
  | [] => resolve []
  | p :: ps' =>
      bind p (fun r =>
      bind (promise_all ps') (fun rs =>
        match r, rs with
        | Ok a, Ok l => resolve (a :: l)
        | Err e, _ => reject e
        | Ok _, Err e => reject e
        end))
  end.

(** [l.length > 0]. *)
Definition nonempty {A} (l : list A) : bool :=
  match l with [] => false | _ :: _ => true end.

(** [l.filter((e) => e !== null)]. *)
Fixpoint non_null {A} (l : list (option A)) : list A :=
  match l with
  | [] => []
  | Some a :: l' => a :: non_null l'
  | None :: l' => non_null l'
  end.

(** ** The world: local store, remote mailbox, log *)

(** The attributes of a record other than its key. *)
Record EmailBody := mkBody {
  b_threadId : option string;
  b_snippet : string;
  b_internalDate : string;
  b_subject : string;
  b_sender : string;
  b_embedding : option (list number);
  b_summary : option string;
}.

Definition key_of (e : Email) : Z * string := (userId e, id e).

Definition body_of (e : Email) : EmailBody :=
  mkBody (threadId e) (snippet e) (internalDate e) (subject e) (sender e)
         (embedding e) (summary e).

Definition row_of (k : Z * string) (b : EmailBody) : Email :=
  mkEmail k.2 (b_threadId b) (b_snippet b) (b_internalDate b) (b_subject b)
          (b_sender b) k.1 (b_embedding b) (b_summary b).

(** The local mailbox store.  Modelled from the spec: the repository of
    [Email] and the sync state kept by [GmailService] are not part of the
    sources; the store holds at most one record per [(userId, id)] and one
    cursor ([lastHistoryId]) per user. *)
Record Store := mkStore {
  cursors : gmap Z string;
  emails : gmap (Z * string) EmailBody;
}.

(** The remote side: what each remote call settles to.  The answers do not
    change while one call of the service runs. *)
Record Remote := mkRemote {
  profile_of : Z -> result Profile;
  history_of : Z -> option string -> option Z -> option string -> result HistoryRes;
  client_of : Z -> result GmailClient;
  detail_of : GmailClient -> string -> result MessageDetail;
  list_of : GmailClient -> Z -> option string -> result ListRes;
  embedding_of : string -> result (list number);
}.

(** A performed operation, for the log. *)
Definition Call : Type := sigT Op.
Definition call_of {X} (op : Op X) : Call := existT X op.

Record World := mkWorld {
  store : Store;
  remote : Remote;
  log : list Call;
}.

(** All stored records, in the store's enumeration order. *)
Definition rows (s : Store) : list Email :=
  map (fun kb => row_of kb.1 kb.2) (map_to_list (emails s)).

Definition set_cursor (u : Z) (h : string) (s : Store) : Store :=
  mkStore (<[u := h]> (cursors s)) (emails s).

(** A batch that names no record twice. *)
Definition distinct_keys (rs : list Email) : bool :=
  bool_decide (NoDup (map key_of rs)).

(** The effect of a [save(rows)] that succeeds: insert or update, record by
    record. *)
Definition save_rows (rs : list Email) (s : Store) : Store :=
  mkStore (cursors s)
          (foldl (fun t r => <[key_of r := body_of r]> t) (emails s) rs).

(** [save(rows)].  The batch is written in one transaction.  A batch that
    names one record twice violates the key of the table: the save rejects
    and nothing of the batch is stored.  None of the call sites removes
    repeated ids before the save or catches its failure. *)
Definition save (rs : list Email) (s : Store) : Store * result unit :=
  if distinct_keys rs then (save_rows rs s, Ok tt) else (s, Err duplicate_key).

(** [delete({ id: In(ids), userId })]. *)
Definition delete_rows (ids : list string) (u : Z) (s : Store) : Store :=
  mkStore (cursors s)
          (filter (fun kb => ¬ (kb.1.1 = u ∧ kb.1.2 ∈ ids)) (emails s)).

(** [find({ where: { id: In(ids) } })]: no condition on the user. *)
Definition find_id_in (ids : list (option string)) (s : Store) : list Email :=
  List.filter (fun r => bool_decide (Some (id r) ∈ ids)) (rows s).

(** [find({ where: { userId } })]. *)
Definition find_user (u : Z) (s : Store) : list Email :=
  List.filter (fun r => bool_decide (userId r = u)) (rows s).

(** The query of [generateEmbeddingsForEmails]:
    [embedding IS NULL AND userId = :userId AND id IN (:...emailIds)],
    limited by [take]. *)
Definition query_no_embedding (u : Z) (ids : list string) (n : nat) (s : Store)
  : list Email :=
  take n (List.filter
            (fun r => bool_decide (embedding r = None) &&
                      bool_decide (userId r = u) &&
                      bool_decide (id r ∈ ids))
            (rows s)).

(** The outcome of one operation on the store and the remote side. The gmail
    client rejects a [messages.get] without an id. *)
Definition outcome {X} (op : Op X) (s : Store) (r : Remote) : Store * result X :=
  match op in Op X return Store * result X with
  | getLastHistoryId u => (s, Ok (cursors s !! u))
  | updateLastHistoryId u h => (set_cursor u h s, Ok tt)
  | getProfile u => (s, profile_of r u)
  | getMailboxHistory u start mx tok => (s, history_of r u start mx tok)
  | getAuthenticatedGmailClient u => (s, client_of r u)
  | messages_get c None => (s, Err (OtherError "Missing required parameters: id"))
  | messages_get c (Some i) => (s, detail_of r c i)
  | messages_list c mx tok => (s, list_of r c mx tok)
  | repo_find_id_in ids => (s, Ok (find_id_in ids s))
  | repo_find_user u => (s, Ok (find_user u s))
  | repo_query_no_embedding u ids n => (s, Ok (query_no_embedding u ids n s))
  | repo_save rs => save rs s
  | repo_delete ids u => (delete_rows ids u s, Ok tt)
  | generateEmbedding text => (s, embedding_of r text)
  | emit _ => (s, Ok tt)
  | notifyNewEmails _ _ => (s, Ok tt)
  | sleep _ => (s, Ok tt)
  end.

(** Perform one operation: log it, apply its effect. *)
Definition exec {X} (op : Op X) (w : World) : World * result X :=
  let '(s, r) := outcome op (store w) (remote w) in
  (mkWorld s (remote w) (log w ++ [call_of op]), r).

(** Run a program to its end. *)
Fixpoint run {A} (p : Prog A) (w : World) : World * A :=
  match p with
  | Ret a => (w, a)
  | Vis op k => let '(w', r) := exec op w in run (k r) w'
  end.

(** ** [EmailSynceService] *)

(** [headers.find((h) => h.name === name)?.value || ''] *)
Definition getHeader (headers : list Header) (name : string) : string :=
  match List.find (fun h => bool_decide (h_name h = Some name)) headers with
  | Some h => or_else (h_value h) ""
  | None => ""
  end.

(** [detail.data.payload?.headers ?? []] *)
Definition headers_of (detail : MessageDetail) : list Header :=
  match d_payload detail with
  | Some p => default [] (p_headers p)
  | None => []
  end.

(** The body of the [map] callback shared by [processAndSaveBatch] and
    [syncEmailsWithDeletion]: one [messages.get], a record on success,
    [null] on failure.  [msg.id!] is read after the get, which rejects when
    the id is absent. *)
Definition fetch_message (userId : Z) (gmailClient : GmailClient) (msg : Message)
  : Async (option Email) :=
  try_catch
    (detail <- call (messages_get gmailClient (msg_id msg)) ;;
     let headers := headers_of detail in
     resolve (Some {|
       id := nullish_else (msg_id msg) "";
       threadId := msg_threadId msg;
       snippet := nullish_else (d_snippet detail) "";
       internalDate := nullish_else (d_internalDate detail) "";
       subject := getHeader headers "Subject";
       sender := getHeader headers "From";
       userId := userId;
       embedding := None;
       summary := None |}))
    (fun _ => resolve None).

Definition processAndSaveBatch (userId : Z) (messages : list Message)
    (gmailClient : GmailClient) : Async (list string) :=
  if negb (nonempty messages) then resolve [] else
  existingIds <- call (repo_find_id_in (map msg_id messages)) ;;
  let existingIdSet := new_Set (map id existingIds) in
  let messagesToFetch :=
    List.filter (fun m => negb (has existingIdSet (or_else (msg_id m) ""))) messages in
  if negb (nonempty messagesToFetch) then resolve [] else
  fetchedEmails <- promise_all (map (fetch_message userId gmailClient) messagesToFetch) ;;
  let validEmails := non_null fetchedEmails in
  if nonempty validEmails then
    do call (repo_save validEmails) ;;
    resolve (map id validEmails)
  else resolve [].

(** [{ ...email, embedding: v }] *)
Definition with_embedding (email : Email) (v : option (list number)) : Email :=
  {| id := id email;
     threadId := threadId email;
     snippet := snippet email;
     internalDate := internalDate email;
     subject := subject email;
     sender := sender email;
     userId := userId email;
     embedding := v;
     summary := summary email |}.

Section Runtime.
(** [String.prototype.trim] of the JavaScript runtime. *)
Variable trim : string -> string.

(** The template literal of the source, line breaks and indentation
    included, then [.trim()]. *)
Definition prepareTextForEmbedding (email : Email) : string :=
  trim ("
        Subject: " +:+ subject email +:+ "
        From: " +:+ sender email +:+ "
        Content: " +:+ or_else (summary email) (snippet email) +:+ "
    ").

Definition BATCH_SIZE : nat := 10.

(** The [map] callback of [generateEmbeddingsForEmails]. *)
Definition embed_email (email : Email) : Async (option Email) :=
  try_catch
    (let textToEmbed := prepareTextForEmbedding email in
     vector <- call (generateEmbedding textToEmbed) ;;
     resolve (Some (with_embedding email
                      (if bool_decide (length vector = 1536%nat)
                       then Some vector else None))))
    (fun _ => resolve None).

Definition generateEmbeddingsForEmails (userId : Z) (emailIds : list string)
  : Async (list string) :=
  emailsToProcess <- call (repo_query_no_embedding userId emailIds BATCH_SIZE) ;;
  if negb (nonempty emailsToProcess) then resolve [] else
  updatedEmails <- promise_all (map embed_email emailsToProcess) ;;
  let validEmails :=
    List.filter (fun e => bool_decide (embedding e ≠ None)) (non_null updatedEmails) in
  do when (nonempty validEmails) (call (repo_save validEmails)) ;;
  let processedIds := new_Set (map id emailsToProcess) in
  let remainingIds := List.filter (fun i => negb (has processedIds i)) emailIds in
  resolve remainingIds.
End Runtime.

Definition syncEmailsWithDeletion (userId : Z) (messages : list Message)
    (gmailClient : GmailClient) : Async (list string * list string) :=
  dbEmails <- call (repo_find_user userId) ;;
  let dbEmailIdSet := new_Set (map id dbEmails) in
  let gmailEmailIdSet := new_Set (map msg_id messages) in
  let deletedEmailIds :=
    List.filter (fun i => negb (has gmailEmailIdSet (Some i))) dbEmailIdSet in
  let messagesToFetch :=
    List.filter (fun m => negb (has dbEmailIdSet (or_else (msg_id m) ""))) messages in
  newEmailIds <-
    (if nonempty messagesToFetch then
       fetchedEmails <- promise_all (map (fetch_message userId gmailClient) messagesToFetch) ;;
       let validEmails := non_null fetchedEmails in
       if nonempty validEmails then
         do call (repo_save validEmails) ;;
         resolve (map id validEmails)
       else resolve []
     else resolve []) ;;
  do when (nonempty deletedEmailIds) (call (repo_delete deletedEmailIds userId)) ;;
  resolve (newEmailIds, deletedEmailIds).

(** The ids pushed by one of the inner loops of [processHistoryRecords]:
    [if (message?.id && typeof message.id === 'string') ids.push(message.id)]. *)
Definition pushed_ids (entries : option (list HistoryEntry)) : list string :=
  match entries with
  | None => []
  | Some l =>
      flat_map (fun e =>
        match e_message e with
        | Some m =>
            match msg_id m with
            | Some i => if truthy i then [i] else []
            | None => []
            end
        | None => []
        end) l
  end.

(** The [map] callback of [processHistoryRecords]. *)
Definition fetch_history_message (userId : Z) (gmailClient : GmailClient)
    (emailId : string) : Async (option Email) :=
  try_catch
    (detail <- call (messages_get gmailClient (Some emailId)) ;;
     let headers := headers_of detail in
     resolve (Some {|
       id := emailId;
       threadId := Some (or_else (d_threadId detail) "");
       snippet := nullish_else (d_snippet detail) "";
       internalDate := nullish_else (d_internalDate detail) "";
       subject := getHeader headers "Subject";
       sender := getHeader headers "From";
       userId := userId;
       embedding := None;
       summary := None |}))
    (fun _ => resolve None).

(** [if (h && typeof h === 'string') await updateLastHistoryId(userId, h)] *)
Definition update_cursor_if_string (userId : Z) (h : option string) : Async unit :=
  match h with
  | Some s => when (truthy s) (call (updateLastHistoryId userId s))
  | None => resolve tt
  end.

Definition processHistoryRecords (userId : Z) (historyRes : HistoryRes)
  : Async (list string * list string) :=
  let history := default [] (history historyRes) in
  let newEmailIds := flat_map (fun record => pushed_ids (messagesAdded record)) history in
  let deletedEmailIds := flat_map (fun record => pushed_ids (messagesDeleted record)) history in
  (* Save new emails to database *)
  do when (nonempty newEmailIds)
       (gmailClient <- call (getAuthenticatedGmailClient userId) ;;
        fetchedEmails <-
          promise_all (map (fetch_history_message userId gmailClient) newEmailIds) ;;
        let validEmails := non_null fetchedEmails in
        when (nonempty validEmails)
          (existingIds <- call (repo_find_id_in (map (fun e => Some (id e)) validEmails)) ;;
           let existingIdSet := new_Set (map id existingIds) in
           let emailsToSave :=
             List.filter (fun e => negb (has existingIdSet (id e))) validEmails in
           when (nonempty emailsToSave) (call (repo_save emailsToSave)))) ;;
  (* Delete removed emails from database *)
  do when (nonempty deletedEmailIds) (call (repo_delete deletedEmailIds userId)) ;;
  (* Update lastHistoryId *)
  do update_cursor_if_string userId (historyId historyRes) ;;
  resolve (newEmailIds, deletedEmailIds).

Definition syncEmailsWithHistory (userId : Z) : Async (list string * list string) :=
  lastHistoryId <- call (getLastHistoryId userId) ;;
  if negb (truthy_opt lastHistoryId) then
    (* If no last history ID exists, get it from profile *)
    profile <- call (getProfile userId) ;;
    let lastHistoryId := or_null (p_historyId profile) in
    (* Save the history ID for future syncs *)
    do match lastHistoryId with
       | Some h => call (updateLastHistoryId userId h)
       | None => resolve tt
       end ;;
    (* Return empty result for first sync *)
    resolve ([], [])
  else
    historyRes <- call (getMailboxHistory userId lastHistoryId None None) ;;
    result <- processHistoryRecords userId historyRes ;;
    resolve result.

(** ** [EmailSyncListener] *)

Definition MAX_PAGES : float := 10.

(** The branch [pageCount === 0]: first sync from the scheduler. *)
Definition first_history_sync (userId : Z) : Async unit :=
  res <- syncEmailsWithHistory userId ;;
  let '(newEmailIds, firstDeletedIds) := res in
  let allChangedEmailIds := newEmailIds ++ firstDeletedIds in
  do when (nonempty allChangedEmailIds)
       (call (notifyNewEmails userId allChangedEmailIds)) ;;
  (* Trigger embedding generation for new emails *)
  do when (nonempty newEmailIds)
       (call (emit (email_embedding (mkEmbeddingEvent userId newEmailIds 1)))) ;;
  (* Check if there are more pages to sync *)
  cursor <- call (getLastHistoryId userId) ;;
  historyRes <- call (getMailboxHistory userId (or_null cursor) None None) ;;
  if truthy_opt (nextPageToken historyRes) then
    do call (sleep 1000) ;;
    call (emit (email_sync
            (mkSyncEvent userId (nextPageToken historyRes) 1 (Some firstDeletedIds))))
  else resolve tt.

(** The branch [pageCount === 1 && pageToken]: a further history page. *)
Definition history_page_sync (userId : Z) (pageToken : option string)
    (deletedEmailIds : option (list string)) : Async unit :=
  historyRes <- call (getMailboxHistory userId None (Some 100) pageToken) ;;
  result <- processHistoryRecords userId historyRes ;;
  let allChangedEmailIds := result.1 ++ default [] deletedEmailIds ++ result.2 in
  do when (nonempty allChangedEmailIds)
       (call (notifyNewEmails userId allChangedEmailIds)) ;;
  (* Trigger embedding generation for new emails *)
  do when (nonempty result.1)
       (call (emit (email_embedding (mkEmbeddingEvent userId result.1 1)))) ;;
  (* Continue with next page if exists *)
  if truthy_opt (nextPageToken historyRes) then
    do call (sleep 1000) ;;
    call (emit (email_sync
            (mkSyncEvent userId (nextPageToken historyRes) 1
               (Some (default [] deletedEmailIds ++ result.2)))))
  else
    (* Update lastHistoryId after all pages *)
    update_cursor_if_string userId (historyId historyRes).

(** The last part: pagination over [messages.list]. *)
Definition list_page_sync (userId : Z) (pageToken : option string) (pageCount : float)
  : Async unit :=
  gmail <- call (getAuthenticatedGmailClient userId) ;;
  listRes <- call (messages_list gmail 100 pageToken) ;;
  let messages := default [] (l_messages listRes) in
  let nextPageToken := l_nextPageToken listRes in
  emailIds <- processAndSaveBatch userId messages gmail ;;
  (* Notify frontend about saved email IDs *)
  do when (nonempty emailIds) (call (notifyNewEmails userId emailIds)) ;;
  (* Trigger background embedding generation *)
  do when (nonempty emailIds)
       (call (emit (email_embedding (mkEmbeddingEvent userId emailIds 1)))) ;;
  do call (sleep 1000) ;;
  when (truthy_opt nextPageToken)
    (call (emit (email_sync (EmailSyncEvent3 userId nextPageToken (pageCount + 1)%float)))).

(** [catch (error) { this.logger.error(...) }] *)
Definition log_error (e : Error) : Async unit := resolve tt.

Definition handleSyncOldEmails (payload : EmailSyncEvent) : Async unit :=
  let userId := ev_userId payload in
  let pageToken := ev_pageToken payload in
  let pageCount := ev_pageCount payload in
  let deletedEmailIds := ev_deletedEmailIds payload in
  if (pageCount =? 0)%float then
    try_catch (first_history_sync userId) log_error
  else if (pageCount =? 1)%float && truthy_opt pageToken then
    try_catch (history_page_sync userId pageToken deletedEmailIds) log_error
  else if negb (truthy_opt pageToken) || (MAX_PAGES <? pageCount)%float then
    resolve tt
  else
    try_catch (list_page_sync userId pageToken pageCount) log_error.

(** ** The event bus

    Modelled from the spec: the emitter and its scheduling are not part of
    the sources.  Delivery is asynchronous relative to the emitting call;
    handlers run on one single-threaded event loop and interleave only at
    suspension points.  The listener is registered with
    [@OnEvent('email.sync', { async: true })]: every ['email.sync'] event
    starts one execution of [handleSyncOldEmails]. *)
Module Bus.

(** One execution of the handler: the event it serves, whether it has begun
    to run, and what is left of it. *)
Record Task := mkTask {
  t_event : EmailSyncEvent;
  t_started : bool;
  t_prog : Async unit;
}.

(** The world and the executions in flight. *)
Record State := mkState {
  world : World;
  tasks : list Task;
}.

Definition initial (w : World) : State := mkState w [].

(** The execution an ['email.sync'] event starts. *)
Definition dispatch (e : EmailSyncEvent) : Task :=
  mkTask e false (handleSyncOldEmails e).

(** The executions an operation gives rise to. *)
Definition spawned {X} (op : Op X) : list Task :=
  match op with
  | emit (email_sync e) => [dispatch e]
  | _ => []
  end.

Definition finished {A} (p : Prog A) : bool :=
  match p with Ret _ => true | Vis _ _ => false end.

(** Run the plain calls in front of a program, up to its next [await]. *)
Fixpoint drain (p : Async unit) (w : World) : World * Async unit * list Task :=
  match p with
  | Ret r => (w, Ret r, [])
  | Vis op k =>
      if is_await op then (w, p, [])
      else
        let '(w1, r) := exec op w in
        let '(w2, p', ts) := drain (k r) w1 in
        (w2, p', spawned op ++ ts)
  end.

(** One turn of an execution: the operation it waits for settles, then it
    runs on to its next suspension point. *)
Definition turn (p : Async unit) (w : World) : World * Async unit * list Task :=
  match p with
  | Ret r => (w, Ret r, [])
  | Vis op k =>
      let '(w1, r) := exec op w in
      let '(w2, p', ts) := drain (k r) w1 in
      (w2, p', spawned op ++ ts)
  end.

Inductive Label :=
  | arrive (e : EmailSyncEvent)     (* an event from outside, e.g. the poller *)
  | resume (i : nat).               (* the event loop picks execution [i] *)

Definition step (l : Label) (st : State) : option State :=
  match l with
  | arrive e => Some (mkState (world st) (tasks st ++ [dispatch e]))
  | resume i =>
      match tasks st !! i with
      | None => None
      | Some t =>
          let '(w', p', ts) := turn (t_prog t) (world st) in
          let rest :=
            if finished p' then take i (tasks st) ++ drop (S i) (tasks st)
            else <[i := mkTask (t_event t) true p']> (tasks st) in
          Some (mkState w' (rest ++ ts))
      end
  end.

Fixpoint steps (ls : list Label) (st : State) : option State :=
  match ls with
  | [] => Some st
  | l :: ls' =>
      match step l st with
      | Some st' => steps ls' st'
      | None => None
      end
  end.

(** At most one execution per user has begun and not yet completed. *)
Definition serialized (st : State) : Prop :=
  forall i j ti tj,
    tasks st !! i = Some ti -> tasks st !! j = Some tj ->
    t_started ti = true -> t_started tj = true ->
    ev_userId (t_event ti) = ev_userId (t_event tj) ->
    i = j.

(** Executions for one user are never in progress together, whatever
    events arrive and however the event loop schedules. *)
Definition always_serialized (w : World) : Prop :=
  forall ls st, steps ls (initial w) = Some st -> serialized st.

End Bus.

(** ** Vocabulary of the statements *)

(** The world after some more operations were logged. *)
Definition logged (cs : list Call) (w : World) : World :=
  mkWorld (store w) (remote w) (log w ++ cs).

(** The same world in front of another remote side. *)
Definition with_remote (r : Remote) (w : World) : World :=
  mkWorld (store w) r (log w).

(** The operations a run performs, in order. *)
Definition performed {A} (p : Prog A) (w : World) : list Call :=
  drop (length (log w)) (log (run p w).1).

(** Operations that leave the store alone. *)
Definition pure_op {X} (op : Op X) : bool :=
  match op with
  | updateLastHistoryId _ _ | repo_save _ | repo_delete _ _ => false
  | _ => true
  end.

(** Views of a list of operations: the ids of the [messages.get] calls, the
    saved batches, the deletions, the page tokens of the [messages.list]
    calls, the texts sent for embedding, the emitted events, the emitted
    ['email.sync'] events and the cursor updates. *)
Definition fetches (cs : list Call) : list (option string) :=
  flat_map (fun c : Call =>
    match projT2 c with messages_get _ i => [i] | _ => [] end) cs.

Definition saves (cs : list Call) : list (list Email) :=
  flat_map (fun c : Call =>
    match projT2 c with repo_save rs => [rs] | _ => [] end) cs.

Definition deletions (cs : list Call) : list (list string * Z) :=
  flat_map (fun c : Call =>
    match projT2 c with repo_delete ids u => [(ids, u)] | _ => [] end) cs.

Definition listings (cs : list Call) : list (option string) :=
  flat_map (fun c : Call =>
    match projT2 c with messages_list _ _ tok => [tok] | _ => [] end) cs.

Definition generated (cs : list Call) : list string :=
  flat_map (fun c : Call =>
    match projT2 c with generateEmbedding t => [t] | _ => [] end) cs.

Definition emitted (cs : list Call) : list Event :=
  flat_map (fun c : Call =>
    match projT2 c with emit ev => [ev] | _ => [] end) cs.

Definition sync_requests (cs : list Call) : list EmailSyncEvent :=
  flat_map (fun ev => match ev with email_sync e => [e] | _ => [] end) (emitted cs).

Definition cursor_writes (cs : list Call) : list (Z * string) :=
  flat_map (fun c : Call =>
    match projT2 c with updateLastHistoryId u h => [(u, h)] | _ => [] end) cs.

(** Some user holds a record with this id. *)
Definition stored_id (s : Store) (i : string) : Prop :=
  exists u, is_Some (emails s !! (u, i)).

(** No two records of the store share an id. *)
Definition unique_ids (s : Store) : Prop :=
  forall u1 u2 i,
    is_Some (emails s !! (u1, i)) -> is_Some (emails s !! (u2, i)) -> u1 = u2.

(** The conditional store updates of the service. *)
Definition save_step (rs : list Email) (s : Store) : Store :=
  if nonempty rs then save_rows rs s else s.

Definition delete_step (ids : list string) (u : Z) (s : Store) : Store :=
  if nonempty ids then delete_rows ids u s else s.

Definition cursor_step (u : Z) (h : option string) (s : Store) : Store :=
  match h with
  | Some x => if truthy x then set_cursor u x s else s
  | None => s
  end.

Definition save_calls (rs : list Email) : list Call :=
  if nonempty rs then [call_of (repo_save rs)] else [].

Definition delete_calls (ids : list string) (u : Z) : list Call :=
  if nonempty ids then [call_of (repo_delete ids u)] else [].

Definition cursor_calls (u : Z) (h : option string) : list Call :=
  match h with
  | Some x => if truthy x then [call_of (updateLastHistoryId u x)] else []
  | None => []
  end.

(** What [fetch_message] resolves to. *)
Definition fetched (r : Remote) (u : Z) (c : GmailClient) (m : Message) : option Email :=
  match msg_id m with
  | None => None
  | Some i =>
      match detail_of r c i with
      | Ok detail =>
          Some (mkEmail i (msg_threadId m) (nullish_else (d_snippet detail) "")
                  (nullish_else (d_internalDate detail) "")
                  (getHeader (headers_of detail) "Subject")
                  (getHeader (headers_of detail) "From") u None None)
      | Err _ => None
      end
  end.

Definition validEmails (r : Remote) (u : Z) (c : GmailClient) (ms : list Message)
  : list Email :=
  non_null (map (fetched r u c) ms).

Definition get_calls (c : GmailClient) (ms : list Message) : list Call :=
  flat_map (fun m => [call_of (messages_get c (msg_id m))]) ms.

(** [messagesToFetch] of [processAndSaveBatch]. *)
Definition messagesToFetch (s : Store) (ms : list Message) : list Message :=
  List.filter
    (fun m => negb (has (new_Set (map id (find_id_in (map msg_id ms) s)))
                        (or_else (msg_id m) "")))
    ms.

(** The sets of [syncEmailsWithDeletion]. *)
Definition db_ids (u : Z) (s : Store) : list string :=
  new_Set (map id (find_user u s)).

Definition deleted_ids (u : Z) (s : Store) (ms : list Message) : list string :=
  List.filter (fun i => negb (has (new_Set (map msg_id ms)) (Some i))) (db_ids u s).

Definition to_fetch_user (u : Z) (s : Store) (ms : list Message) : list Message :=
  List.filter (fun m => negb (has (db_ids u s) (or_else (msg_id m) ""))) ms.

(** The id lists and the saved records of [processHistoryRecords]. *)
Definition newEmailIds_of (hr : HistoryRes) : list string :=
  flat_map (fun record => pushed_ids (messagesAdded record)) (default [] (history hr)).

Definition deletedEmailIds_of (hr : HistoryRes) : list string :=
  flat_map (fun record => pushed_ids (messagesDeleted record)) (default [] (history hr)).

Definition fetched_history (r : Remote) (u : Z) (c : GmailClient) (i : string)
  : option Email :=
  match detail_of r c i with
  | Ok detail =>
      Some (mkEmail i (Some (or_else (d_threadId detail) ""))
              (nullish_else (d_snippet detail) "")
              (nullish_else (d_internalDate detail) "")
              (getHeader (headers_of detail) "Subject")
              (getHeader (headers_of detail) "From") u None None)
  | Err _ => None
  end.

Definition history_rows (s : Store) (r : Remote) (u : Z) (c : GmailClient)
    (ids : list string) : list Email :=
  let valid := non_null (map (fetched_history r u c) ids) in
  let existing := new_Set (map id (find_id_in (map (fun e => Some (id e)) valid) s)) in
  List.filter (fun e => negb (has existing (id e))) valid.

(** What [embed_email] resolves to, and the records
    [generateEmbeddingsForEmails] saves. *)
Definition embedded (trim : string -> string) (r : Remote) (email : Email) : option Email :=
  match embedding_of r (prepareTextForEmbedding trim email) with
  | Ok vector =>
      Some (with_embedding email
              (if bool_decide (length vector = 1536%nat) then Some vector else None))
  | Err _ => None
  end.

Definition embedding_rows (trim : string -> string) (r : Remote) (sel : list Email)
  : list Email :=
  List.filter (fun e => bool_decide (embedding e ≠ None))
              (non_null (map (embedded trim r) sel)).

(** The ids of the records each path hands to [save], in order and with
    their repetitions: for [processAndSaveBatch] the candidates that are in
    the store for no user and can be read, for [syncEmailsWithDeletion] the
    listed messages that are not stored for the user and can be read, for
    [processHistoryRecords] the added ids that can be read and are in the
    store for no user. *)
Definition batch_ids (s : Store) (r : Remote) (u : Z) (c : GmailClient)
    (ms : list Message) : list string :=
  map id (validEmails r u c (messagesToFetch s ms)).

Definition diff_ids (s : Store) (r : Remote) (u : Z) (c : GmailClient)
    (ms : list Message) : list string :=
  map id (validEmails r u c (to_fetch_user u s ms)).

Definition history_ids (s : Store) (r : Remote) (u : Z) (c : GmailClient)
    (hr : HistoryRes) : list string :=
  map id (history_rows s r u c (newEmailIds_of hr)).

(** The operations of [list_page_sync] after the batch was stored. *)
Definition list_page_tail (u : Z) (ids : list string) (next : option string) (n : float)
  : list Call :=
  (if nonempty ids then [call_of (notifyNewEmails u ids)] else []) ++
  (if nonempty ids
   then [call_of (emit (email_embedding (mkEmbeddingEvent u ids 1)))] else []) ++
  [call_of (sleep 1000)] ++
  (if truthy_opt next
   then [call_of (emit (email_sync (EmailSyncEvent3 u next (n + 1)%float)))] else []).

(** The operations of one call of [processAndSaveBatch]. *)
Definition batch_calls (s : Store) (r : Remote) (u : Z) (c : GmailClient)
    (ms : list Message) : list Call :=
  if nonempty ms then
    call_of (repo_find_id_in (map msg_id ms))
      :: get_calls c (messagesToFetch s ms)
      ++ save_calls (validEmails r u c (messagesToFetch s ms))
  else [].

(** The operations and the resulting store of one call of
    [processHistoryRecords] whose client request succeeds. *)
Definition get_id_calls (c : GmailClient) (ids : list string) : list Call :=
  flat_map (fun i => [call_of (messages_get c (Some i))]) ids.

Definition history_calls (s : Store) (r : Remote) (u : Z) (c : GmailClient)
    (hr : HistoryRes) : list Call :=
  let new := newEmailIds_of hr in
  let valid := non_null (map (fetched_history r u c) new) in
  (if nonempty new then
     call_of (getAuthenticatedGmailClient u)
       :: get_id_calls c new
       ++ (if nonempty valid then
             call_of (repo_find_id_in (map (fun e => Some (id e)) valid))
               :: save_calls (history_rows s r u c new)
           else [])
   else []) ++
  delete_calls (deletedEmailIds_of hr) u ++
  cursor_calls u (historyId hr).

Definition history_store (s : Store) (r : Remote) (u : Z) (c : GmailClient)
    (hr : HistoryRes) : Store :=
  cursor_step u (historyId hr)
    (delete_step (deletedEmailIds_of hr) u
       (save_step (history_rows s r u c (newEmailIds_of hr)) s)).

(** The operations of the history-page branch of the listener after the page
    was processed. *)
Definition page_tail_calls (u : Z) (hr : HistoryRes) (del : option (list string))
  : list Call :=
  let new := newEmailIds_of hr in
  let all := new ++ default [] del ++ deletedEmailIds_of hr in
  (if nonempty all then [call_of (notifyNewEmails u all)] else []) ++
  (if nonempty new
   then [call_of (emit (email_embedding (mkEmbeddingEvent u new 1)))] else []) ++
  (if truthy_opt (nextPageToken hr) then
     [call_of (sleep 1000);
      call_of (emit (email_sync
                 (mkSyncEvent u (nextPageToken hr) 1
                    (Some (default [] del ++ deletedEmailIds_of hr)))))]
   else cursor_calls u (historyId hr)).

(** The behaviour described for an expired history id: after the listener
    handled a first-sync request for a user whose history listing fails with
    [HistoryExpired], the stored cursor is the history id of the profile. *)
Definition reseeds_on_expiry (u : Z) (w : World) : Prop :=
  forall h p h',
    cursors (store w) !! u = Some h ->
    history_of (remote w) u (Some h) None None = Err HistoryExpired ->
    profile_of (remote w) u = Ok p ->
    p_historyId p = Some h' ->
    cursors (store (run (handleSyncOldEmails (EmailSyncEvent3 u None 0)) w).1) !! u
    = Some h'.

(** The vocabulary of [generateEmbeddingsForEmails]: the requests for
    embeddings, the input ids without those of the selected emails, and the
    statement that the call returns that list. *)
Definition embed_calls (trim : string -> string) (sel : list Email) : list Call :=
  flat_map (fun e => [call_of (generateEmbedding (prepareTextForEmbedding trim e))]) sel.

Definition ids_minus_selected (ids : list string) (sel : list Email) : list string :=
  List.filter (fun i => negb (has (new_Set (map id sel)) i)) ids.

Definition returns_ids_minus_selected (trim : string -> string) (u : Z)
    (ids : list string) (w : World) : Prop :=
  (run (generateEmbeddingsForEmails trim u ids) w).2 =
  Ok (ids_minus_selected ids (query_no_embedding u ids BATCH_SIZE (store w))).

(** The behaviour described for the list-page requests: a request whose
    counter does not exceed the bound and that carries a page token is
    followed, when the listing for that token succeeds and carries a
    continuation token, by exactly one request, for that continuation token
    and with the counter incremented by one. *)
Definition follow_up_incremented (e : EmailSyncEvent) (w : World) : Prop :=
  forall c lr,
    (MAX_PAGES <? ev_pageCount e)%float = false ->
    truthy_opt (ev_pageToken e) = true ->
    client_of (remote w) (ev_userId e) = Ok c ->
    list_of (remote w) c 100 (ev_pageToken e) = Ok lr ->
    truthy_opt (l_nextPageToken lr) = true ->
    sync_requests (performed (handleSyncOldEmails e) w) =
    [EmailSyncEvent3 (ev_userId e) (l_nextPageToken lr) (ev_pageCount e + 1)%float].

(** ** Sample worlds *)
Module Sample.

Definition failing {A} : result A := Err TransientNetworkError.

Definition m1 : Message := mkMessage (Some "m1") (Some "t1").
Definition m2 : Message := mkMessage (Some "m2") (Some "t2").
Definition mA : Message := mkMessage (Some "A") (Some "tA").
Definition mC : Message := mkMessage (Some "C") (Some "tC").

Definition detail_ok : MessageDetail :=
  mkDetail (Some "t1") (Some "hello") (Some "1700000000000")
    (Some (mkPayload (Some [mkHeader (Some "Subject") (Some "Hi");
                            mkHeader (Some "From") (Some "a@example.com")]))).

Definition body0 : EmailBody :=
  mkBody (Some "t0") "snippet" "1700000000000" "Subject" "sender@example.com" None None.

(** A history page with no records, a continuation token and a new
    history id. *)
Definition page_with_token : HistoryRes :=
  mkHistoryRes None (Some "tok") (Some "200").

(** A remote mailbox: message [m2] cannot be read, every other message
    can; the history feed answers [page_with_token]; the profile reports
    history id 500; embeddings fail. *)
Definition mailbox : Remote := {|
  profile_of := fun _ => Ok (mkProfile (Some "500"));
  history_of := fun _ _ _ _ => Ok page_with_token;
  client_of := fun u => Ok (mkClient u);
  detail_of := fun _ i => if String.eqb i "m2" then Err NotFound else Ok detail_ok;
  list_of := fun _ _ _ => Ok (mkListRes (Some [m1; m2]) (Some "next"));
  embedding_of := fun _ => failing;
|}.

(** The same mailbox when the stored history id is too old to resume
    from. *)
Definition mailbox_expired : Remote := {|
  profile_of := profile_of mailbox;
  history_of := fun _ _ _ _ => Err HistoryExpired;
  client_of := client_of mailbox;
  detail_of := detail_of mailbox;
  list_of := list_of mailbox;
  embedding_of := embedding_of mailbox;
|}.

(** A vector of the expected length. *)
Definition vector1536 : list number := replicate 1536 (Qcanon.Q2Qc (QArith_base.inject_Z 0)).

(** The same mailbox with a working embedding service. *)
Definition mailbox_embedding : Remote := {|
  profile_of := profile_of mailbox;
  history_of := history_of mailbox;
  client_of := client_of mailbox;
  detail_of := detail_of mailbox;
  list_of := list_of mailbox;
  embedding_of := fun _ => Ok vector1536;
|}.

(** A stand-in for [String.prototype.trim]. *)
Definition no_trim (s : string) : string := s.

Definition empty_store : Store := mkStore ∅ ∅.

(** User 1 has cursor 100 and no records. *)
Definition store_cursor : Store := mkStore {[ 1 := "100" ]} ∅.

(** Message [m1] is stored for user 2 only. *)
Definition store_other_user : Store := mkStore ∅ {[ (2, "m1") := body0 ]}.

(** User 1 holds the records A, B and C. *)
Definition store_ABC : Store :=
  mkStore ∅ {[ (1, "A") := body0; (1, "B") := body0; (1, "C") := body0 ]}.

Definition fresh : World := mkWorld empty_store mailbox [].
Definition with_cursor : World := mkWorld store_cursor mailbox [].
Definition expired : World := mkWorld store_cursor mailbox_expired [].
Definition other_user : World := mkWorld store_other_user mailbox [].
Definition ABC : World := mkWorld store_ABC mailbox [].
Definition ABC_embedding : World := mkWorld store_ABC mailbox_embedding [].

End Sample.

(** ** More of [EmailSynceService] *)

(** [syncFirstBatch]: the first page of [messages.list], stored through
    [processAndSaveBatch]; the listing is asked without a page token, and no
    failure is caught here. *)
Definition syncFirstBatch (userId : Z) : Async (list string) :=
  gmail <- call (getAuthenticatedGmailClient userId) ;;
  listRes <- call (messages_list gmail 100 None) ;;
  let messages := default [] (l_messages listRes) in
  if negb (nonempty messages) then resolve [] else
  let nextPageToken := l_nextPageToken listRes in
  (* Process and save batch *)
  emailIds <- processAndSaveBatch userId messages gmail ;;
  (* Trigger embedding generation *)
  do when (nonempty emailIds)
       (call (emit (email_embedding (mkEmbeddingEvent userId emailIds 1)))) ;;
  (* Trigger sync of the next pages *)
  do when (truthy_opt nextPageToken)
       (call (emit (email_sync (EmailSyncEvent3 userId nextPageToken 1)))) ;;
  resolve emailIds.

Section Recent.
(** [find({ where: { userId }, order: { internalDate: 'DESC' }, take: n })]:
    the ordering and the limit the database applies to the records of the
    user.  The column type of [internalDate] is declared in the entity, which
    is not part of the sources. *)
Variable latest : nat -> list Email -> list Email.

(** [syncEmailsForUser]: originate a background sync and return what the
    store holds. *)
Definition syncEmailsForUser (userId : Z) : Async (list Email) :=
  gmail <- call (getAuthenticatedGmailClient userId) ;;
  listRes <- call (messages_list gmail 100 None) ;;
  let messages := default [] (l_messages listRes) in
  let nextPageToken := l_nextPageToken listRes in
  (* Emit the event at once, everything is processed in the background *)
  do when (nonempty messages)
       (call (emit (email_sync (EmailSyncEvent3 userId nextPageToken 0)))) ;;
  (* Return the emails currently in the database *)
  dbEmails <- call (repo_find_user userId) ;;
  resolve (latest 20 dbEmails).
End Recent.

(** [error.status === 404].  Of the failures a remote call can end in,
    [NotFound] is the one of a message id that no longer exists remotely. *)
Definition is_404 (e : Error) : bool :=
  match e with
  | NotFound => true
  | _ => false
  end.

(** The body of the loop of [syncDeletedEmails]: one [messages.get] whose
    response is not read; [true] when the id is to be pushed. *)
Definition gone_remotely (gmail : GmailClient) (emailId : string) : Async bool :=
  try_catch
    (do call (messages_get gmail (Some emailId)) ;; resolve false)
    (fun error => resolve (is_404 error)).

(** [for (const emailId of dbEmailIds) { ... }], one id after the other,
    collecting [deletedEmailIds]. *)
Fixpoint check_each (gmail : GmailClient) (dbEmailIds : list string)
  : Async (list string) :=
  match dbEmailIds with
  | [] => resolve []
  | emailId :: rest =>
      gone <- gone_remotely gmail emailId ;;
      deletedEmailIds <- check_each gmail rest ;;
      resolve (if gone then emailId :: deletedEmailIds else deletedEmailIds)
  end.

Definition syncDeletedEmails (userId : Z) : Async (list string) :=
  gmail <- call (getAuthenticatedGmailClient userId) ;;
  (* Get all emails in database for this user *)
  dbEmails <- call (repo_find_user userId) ;;
  if negb (nonempty dbEmails) then resolve [] else
  let dbEmailIds := map id dbEmails in
  (* Check each email to see if it still exists in Gmail *)
  deletedEmailIds <- check_each gmail dbEmailIds ;;
  (* Delete from database if found deleted emails *)
  do when (nonempty deletedEmailIds) (call (repo_delete deletedEmailIds userId)) ;;
  resolve deletedEmailIds.

(** ** More vocabulary *)

(** The notifications sent through the gateway. *)
Definition notified (cs : list Call) : list (Z * list string) :=
  flat_map (fun c : Call =>
    match projT2 c with notifyNewEmails u ids => [(u, ids)] | _ => [] end) cs.

(** The history listings asked for: start id and page token. *)
Definition history_requests (cs : list Call) : list (option string * option string) :=
  flat_map (fun c : Call =>
    match projT2 c with
    | getMailboxHistory _ start _ tok => [(start, tok)]
    | _ => []
    end) cs.

(** The cursor after a history page was processed from cursor [h]. *)
Definition cursor_after (h : string) (hr : HistoryRes) : string :=
  match historyId hr with
  | Some x => if truthy x then x else h
  | None => h
  end.

(** The ids of the user's records whose [messages.get] fails with 404. *)
Definition gone_ids (r : Remote) (c : GmailClient) (ids : list string) : list string :=
  List.filter (fun i => match detail_of r c i with
                        | Ok _ => false
                        | Err e => is_404 e
                        end) ids.

(** ** More sample worlds *)
Module Example.

(** A remote side where every call fails. *)
Definition unreachable : Remote := {|
  profile_of := fun _ => Err TransientNetworkError;
  history_of := fun _ _ _ _ => Err TransientNetworkError;
  client_of := fun _ => Err AuthError;
  detail_of := fun _ _ => Err TransientNetworkError;
  list_of := fun _ _ _ => Err TransientNetworkError;
  embedding_of := fun _ => Err TransientNetworkError;
|}.

(** A history page that adds [m1], deletes [B] and carries a continuation
    token. *)
Definition page_add_delete : HistoryRes :=
  mkHistoryRes
    (Some [mkRecord (Some [mkEntry (Some (mkMessage (Some "m1") (Some "t1")))])
                    (Some [mkEntry (Some (mkMessage (Some "B") None));
                           mkEntry None])])
    (Some "tok") (Some "200").

(** The sample mailbox with that history page; records A and C cannot be
    read any more: A is gone (404), C fails for another reason. *)
Definition mailbox_page : Remote := {|
  profile_of := fun _ => Ok (mkProfile None);
  history_of := fun _ _ _ _ => Ok page_add_delete;
  client_of := fun u => Ok (mkClient u);
  detail_of := fun _ i =>
    if String.eqb i "A" then Err NotFound
    else if String.eqb i "C" then Err RateLimited
    else Ok Sample.detail_ok;
  list_of := fun _ _ _ => Ok (mkListRes (Some [Sample.m1; Sample.m2]) (Some "next"));
  embedding_of := fun _ => Ok Sample.vector1536;
|}.

(** User 1 holds A, B and C and has cursor 100; user 2 holds B. *)
Definition store_two_users : Store :=
  mkStore {[ 1 := "100" ]}
          {[ (1, "A") := Sample.body0; (1, "B") := Sample.body0;
             (1, "C") := Sample.body0; (2, "B") := Sample.body0 ]}.

Definition two_users : World := mkWorld store_two_users mailbox_page [].
Definition two_users_unreachable : World := mkWorld store_two_users unreachable [].
Definition no_cursor : World := mkWorld Sample.empty_store mailbox_page [].

(** A stand-in for the database's ordering. *)
Definition first_n (n : nat) (l : list Email) : list Email := take n l.

End Example.

(** * Properties *)

#[local] Set Warnings "-clear-no-such-hyp".

(** ** Running programs *)

Lemma logged_nil w : logged [] w = w.
Proof. destruct w; unfold logged; simpl. by rewrite app_nil_r. Qed.

Lemma logged_logged cs1 cs2 w : logged cs2 (logged cs1 w) = logged (cs1 ++ cs2) w.
Proof. unfold logged; simpl. by rewrite app_assoc. Qed.

Lemma remote_logged cs w : remote (logged cs w) = remote w.
Proof. done. Qed.

Lemma store_logged cs w : store (logged cs w) = store w.
Proof. done. Qed.

Lemma log_logged cs w : log (logged cs w) = log w ++ cs.
Proof. done. Qed.

Lemma run_bind {A B} (m : Prog A) (f : A -> Prog B) w :
  run (bind m f) w = let '(w', a) := run m w in run (f a) w'.
Proof.
  revert w. induction m as [a | X op k IH]; intros w; simpl; [done |].
  destruct (exec op w) as [w' r]. apply IH.
Qed.

Lemma run_abind {A B} (m : Async A) (f : A -> Async B) w :
  run (abind m f) w =
  match run m w with
  | (w', Ok a) => run (f a) w'
  | (w', Err e) => (w', Err e)
  end.
Proof. unfold abind. rewrite run_bind. by destruct (run m w) as [w' [a | e]]. Qed.

Lemma run_try_catch {A} (m : Async A) (h : Error -> Async A) w :
  run (try_catch m h) w =
  match run m w with
  | (w', Ok a) => (w', Ok a)
  | (w', Err e) => run (h e) w'
  end.
Proof. unfold try_catch. rewrite run_bind. by destruct (run m w) as [w' [a | e]]. Qed.

Lemma run_call {X} (op : Op X) w : run (call op) w = exec op w.
Proof. unfold call; simpl. by destruct (exec op w). Qed.

Lemma run_resolve {A} (a : A) w : run (resolve a) w = (w, Ok a).
Proof. done. Qed.

Lemma when_true m : when true m = m.
Proof. done. Qed.

Lemma when_false m : when false m = resolve tt.
Proof. done. Qed.

Lemma exec_pure {X} (op : Op X) w :
  pure_op op = true ->
  exec op w = (logged [call_of op] w, (outcome op (store w) (remote w)).2).
Proof.
  unfold exec. destruct op; try discriminate; intros _; simpl; try done.
  by destruct mid.
Qed.

Lemma run_when_pure (b : bool) (op : Op unit) w :
  pure_op op = true -> (outcome op (store w) (remote w)).2 = Ok tt ->
  run (when b (call op)) w = (logged (if b then [call_of op] else []) w, Ok tt).
Proof.
  intros Hp Ho. destruct b; unfold when; [| by rewrite run_resolve, logged_nil].
  rewrite run_call, exec_pure by done. by rewrite Ho.
Qed.

(** [Promise.all] over callbacks that only read and never reject. *)
Lemma run_promise_all_map {A B} (f : A -> Async B) (calls : A -> list Call)
    (g : Remote -> A -> B) (l : list A) w :
  (forall x w, run (f x) w = (logged (calls x) w, Ok (g (remote w) x))) ->
  run (promise_all (map f l)) w =
  (logged (flat_map calls l) w, Ok (map (g (remote w)) l)).
Proof.
  intros Hf. revert w. induction l as [| x l IH]; intros w; simpl.
  - by rewrite logged_nil.
  - rewrite run_bind, Hf, run_bind, IH. simpl. by rewrite logged_logged.
Qed.

(** The log only grows, and the remote side is never touched. *)
Lemma exec_log {X} (op : Op X) w : log (exec op w).1 = log w ++ [call_of op].
Proof. unfold exec. by destruct (outcome op (store w) (remote w)). Qed.

Lemma exec_remote {X} (op : Op X) w : remote (exec op w).1 = remote w.
Proof. unfold exec. by destruct (outcome op (store w) (remote w)). Qed.

Lemma run_log_extends {A} (p : Prog A) w : exists cs, log (run p w).1 = log w ++ cs.
Proof.
  revert w. induction p as [a | X op k IH]; intros w; simpl.
  - exists []. by rewrite app_nil_r.
  - pose proof (exec_log op w) as Hl.
    destruct (exec op w) as [w1 r]. simpl in Hl.
    destruct (IH r w1) as [cs Hcs]. exists (call_of op :: cs).
    rewrite Hcs, Hl. by rewrite <- app_assoc.
Qed.

Lemma run_log {A} (p : Prog A) w : log (run p w).1 = log w ++ performed p w.
Proof.
  unfold performed. destruct (run_log_extends p w) as [cs ->].
  by rewrite drop_app_length.
Qed.

Lemma run_remote {A} (p : Prog A) w : remote (run p w).1 = remote w.
Proof.
  revert w. induction p as [a | X op k IH]; intros w; simpl; [done |].
  pose proof (exec_remote op w) as Hr.
  destruct (exec op w) as [w1 r]. simpl in Hr. by rewrite IH.
Qed.

Lemma performed_eq {A} (p : Prog A) w w' a cs :
  run p w = (w', a) -> log w' = log w ++ cs -> performed p w = cs.
Proof.
  intros Hr Hl. unfold performed. rewrite Hr. simpl. by rewrite Hl, drop_app_length.
Qed.

Lemma performed_Ret {A} (a : A) w : performed (Ret a) w = [].
Proof. unfold performed; simpl. by rewrite drop_all. Qed.

(** ** Views of the log *)

Lemma fetches_app cs1 cs2 : fetches (cs1 ++ cs2) = fetches cs1 ++ fetches cs2.
Proof. apply flat_map_app. Qed.

Lemma saves_app cs1 cs2 : saves (cs1 ++ cs2) = saves cs1 ++ saves cs2.
Proof. apply flat_map_app. Qed.

Lemma deletions_app cs1 cs2 : deletions (cs1 ++ cs2) = deletions cs1 ++ deletions cs2.
Proof. apply flat_map_app. Qed.

Lemma listings_app cs1 cs2 : listings (cs1 ++ cs2) = listings cs1 ++ listings cs2.
Proof. apply flat_map_app. Qed.

Lemma generated_app cs1 cs2 : generated (cs1 ++ cs2) = generated cs1 ++ generated cs2.
Proof. apply flat_map_app. Qed.

Lemma emitted_app cs1 cs2 : emitted (cs1 ++ cs2) = emitted cs1 ++ emitted cs2.
Proof. apply flat_map_app. Qed.

Lemma sync_requests_app cs1 cs2 :
  sync_requests (cs1 ++ cs2) = sync_requests cs1 ++ sync_requests cs2.
Proof. unfold sync_requests. by rewrite emitted_app, flat_map_app. Qed.

Lemma cursor_writes_app cs1 cs2 :
  cursor_writes (cs1 ++ cs2) = cursor_writes cs1 ++ cursor_writes cs2.
Proof. apply flat_map_app. Qed.

Create Rewrite HintDb views.
#[local] Hint Rewrite fetches_app saves_app deletions_app listings_app generated_app
  emitted_app sync_requests_app cursor_writes_app : views.

Lemma fetches_get_calls c ms : fetches (get_calls c ms) = map msg_id ms.
Proof. induction ms as [| m ms IH]; simpl; [done |]. by f_equal. Qed.

Lemma saves_get_calls c ms : saves (get_calls c ms) = [].
Proof. by induction ms. Qed.

Lemma deletions_get_calls c ms : deletions (get_calls c ms) = [].
Proof. by induction ms. Qed.

Lemma emitted_get_calls c ms : emitted (get_calls c ms) = [].
Proof. by induction ms. Qed.

Lemma listings_get_calls c ms : listings (get_calls c ms) = [].
Proof. by induction ms. Qed.

Lemma saves_save_calls rs : saves (save_calls rs) = if nonempty rs then [rs] else [].
Proof. unfold save_calls. by destruct (nonempty rs). Qed.

Lemma fetches_save_calls rs : fetches (save_calls rs) = [].
Proof. unfold save_calls. by destruct (nonempty rs). Qed.

Lemma emitted_save_calls rs : emitted (save_calls rs) = [].
Proof. unfold save_calls. by destruct (nonempty rs). Qed.

Lemma listings_save_calls rs : listings (save_calls rs) = [].
Proof. unfold save_calls. by destruct (nonempty rs). Qed.

Lemma deletions_save_calls rs : deletions (save_calls rs) = [].
Proof. unfold save_calls. by destruct (nonempty rs). Qed.

Lemma cursor_writes_save_calls rs : cursor_writes (save_calls rs) = [].
Proof. unfold save_calls. by destruct (nonempty rs). Qed.

Lemma saves_delete_calls ids u : saves (delete_calls ids u) = [].
Proof. unfold delete_calls. by destruct (nonempty ids). Qed.

Lemma emitted_delete_calls ids u : emitted (delete_calls ids u) = [].
Proof. unfold delete_calls. by destruct (nonempty ids). Qed.

Lemma cursor_writes_delete_calls ids u : cursor_writes (delete_calls ids u) = [].
Proof. unfold delete_calls. by destruct (nonempty ids). Qed.

Lemma emitted_cursor_calls u h : emitted (cursor_calls u h) = [].
Proof. unfold cursor_calls. destruct h as [x |]; [by destruct (truthy x) | done]. Qed.

Lemma deletions_delete_calls ids u :
  deletions (delete_calls ids u) = if nonempty ids then [(ids, u)] else [].
Proof. unfold delete_calls. by destruct (nonempty ids). Qed.

Lemma cursor_writes_cursor_calls u h :
  cursor_writes (cursor_calls u h) =
  match h with
  | Some x => if truthy x then [(u, x)] else []
  | None => []
  end.
Proof. unfold cursor_calls. destruct h as [x |]; [by destruct (truthy x) | done]. Qed.

(** ** The conditional store updates *)

Lemma distinct_keys_nonempty rs : distinct_keys rs = false -> nonempty rs = true.
Proof.
  destruct rs; [| done]. unfold distinct_keys. cbn [map].
  rewrite bool_decide_eq_true_2; [done | constructor].
Qed.

(** A save of distinct records is applied; any other one is rejected and
    leaves the store alone. *)
Lemma exec_repo_save rs w :
  distinct_keys rs = true ->
  exec (repo_save rs) w =
  (mkWorld (save_rows rs (store w)) (remote w) (log w ++ [call_of (repo_save rs)]), Ok tt).
Proof. intros Hd. unfold exec. cbn [outcome]. unfold save. by rewrite Hd. Qed.

Lemma exec_repo_save_rejected rs w :
  distinct_keys rs = false ->
  exec (repo_save rs) w = (logged [call_of (repo_save rs)] w, Err duplicate_key).
Proof. intros Hd. unfold exec. cbn [outcome]. unfold save. by rewrite Hd. Qed.

Lemma run_save_step rs w :
  distinct_keys rs = true ->
  run (when (nonempty rs) (call (repo_save rs))) w =
  (mkWorld (save_step rs (store w)) (remote w) (log w ++ save_calls rs), Ok tt).
Proof.
  intros Hd. unfold save_step, save_calls. destruct (nonempty rs).
  - by rewrite when_true, run_call, exec_repo_save.
  - rewrite when_false, run_resolve, app_nil_r. by destruct w.
Qed.

Lemma run_save_step_rejected rs w :
  distinct_keys rs = false ->
  run (when (nonempty rs) (call (repo_save rs))) w =
  (logged (save_calls rs) w, Err duplicate_key).
Proof.
  intros Hd. unfold save_calls. rewrite (distinct_keys_nonempty _ Hd).
  by rewrite when_true, run_call, exec_repo_save_rejected.
Qed.

Lemma run_delete_step ids u w :
  run (when (nonempty ids) (call (repo_delete ids u))) w =
  (mkWorld (delete_step ids u (store w)) (remote w) (log w ++ delete_calls ids u), Ok tt).
Proof.
  unfold delete_step, delete_calls. destruct (nonempty ids).
  - by rewrite when_true, run_call.
  - rewrite when_false, run_resolve, app_nil_r. by destruct w.
Qed.

Lemma run_update_cursor_if_string u h w :
  run (update_cursor_if_string u h) w =
  (mkWorld (cursor_step u h (store w)) (remote w) (log w ++ cursor_calls u h), Ok tt).
Proof.
  unfold update_cursor_if_string, cursor_step, cursor_calls.
  destruct h as [x |]; [destruct (truthy x) |].
  - by rewrite when_true, run_call.
  - rewrite when_false, run_resolve, app_nil_r. by destruct w.
  - rewrite run_resolve, app_nil_r. by destruct w.
Qed.

(** ** Sets, rows and the store *)

Lemma elem_of_set_from {A} `{EqDecision A} (seen l : list A) x :
  x ∈ set_from seen l <-> x ∈ l ∧ x ∉ seen.
Proof.
  revert seen. induction l as [| y l IH]; intros seen; simpl.
  - split; [by intros ?%elem_of_nil | by intros [?%elem_of_nil _]].
  - case_bool_decide as Hy.
    + rewrite IH, elem_of_cons. split; [naive_solver |].
      intros [[-> | ?] ?]; [done | by split].
    + rewrite !elem_of_cons, IH, elem_of_cons.
      destruct (decide (x = y)) as [-> | Hne]; naive_solver.
Qed.

Lemma elem_of_new_Set {A} `{EqDecision A} (l : list A) x : x ∈ new_Set l <-> x ∈ l.
Proof.
  unfold new_Set. rewrite elem_of_set_from. split; [by intros [? _] |].
  intros ?; split; [done | by intros ?%elem_of_nil].
Qed.

Lemma NoDup_set_from {A} `{EqDecision A} (seen l : list A) : NoDup (set_from seen l).
Proof.
  revert seen. induction l as [| y l IH]; intros seen; simpl; [constructor |].
  case_bool_decide; [apply IH |].
  constructor; [| apply IH]. rewrite elem_of_set_from, elem_of_cons. naive_solver.
Qed.

Lemma has_new_Set {A} `{EqDecision A} (l : list A) x :
  has (new_Set l) x = bool_decide (x ∈ l).
Proof. unfold has. apply bool_decide_ext, elem_of_new_Set. Qed.

Lemma elem_of_List_filter {A} (f : A -> bool) (l : list A) x :
  x ∈ List.filter f l <-> x ∈ l ∧ f x = true.
Proof. rewrite !list_elem_of_In. apply filter_In. Qed.

Lemma elem_of_List_map {A B} (f : A -> B) (l : list A) y :
  y ∈ map f l <-> exists x, f x = y ∧ x ∈ l.
Proof.
  rewrite list_elem_of_In, in_map_iff.
  by setoid_rewrite list_elem_of_In.
Qed.

Lemma elem_of_by_decide {A} `{EqDecision A} (x : A) (l : list A) :
  bool_decide (x ∈ l) = true -> x ∈ l.
Proof. apply bool_decide_eq_true. Qed.

Lemma not_elem_of_by_decide {A} `{EqDecision A} (x : A) (l : list A) :
  bool_decide (x ∈ l) = false -> x ∉ l.
Proof. apply bool_decide_eq_false. Qed.

Lemma NoDup_by_decide {A} `{EqDecision A} (l : list A) :
  bool_decide (NoDup l) = true -> NoDup l.
Proof. apply bool_decide_eq_true. Qed.

Lemma NoDup_List_filter {A} (f : A -> bool) (l : list A) :
  NoDup l -> NoDup (List.filter f l).
Proof. rewrite !NoDup_ListNoDup. apply List.NoDup_filter. Qed.

Lemma elem_of_non_null {A} (l : list (option A)) x : x ∈ non_null l <-> Some x ∈ l.
Proof.
  induction l as [| [a |] l IH]; simpl.
  - split; by intros ?%elem_of_nil.
  - rewrite !elem_of_cons, IH. naive_solver.
  - rewrite elem_of_cons, IH. naive_solver.
Qed.

Lemma nonempty_false {A} (l : list A) : nonempty l = false <-> l = [].
Proof. by destruct l. Qed.

Lemma or_else_Some_empty i : or_else (Some i) "" = i.
Proof. by destruct i. Qed.

Lemma row_of_key_body e : row_of (key_of e) (body_of e) = e.
Proof. by destruct e. Qed.

Lemma key_of_row_of k b : key_of (row_of k b) = k.
Proof. by destruct k. Qed.

Lemma body_of_row_of k b : body_of (row_of k b) = b.
Proof. by destruct b. Qed.

Lemma elem_of_rows e s :
  e ∈ rows s <-> emails s !! key_of e = Some (body_of e).
Proof.
  unfold rows. rewrite list_elem_of_In, in_map_iff. split.
  - intros ([k b] & <- & Hin%list_elem_of_In%elem_of_map_to_list). simpl.
    by rewrite key_of_row_of, body_of_row_of.
  - intros H. exists (key_of e, body_of e). split; [apply row_of_key_body |].
    by apply list_elem_of_In, elem_of_map_to_list.
Qed.

(** A record is determined by its key: the store holds one per key. *)
Lemma rows_key_inj e1 e2 s :
  e1 ∈ rows s -> e2 ∈ rows s -> key_of e1 = key_of e2 -> e1 = e2.
Proof.
  intros H1%elem_of_rows H2%elem_of_rows Hk. rewrite Hk, H2 in H1.
  assert (Hb : body_of e2 = body_of e1) by congruence.
  rewrite <- (row_of_key_body e1), <- (row_of_key_body e2). congruence.
Qed.

Lemma elem_of_find_id_in ids s i :
  i ∈ map id (find_id_in ids s) <-> Some i ∈ ids ∧ stored_id s i.
Proof.
  rewrite elem_of_List_map. unfold find_id_in. split.
  - intros (e & <- & [He Hb]%elem_of_List_filter).
    apply bool_decide_eq_true in Hb. split; [done |].
    apply elem_of_rows in He. exists (userId e). unfold key_of in He. by rewrite He.
  - intros [Hi [u [b Hb]]]. exists (row_of (u, i) b). split; [done |].
    apply elem_of_List_filter. split.
    + apply elem_of_rows. by rewrite key_of_row_of, body_of_row_of.
    + by apply bool_decide_eq_true.
Qed.

Lemma elem_of_find_user u s e :
  e ∈ find_user u s <-> userId e = u ∧ emails s !! (u, id e) = Some (body_of e).
Proof.
  unfold find_user. rewrite elem_of_List_filter, elem_of_rows, bool_decide_eq_true.
  unfold key_of. split; [by intros [? <-] | by intros [<- ?]].
Qed.

Lemma save_rows_emails_snoc rs e s :
  emails (save_rows (rs ++ [e]) s) = <[key_of e := body_of e]> (emails (save_rows rs s)).
Proof. unfold save_rows; simpl. by rewrite foldl_app. Qed.

Lemma lookup_save_rows_notin rs s k :
  k ∉ map key_of rs -> emails (save_rows rs s) !! k = emails s !! k.
Proof.
  induction rs as [| e rs IH] using rev_ind; [done |].
  rewrite map_app, elem_of_app. intros Hk. simpl in Hk.
  rewrite save_rows_emails_snoc, lookup_insert_ne.
  - apply IH. tauto.
  - intros Heq. apply Hk. right. rewrite Heq. apply list_elem_of_here.
Qed.

Lemma lookup_save_rows_in rs s k :
  k ∈ map key_of rs ->
  exists e, e ∈ rs ∧ key_of e = k ∧ emails (save_rows rs s) !! k = Some (body_of e).
Proof.
  induction rs as [| e rs IH] using rev_ind; [by intros ?%elem_of_nil |].
  intros Hk. rewrite save_rows_emails_snoc.
  destruct (decide (key_of e = k)) as [<- | Hne].
  - exists e. rewrite elem_of_app, lookup_insert_eq.
    split; [right; apply list_elem_of_here | done].
  - rewrite lookup_insert_ne by done.
    rewrite map_app, elem_of_app in Hk. destruct Hk as [Hk | Hk].
    + destruct (IH Hk) as (e' & ? & ? & ?). exists e'. rewrite elem_of_app. tauto.
    + simpl in Hk. apply list_elem_of_singleton in Hk. congruence.
Qed.

Lemma save_step_emails rs s : emails (save_step rs s) = emails (save_rows rs s).
Proof. unfold save_step. by destruct rs. Qed.

Lemma save_step_cursors rs s : cursors (save_step rs s) = cursors s.
Proof. unfold save_step. by destruct (nonempty rs). Qed.

Lemma delete_step_cursors ids u s : cursors (delete_step ids u s) = cursors s.
Proof. unfold delete_step. by destruct (nonempty ids). Qed.

Lemma lookup_delete_rows ids u s k :
  emails (delete_rows ids u s) !! k =
  if decide (k.1 = u ∧ k.2 ∈ ids) then None else emails s !! k.
Proof.
  unfold delete_rows; cbn [emails]. destruct (decide _) as [Hd | Hd].
  - apply map_lookup_filter_None. right. intros x _ Hn. by apply Hn.
  - destruct (emails s !! k) as [b |] eqn:E.
    + by apply map_lookup_filter_Some.
    + apply map_lookup_filter_None. by left.
Qed.

Lemma lookup_delete_step ids u s k :
  emails (delete_step ids u s) !! k =
  if decide (k.1 = u ∧ k.2 ∈ ids) then None else emails s !! k.
Proof.
  unfold delete_step. destruct ids as [| i ids]; cbn [nonempty].
  - rewrite decide_False; [done |]. by intros [_ ?%elem_of_nil].
  - apply lookup_delete_rows.
Qed.

Lemma cursor_step_lookup u h s :
  truthy h = true -> cursors (cursor_step u (Some h) s) !! u = Some h.
Proof. intros Ht. unfold cursor_step. rewrite Ht. apply lookup_insert_eq. Qed.

(** ** The batch detail fetcher *)

Lemma run_fetch_message u c m w :
  run (fetch_message u c m) w =
  (logged [call_of (messages_get c (msg_id m))] w, Ok (fetched (remote w) u c m)).
Proof.
  unfold fetch_message. rewrite run_try_catch, run_abind, run_call.
  rewrite exec_pure by done. unfold fetched.
  destruct (msg_id m) as [i |]; simpl; [| done].
  by destruct (detail_of (remote w) c i).
Qed.

Lemma run_fetch_all u c ms w :
  run (promise_all (map (fetch_message u c) ms)) w =
  (logged (get_calls c ms) w, Ok (map (fetched (remote w) u c) ms)).
Proof.
  apply (run_promise_all_map _ (fun m => [call_of (messages_get c (msg_id m))])
           (fun r => fetched r u c)).
  intros; apply run_fetch_message.
Qed.

(** The whole effect of one call whose save, if any, is accepted. *)
Lemma run_processAndSaveBatch u ms c w :
  let valid := validEmails (remote w) u c (messagesToFetch (store w) ms) in
  distinct_keys valid = true ->
  run (processAndSaveBatch u ms c) w =
  (mkWorld (save_step valid (store w)) (remote w)
           (log w ++ batch_calls (store w) (remote w) u c ms),
   Ok (map id valid)).
Proof.
  cbv zeta. intros Hd. unfold processAndSaveBatch, batch_calls.
  destruct (nonempty ms) eqn:Hms; cbn [negb].
  2:{ apply nonempty_false in Hms. subst ms. rewrite run_resolve, app_nil_r.
      cbn. by destruct w as [[] ? ?]. }
  rewrite run_abind, run_call, exec_pure by done. cbn [outcome snd]. cbv zeta.
  fold (messagesToFetch (store w) ms).
  set (tf := messagesToFetch (store w) ms) in *.
  destruct (nonempty tf) eqn:Htf; cbn [negb].
  2:{ apply nonempty_false in Htf. rewrite Htf, run_resolve.
      cbn. by destruct w as [[] ? ?]. }
  rewrite run_abind, run_fetch_all, logged_logged, remote_logged.
  fold (validEmails (remote w) u c tf).
  set (valid := validEmails (remote w) u c tf) in *.
  unfold save_step, save_calls.
  destruct (nonempty valid) eqn:Hv.
  - rewrite run_abind, run_call, exec_repo_save by done.
    unfold logged. cbn [store remote log].
    rewrite run_resolve. by rewrite <- !app_assoc.
  - rewrite run_resolve. apply nonempty_false in Hv. rewrite Hv.
    unfold logged. cbn. rewrite app_nil_r. by destruct w as [[] ? ?].
Qed.

(** The whole effect of one call whose save is rejected: the same
    operations, no change of the store, and the call rejects. *)
Lemma run_processAndSaveBatch_rejected u ms c w :
  let valid := validEmails (remote w) u c (messagesToFetch (store w) ms) in
  distinct_keys valid = false ->
  run (processAndSaveBatch u ms c) w =
  (logged (batch_calls (store w) (remote w) u c ms) w, Err duplicate_key).
Proof.
  cbv zeta. intros Hd. unfold processAndSaveBatch, batch_calls.
  pose proof (distinct_keys_nonempty _ Hd) as Hv.
  assert (Htf : nonempty (messagesToFetch (store w) ms) = true).
  { destruct (messagesToFetch (store w) ms); [done | done]. }
  assert (Hms : nonempty ms = true).
  { destruct ms; [done | done]. }
  rewrite Hms. cbn [negb].
  rewrite run_abind, run_call, exec_pure by done. cbn [outcome snd]. cbv zeta.
  fold (messagesToFetch (store w) ms). rewrite Htf. cbn [negb].
  rewrite run_abind, run_fetch_all, logged_logged, remote_logged.
  fold (validEmails (remote w) u c (messagesToFetch (store w) ms)).
  rewrite Hv, run_abind, run_call, exec_repo_save_rejected by done.
  unfold save_calls. rewrite Hv, logged_logged. unfold logged. cbn [store remote log].
  by rewrite <- !app_assoc.
Qed.

(** The operations are the same whether or not the save is accepted. *)
Lemma performed_processAndSaveBatch u ms c w :
  performed (processAndSaveBatch u ms c) w = batch_calls (store w) (remote w) u c ms.
Proof.
  destruct (distinct_keys (validEmails (remote w) u c (messagesToFetch (store w) ms)))
    eqn:Hd.
  - eapply performed_eq; [by apply run_processAndSaveBatch | done].
  - eapply performed_eq; [by apply run_processAndSaveBatch_rejected | done].
Qed.

Lemma fetches_batch_calls s r u c ms :
  fetches (batch_calls s r u c ms) = map msg_id (messagesToFetch s ms).
Proof.
  unfold batch_calls. destruct (nonempty ms) eqn:Hms.
  - change (?x :: ?l) with ([x] ++ l). autorewrite with views.
    rewrite fetches_get_calls, fetches_save_calls.
    change (fetches [_]) with (@nil (option string)). by rewrite app_nil_r.
  - apply nonempty_false in Hms. by subst ms.
Qed.

Lemma saves_batch_calls s r u c ms :
  saves (batch_calls s r u c ms) =
  if nonempty (validEmails r u c (messagesToFetch s ms))
  then [validEmails r u c (messagesToFetch s ms)] else [].
Proof.
  unfold batch_calls. destruct (nonempty ms) eqn:Hms.
  - change (?x :: ?l) with ([x] ++ l). autorewrite with views.
    by rewrite saves_get_calls, saves_save_calls.
  - apply nonempty_false in Hms. by subst ms.
Qed.

Lemma emitted_batch_calls s r u c ms : emitted (batch_calls s r u c ms) = [].
Proof.
  unfold batch_calls. destruct (nonempty ms); [| done].
  change (?x :: ?l) with ([x] ++ l). autorewrite with views.
  by rewrite emitted_get_calls, emitted_save_calls.
Qed.

Lemma sync_requests_batch_calls s r u c ms :
  sync_requests (batch_calls s r u c ms) = [].
Proof. unfold sync_requests. by rewrite emitted_batch_calls. Qed.

Lemma listings_batch_calls s r u c ms : listings (batch_calls s r u c ms) = [].
Proof.
  unfold batch_calls. destruct (nonempty ms); [| done].
  change (?x :: ?l) with ([x] ++ l). autorewrite with views.
  by rewrite listings_get_calls, listings_save_calls.
Qed.

(** Which candidates are fetched, and what the fetched records look like. *)
Lemma elem_of_messagesToFetch s ms m i :
  msg_id m = Some i ->
  m ∈ messagesToFetch s ms <-> m ∈ ms ∧ ¬ stored_id s i.
Proof.
  intros Hi. unfold messagesToFetch.
  rewrite elem_of_List_filter, has_new_Set, negb_true_iff, bool_decide_eq_false.
  rewrite Hi, or_else_Some_empty, elem_of_find_id_in.
  split; intros [Hm Hn]; (split; [done |]).
  - intros Hs. apply Hn. split; [| done].
    apply elem_of_List_map. by exists m.
  - tauto.
Qed.

Lemma elem_of_validEmails r u c ms e :
  e ∈ validEmails r u c ms <-> exists m, m ∈ ms ∧ fetched r u c m = Some e.
Proof.
  unfold validEmails. rewrite elem_of_non_null, elem_of_List_map. naive_solver.
Qed.

Lemma fetched_Some r u c m e :
  fetched r u c m = Some e ->
  exists i d, msg_id m = Some i ∧ detail_of r c i = Ok d ∧
              id e = i ∧ userId e = u ∧ embedding e = None.
Proof.
  unfold fetched. destruct (msg_id m) as [i |]; [| done].
  destruct (detail_of r c i) as [d | err] eqn:Hd; [| done].
  intros [= <-]. by exists i, d.
Qed.

Lemma fetched_is_Some r u c m i d :
  msg_id m = Some i -> detail_of r c i = Ok d ->
  exists e, fetched r u c m = Some e ∧ key_of e = (u, i).
Proof. intros Hi Hd. unfold fetched. rewrite Hi, Hd. by eexists. Qed.

Lemma valid_key r u c ms e : e ∈ validEmails r u c ms -> key_of e = (u, id e).
Proof.
  intros (m & _ & Hf)%elem_of_validEmails.
  apply fetched_Some in Hf as (i & d & _ & _ & _ & Hu & _). unfold key_of. by rewrite Hu.
Qed.

Lemma key_in_valid r u c ms k :
  k ∈ map key_of (validEmails r u c ms) <->
  k.1 = u ∧ k.2 ∈ map id (validEmails r u c ms).
Proof.
  rewrite !elem_of_List_map. split.
  - intros (e & <- & He). pose proof (valid_key _ _ _ _ _ He) as Hk.
    rewrite Hk. simpl. split; [done |]. by exists e.
  - intros [Hu (e & Hi & He)]. exists e. split; [| done].
    rewrite (valid_key _ _ _ _ _ He). destruct k; simpl in *; congruence.
Qed.

Lemma valid_not_stored r u c s ms e :
  e ∈ validEmails r u c (messagesToFetch s ms) -> ¬ stored_id s (id e).
Proof.
  intros (m & Hm & Hf)%elem_of_validEmails.
  apply fetched_Some in Hf as (i & d & Hi & _ & <- & _ & _).
  by apply (elem_of_messagesToFetch s ms m _ Hi) in Hm as [_ ?].
Qed.

Lemma stored_id_save_rows r u c s ms i :
  stored_id (save_rows (validEmails r u c ms) s) i <->
  stored_id s i ∨ i ∈ map id (validEmails r u c ms).
Proof.
  split.
  - intros [u' Hs].
    destruct (decide ((u', i) ∈ map key_of (validEmails r u c ms))) as [Hin | Hnin].
    + apply key_in_valid in Hin as [_ Hin]. by right.
    + rewrite lookup_save_rows_notin in Hs by done. left. by exists u'.
  - intros [[u' Hs] | Hin].
    + exists u'.
      destruct (decide ((u', i) ∈ map key_of (validEmails r u c ms))) as [Hin | Hnin].
      * by destruct (lookup_save_rows_in _ s _ Hin) as (e' & _ & _ & ->).
      * by rewrite lookup_save_rows_notin.
    + exists u.
      destruct (lookup_save_rows_in (validEmails r u c ms) s (u, i))
        as (e' & _ & _ & ->); [| done].
      by apply key_in_valid.
Qed.

(** Records fetched for one user: distinct ids are distinct keys. *)
Lemma NoDup_map_pair {A B} (a : A) (l : list B) :
  NoDup (map (fun b => (a, b)) l) <-> NoDup l.
Proof.
  induction l as [| b l IH]; cbn [map]; [split; constructor |].
  rewrite !NoDup_cons, IH, elem_of_List_map. split.
  - intros [Hn Hl]. split; [| done]. intros Hb. apply Hn. by exists b.
  - intros [Hn Hl]. split; [| done]. by intros (b' & [= ->] & Hb).
Qed.

Lemma map_key_of_valid r u c ms :
  map key_of (validEmails r u c ms) = map (fun i => (u, i)) (map id (validEmails r u c ms)).
Proof.
  rewrite map_map. apply map_ext_in. intros e He%list_elem_of_In.
  by apply (valid_key r u c ms).
Qed.

Lemma distinct_keys_valid r u c ms :
  distinct_keys (validEmails r u c ms) = bool_decide (NoDup (map id (validEmails r u c ms))).
Proof.
  unfold distinct_keys. apply bool_decide_ext.
  rewrite map_key_of_valid. apply NoDup_map_pair.
Qed.

Lemma distinct_batch s r u c ms :
  NoDup (batch_ids s r u c ms) ->
  distinct_keys (validEmails r u c (messagesToFetch s ms)) = true.
Proof. intros Hn. rewrite distinct_keys_valid. by apply bool_decide_eq_true_2. Qed.

(** The store and the outcome of a call, whether or not its save is
    accepted. *)
Lemma store_processAndSaveBatch u ms c w :
  let valid := validEmails (remote w) u c (messagesToFetch (store w) ms) in
  store (run (processAndSaveBatch u ms c) w).1 =
  if distinct_keys valid then save_step valid (store w) else store w.
Proof.
  cbv zeta.
  destruct (distinct_keys (validEmails (remote w) u c (messagesToFetch (store w) ms)))
    eqn:Hd.
  - by rewrite run_processAndSaveBatch.
  - by rewrite run_processAndSaveBatch_rejected.
Qed.

Lemma result_processAndSaveBatch u ms c w :
  let valid := validEmails (remote w) u c (messagesToFetch (store w) ms) in
  (run (processAndSaveBatch u ms c) w).2 =
  if distinct_keys valid then Ok (map id valid) else Err duplicate_key.
Proof.
  cbv zeta.
  destruct (distinct_keys (validEmails (remote w) u c (messagesToFetch (store w) ms)))
    eqn:Hd.
  - by rewrite run_processAndSaveBatch.
  - by rewrite run_processAndSaveBatch_rejected.
Qed.

(** The ids handed to the save are those of the candidates that are in the
    store for no user and can be read. *)
Lemma elem_of_batch_ids s r u c ms i :
  i ∈ batch_ids s r u c ms <->
  exists m d, m ∈ ms ∧ msg_id m = Some i ∧ ¬ stored_id s i ∧ detail_of r c i = Ok d.
Proof.
  unfold batch_ids. rewrite elem_of_List_map. split.
  - intros (e & Hid & (m & Hm & Hf)%elem_of_validEmails).
    apply fetched_Some in Hf as (j & d & Hj & Hd & Hej & _).
    assert (j = i) as -> by congruence.
    apply (elem_of_messagesToFetch _ _ _ _ Hj) in Hm as [Hm Hn]. by exists m, d.
  - intros (m & d & Hm & Hi & Hn & Hd).
    destruct (fetched_is_Some r u c m i d Hi Hd) as (e & He & Hk).
    exists e. split; [unfold key_of in Hk; congruence |].
    apply elem_of_validEmails. exists m. split; [| done].
    by apply (elem_of_messagesToFetch _ _ _ _ Hi).
Qed.


(** C5.  Calling the batch detail fetcher a second time never stores again
    what is present.  After a first call, a second call (with any candidate
    list, and whatever the remote side answers by then) fetches no id that
    is in the store, hands no record with such an id to the save and returns
    no such id, in particular none of the ids the first call returned;
    records that are present stay as they are; if no two records shared an
    id before, none do after; and the same call again stores nothing, and
    returns nothing when the first call resolved. *)
Theorem processAndSaveBatch_idempotent u ms1 ms2 c w rem :
  let p1 := processAndSaveBatch u ms1 c in
  let w1 := (run p1 w).1 in
  let p2 := processAndSaveBatch u ms2 c in
  let w2 := (run p2 (with_remote rem w1)).1 in
  (forall ids1 i, (run p1 w).2 = Ok ids1 -> i ∈ ids1 -> stored_id (store w1) i) ∧
  (forall i, stored_id (store w1) i ->
     (Some i ∉ fetches (performed p2 (with_remote rem w1))) ∧
     (forall rs e, rs ∈ saves (performed p2 (with_remote rem w1)) ->
                   e ∈ rs -> id e ≠ i) ∧
     (forall ids2, (run p2 (with_remote rem w1)).2 = Ok ids2 -> i ∉ ids2)) ∧
  (forall k, is_Some (emails (store w1) !! k) ->
     emails (store w2) !! k = emails (store w1) !! k) ∧
  (unique_ids (store w1) -> unique_ids (store w2)) ∧
  (ms2 = ms1 -> rem = remote w ->
     emails (store w2) = emails (store w1) ∧
     (forall ids1, (run p1 w).2 = Ok ids1 -> (run p2 (with_remote rem w1)).2 = Ok [])).
Proof.
  cbv zeta.
  rewrite performed_processAndSaveBatch, fetches_batch_calls, saves_batch_calls.
  rewrite (result_processAndSaveBatch u ms1 c w).
  rewrite (result_processAndSaveBatch u ms2 c).
  rewrite (store_processAndSaveBatch u ms2 c).
  change (store (with_remote rem ?x)) with (store x).
  change (remote (with_remote rem ?x)) with rem.
  pose proof (store_processAndSaveBatch u ms1 c w) as Hs1. cbv zeta in Hs1.
  set (valid1 := validEmails (remote w) u c (messagesToFetch (store w) ms1)) in *.
  set (w1 := (run (processAndSaveBatch u ms1 c) w).1) in *.
  set (tf2 := messagesToFetch (store w1) ms2).
  set (valid2 := validEmails rem u c tf2).
  assert (Hfresh : forall e, e ∈ valid2 -> ¬ stored_id (store w1) (id e)).
  { intros e. apply valid_not_stored. }
  assert (Hkeep : forall k, is_Some (emails (store w1) !! k) ->
            emails (if distinct_keys valid2 then save_step valid2 (store w1)
                    else store w1) !! k = emails (store w1) !! k).
  { intros [u' i] Hk. destruct (distinct_keys valid2); [| done].
    rewrite save_step_emails. apply lookup_save_rows_notin.
    intros [_ (e & Hid & He)%elem_of_List_map]%key_in_valid. simpl in Hid.
    apply (Hfresh e He). rewrite Hid. by exists u'. }
  split; [| split; [| split; [| split]]].
  - intros ids1 i Hr Hi. rewrite Hs1.
    destruct (distinct_keys valid1); [| done]. injection Hr as <-.
    unfold stored_id. setoid_rewrite save_step_emails.
    apply stored_id_save_rows. by right.
  - intros i Hsi. split; [| split].
    + intros (m & Hi & Hm)%elem_of_List_map.
      by apply (elem_of_messagesToFetch _ _ _ _ Hi) in Hm as [_ ?].
    + intros rs e Hrs He <-.
      destruct (nonempty valid2); [| by apply elem_of_nil in Hrs].
      apply list_elem_of_singleton in Hrs as ->. by apply (Hfresh e).
    + intros ids2 Hr. destruct (distinct_keys valid2); [| done]. injection Hr as <-.
      intros (e & <- & He)%elem_of_List_map. by apply (Hfresh e).
  - exact Hkeep.
  - intros Huniq u1 u2 i H1 H2.
    destruct (distinct_keys valid2); [| by apply (Huniq u1 u2 i)].
    rewrite save_step_emails in H1, H2.
    destruct (decide (i ∈ map id valid2)) as [Hin | Hnin].
    + assert (Hns : ¬ stored_id (store w1) i).
      { apply elem_of_List_map in Hin as (e & <- & He). by apply Hfresh. }
      assert (Hu : forall u',
                is_Some (emails (save_rows valid2 (store w1)) !! (u', i)) -> u' = u).
      { intros u' Hs.
        destruct (decide ((u', i) ∈ map key_of valid2)) as [Hk | Hk].
        - by apply key_in_valid in Hk as [? _].
        - rewrite lookup_save_rows_notin in Hs by done.
          exfalso. apply Hns. by exists u'. }
      by rewrite (Hu u1 H1), (Hu u2 H2).
    + rewrite lookup_save_rows_notin in H1, H2
        by (intros [_ ?]%key_in_valid; done).
      by apply (Huniq u1 u2 i).
  - intros -> ->. subst valid2 tf2.
    destruct (distinct_keys valid1) eqn:Hd1.
    + assert (Hst1 : forall i,
                stored_id (store w1) i <-> stored_id (store w) i ∨ i ∈ map id valid1).
      { intros i. rewrite Hs1. unfold stored_id. setoid_rewrite save_step_emails.
        apply stored_id_save_rows. }
      assert (Hnil : validEmails (remote w) u c (messagesToFetch (store w1) ms1) = []).
      { apply elem_of_nil_inv. intros e He.
        pose proof (Hfresh e He) as Hns.
        apply elem_of_validEmails in He as (m & Hm & Hfe).
        pose proof Hfe as Hfe'.
        apply fetched_Some in Hfe' as (i & d & Hi & _ & Hid & _).
        apply Hns, Hst1. right. apply elem_of_List_map. exists e. split; [done |].
        apply elem_of_validEmails. exists m. split; [| done].
        apply (elem_of_messagesToFetch _ _ _ _ Hi).
        apply (elem_of_messagesToFetch _ _ _ _ Hi) in Hm as [Hm Hn]. split; [done |].
        intros Hs. apply Hn, Hst1. by left. }
      rewrite Hnil. by split.
    + rewrite Hs1. fold valid1. rewrite Hd1. by split.
Qed.

Lemma empty_store_fresh i : ¬ stored_id Sample.empty_store i.
Proof. intros [u [b Hb]]. cbn in Hb. by rewrite lookup_empty in Hb. Qed.


(** The same call twice on an empty store: the first call returns [m1],
    the second call returns nothing. *)
Lemma processAndSaveBatch_idempotent_witness :
  (run (processAndSaveBatch 1 [Sample.m1; Sample.m2] (mkClient 1)) Sample.fresh).2
    = Ok ["m1"%string] ∧
  (run (processAndSaveBatch 1 [Sample.m1; Sample.m2] (mkClient 1))
     (with_remote Sample.mailbox
        (run (processAndSaveBatch 1 [Sample.m1; Sample.m2] (mkClient 1))
           Sample.fresh).1)).2 = Ok [].
Proof.
  assert (H1 : (run (processAndSaveBatch 1 [Sample.m1; Sample.m2] (mkClient 1))
                  Sample.fresh).2 = Ok ["m1"%string]) by (by vm_compute).
  split; [exact H1 |].
  destruct (processAndSaveBatch_idempotent
              1 [Sample.m1; Sample.m2] [Sample.m1; Sample.m2] (mkClient 1)
              Sample.fresh Sample.mailbox)
    as (_ & _ & _ & _ & Hsame).
  exact (proj2 (Hsame eq_refl eq_refl) _ H1).
Defined.

(** C6.  The pre-existence check is not scoped to the user: with message
    [m1] stored for user 2 only, a call for user 1 with candidate [m1]
    fetches nothing, returns nothing and stores nothing for user 1, although
    [m1] can be read from the remote mailbox. *)
Theorem processAndSaveBatch_skips_id_of_other_user :
  let w := Sample.other_user in
  let p := processAndSaveBatch 1 [Sample.m1] (mkClient 1) in
  emails (store w) !! (1, "m1"%string) = None ∧
  is_Some (emails (store w) !! (2, "m1"%string)) ∧
  detail_of (remote w) (mkClient 1) "m1" = Ok Sample.detail_ok ∧
  (run p w).2 = Ok [] ∧
  fetches (performed p w) = [] ∧
  saves (performed p w) = [] ∧
  emails (store (run p w).1) !! (1, "m1"%string) = None.
Proof.
  cbv zeta. split; [by vm_compute |]. split; [by eexists; vm_compute |].
  split; [done |]. split; [by vm_compute |]. split; [by vm_compute |].
  split; by vm_compute.
Qed.

(** ** The listener: pagination over [messages.list] *)

(** The page counter is a double.  A counter above the bound is neither 0
    nor 1, so it selects the last part of the handler. *)
Lemma above_bound_not_0_1 (n : float) :
  (MAX_PAGES <? n)%float = true -> (n =? 0)%float = false ∧ (n =? 1)%float = false.
Proof.
  unfold MAX_PAGES.
  rewrite (ltb_spec 10 n), (FloatAxioms.eqb_spec n 0), (FloatAxioms.eqb_spec n 1).
  change (Prim2SF 10) with (S754_finite false 5629499534213120 (-49)).
  change (Prim2SF 1) with (S754_finite false 4503599627370496 (-52)).
  change (Prim2SF 0) with (S754_zero false).
  destruct (Prim2SF n) as [s | s | | s m e].
  - destruct s; discriminate.
  - destruct s; [discriminate | done].
  - discriminate.
  - destruct s; [discriminate |].
    unfold SFltb, SFeqb, SFcompare. intros H. split; [done |].
    destruct (Z.compare_spec e (-52)) as [-> | ? | ?]; done.
Qed.

Lemma run_handle_list_page payload w :
  (ev_pageCount payload =? 0)%float = false ->
  (ev_pageCount payload =? 1)%float = false ->
  (MAX_PAGES <? ev_pageCount payload)%float = false ->
  truthy_opt (ev_pageToken payload) = true ->
  run (handleSyncOldEmails payload) w =
  run (try_catch (list_page_sync (ev_userId payload) (ev_pageToken payload)
                    (ev_pageCount payload)) log_error) w.
Proof.
  intros H0 H1 Hle Htok. unfold handleSyncOldEmails. by rewrite H0, H1, Hle, Htok.
Qed.

Lemma run_list_page_sync u tok n w c lr :
  client_of (remote w) u = Ok c ->
  list_of (remote w) c 100 tok = Ok lr ->
  let ms := default [] (l_messages lr) in
  let valid := validEmails (remote w) u c (messagesToFetch (store w) ms) in
  distinct_keys valid = true ->
  run (list_page_sync u tok n) w =
  (mkWorld (save_step valid (store w)) (remote w)
     (log w ++ [call_of (getAuthenticatedGmailClient u); call_of (messages_list c 100 tok)]
            ++ batch_calls (store w) (remote w) u c ms
            ++ list_page_tail u (map id valid) (l_nextPageToken lr) n),
   Ok tt).
Proof.
  intros Hc Hl. cbv zeta. intros Hd. unfold list_page_sync.
  rewrite run_abind, run_call, exec_pure by done. cbn [outcome snd]. rewrite Hc.
  rewrite run_abind, run_call, exec_pure by done. cbn [outcome snd].
  rewrite remote_logged, Hl, logged_logged. cbn [app]. cbv zeta.
  rewrite run_abind, run_processAndSaveBatch by done.
  rewrite store_logged, remote_logged, log_logged.
  rewrite run_abind, run_when_pure by done.
  rewrite run_abind, run_when_pure by done.
  rewrite run_abind, run_call, exec_pure by done. cbn [outcome snd].
  rewrite run_when_pure by done.
  rewrite !logged_logged. unfold logged, list_page_tail. cbn [store remote log].
  by rewrite <- !app_assoc.
Qed.

(** When the save of the page is rejected, the page ends there: nothing is
    stored, notified or emitted. *)
Lemma run_list_page_sync_rejected u tok n w c lr :
  client_of (remote w) u = Ok c ->
  list_of (remote w) c 100 tok = Ok lr ->
  let ms := default [] (l_messages lr) in
  let valid := validEmails (remote w) u c (messagesToFetch (store w) ms) in
  distinct_keys valid = false ->
  run (list_page_sync u tok n) w =
  (logged ([call_of (getAuthenticatedGmailClient u); call_of (messages_list c 100 tok)]
             ++ batch_calls (store w) (remote w) u c ms) w,
   Err duplicate_key).
Proof.
  intros Hc Hl. cbv zeta. intros Hd. unfold list_page_sync.
  rewrite run_abind, run_call, exec_pure by done. cbn [outcome snd]. rewrite Hc.
  rewrite run_abind, run_call, exec_pure by done. cbn [outcome snd].
  rewrite remote_logged, Hl, logged_logged. cbn [app]. cbv zeta.
  rewrite run_abind, run_processAndSaveBatch_rejected by done.
  by rewrite store_logged, remote_logged, logged_logged.
Qed.

(** C8 as the code has it.  A request whose page counter exceeds
    [MAX_PAGES] (10) does nothing at all: no operation is performed, hence
    no remote listing, no store update and no event.  A request whose
    counter is neither 0 nor 1 (these select the history branches) and does
    not exceed the bound, that carries a page token, whose client request
    and listing succeed and whose page names no new readable id twice,
    performs exactly one listing, for the token of the request, and emits a
    follow-up ['email.sync'] event exactly when the listing carries a
    continuation token: one event, with that token and the counter plus one
    (the addition of doubles). *)
Theorem list_page_sync_bound payload w :
  let p := handleSyncOldEmails payload in
  ((MAX_PAGES <? ev_pageCount payload)%float = true ->
     run p w = (w, Ok tt) ∧ performed p w = []) ∧
  (forall c lr,
     (ev_pageCount payload =? 0)%float = false ->
     (ev_pageCount payload =? 1)%float = false ->
     (MAX_PAGES <? ev_pageCount payload)%float = false ->
     truthy_opt (ev_pageToken payload) = true ->
     client_of (remote w) (ev_userId payload) = Ok c ->
     list_of (remote w) c 100 (ev_pageToken payload) = Ok lr ->
     NoDup (batch_ids (store w) (remote w) (ev_userId payload) c
              (default [] (l_messages lr))) ->
     (run p w).2 = Ok tt ∧
     listings (performed p w) = [ev_pageToken payload] ∧
     sync_requests (performed p w) =
       if truthy_opt (l_nextPageToken lr)
       then [EmailSyncEvent3 (ev_userId payload) (l_nextPageToken lr)
               (ev_pageCount payload + 1)%float]
       else []).
Proof.
  cbv zeta. split.
  - intros Hn. destruct (above_bound_not_0_1 _ Hn) as [H0 H1].
    unfold handleSyncOldEmails. rewrite H0, H1, Hn, orb_true_r. cbn [andb].
    split; [done |]. apply performed_Ret.
  - intros c lr H0 H1 Hle Htok Hc Hl Hd%distinct_batch.
    destruct payload as [u tok n del];
      cbn [ev_userId ev_pageToken ev_pageCount ev_deletedEmailIds] in *.
    pose proof (run_list_page_sync u tok n w c lr Hc Hl Hd) as Hrun. cbv zeta in Hrun.
    set (ms := default [] (l_messages lr)) in *.
    set (valid := validEmails (remote w) u c (messagesToFetch (store w) ms)) in *.
    assert (Hrun' : run (handleSyncOldEmails (mkSyncEvent u tok n del)) w =
              run (list_page_sync u tok n) w).
    { rewrite run_handle_list_page by done.
      cbn [ev_userId ev_pageToken ev_pageCount]. by rewrite run_try_catch, Hrun. }
    rewrite (performed_eq _ _ _ _ _ (eq_trans Hrun' Hrun) eq_refl), Hrun', Hrun.
    split; [done |].
    autorewrite with views.
    rewrite listings_batch_calls, sync_requests_batch_calls.
    unfold list_page_tail.
    by destruct (nonempty (map id valid)), (truthy_opt (l_nextPageToken lr)).
Qed.

(** Counter 11 does nothing; counter 10 with a token emits the request for
    counter 11. *)
Lemma list_page_sync_bound_witness :
  run (handleSyncOldEmails (EmailSyncEvent3 1 (Some "p") 11)) Sample.fresh
    = (Sample.fresh, Ok tt) ∧
  sync_requests
    (performed (handleSyncOldEmails (EmailSyncEvent3 1 (Some "p") 10)) Sample.fresh)
    = [EmailSyncEvent3 1 (Some "next") 11].
Proof.
  split.
  - exact (proj1 (proj1 (list_page_sync_bound (EmailSyncEvent3 1 (Some "p") 11)
                           Sample.fresh) eq_refl)).
  - exact (proj2 (proj2 (proj2 (list_page_sync_bound
             (EmailSyncEvent3 1 (Some "p") 10) Sample.fresh)
             (mkClient 1) (mkListRes (Some [Sample.m1; Sample.m2]) (Some "next"))
             eq_refl eq_refl eq_refl eq_refl eq_refl eq_refl
             ltac:(apply NoDup_by_decide; by vm_compute)))).
Defined.

(** C8 fails on the code at counter 1, the counter [syncFirstBatch] gives to
    its follow-up request: the request for the continuation token of the
    first listing is within the bound and its listing would succeed and
    carry a continuation token, but the handler takes it for a history
    page, calls no listing, and the request that follows has counter 1
    again, not 2. *)
Lemma follow_up_incremented_counterexample :
  ¬ follow_up_incremented (EmailSyncEvent3 1 (Some "next") 1) Sample.fresh.
Proof.
  intros H.
  specialize (H (mkClient 1) (mkListRes (Some [Sample.m1; Sample.m2]) (Some "next"))
                eq_refl eq_refl eq_refl eq_refl eq_refl).
  vm_compute in H. discriminate H.
Qed.

(** ** The history path *)

Lemma run_fetch_history_message u c i w :
  run (fetch_history_message u c i) w =
  (logged [call_of (messages_get c (Some i))] w, Ok (fetched_history (remote w) u c i)).
Proof.
  unfold fetch_history_message. rewrite run_try_catch, run_abind, run_call.
  rewrite exec_pure by done. unfold fetched_history. cbn [outcome snd].
  by destruct (detail_of (remote w) c i).
Qed.

Lemma run_fetch_history_all u c ids w :
  run (promise_all (map (fetch_history_message u c) ids)) w =
  (logged (get_id_calls c ids) w, Ok (map (fetched_history (remote w) u c) ids)).
Proof.
  apply (run_promise_all_map _ (fun i => [call_of (messages_get c (Some i))])
           (fun r => fetched_history r u c)).
  intros; apply run_fetch_history_message.
Qed.

Lemma fetched_history_Some r u c i e :
  fetched_history r u c i = Some e ->
  id e = i ∧ userId e = u ∧ embedding e = None ∧ exists d, detail_of r c i = Ok d.
Proof.
  unfold fetched_history. destruct (detail_of r c i) as [d | err]; [| done].
  intros [= <-]. by eauto.
Qed.

Lemma elem_of_history_rows s r u c ids e :
  e ∈ history_rows s r u c ids <->
  id e ∈ ids ∧ fetched_history r u c (id e) = Some e ∧ ¬ stored_id s (id e).
Proof.
  unfold history_rows. cbv zeta.
  rewrite elem_of_List_filter, elem_of_non_null, elem_of_List_map, has_new_Set,
    negb_true_iff, bool_decide_eq_false, elem_of_find_id_in.
  split.
  - intros [(i & Hf & Hi) Hn].
    destruct (fetched_history_Some _ _ _ _ _ Hf) as (<- & _).
    split; [done |]. split; [done |].
    intros Hs. apply Hn. split; [| done].
    apply elem_of_List_map. exists e. split; [done |].
    apply elem_of_non_null, elem_of_List_map. by exists (id e).
  - intros (Hi & Hf & Hn). split; [by exists (id e) | tauto].
Qed.

Lemma history_rows_key s r u c ids e :
  e ∈ history_rows s r u c ids -> key_of e = (u, id e).
Proof.
  intros (_ & Hf & _)%elem_of_history_rows.
  destruct (fetched_history_Some _ _ _ _ _ Hf) as (_ & Hu & _).
  unfold key_of. by rewrite Hu.
Qed.

(** Records fetched for one user: distinct ids are distinct keys. *)
Lemma distinct_history s r u c hr :
  NoDup (history_ids s r u c hr) ->
  distinct_keys (history_rows s r u c (newEmailIds_of hr)) = true.
Proof.
  intros Hn. unfold distinct_keys. apply bool_decide_eq_true_2.
  assert (Hk : map key_of (history_rows s r u c (newEmailIds_of hr)) =
               map (fun i => (u, i)) (history_ids s r u c hr)).
  { unfold history_ids. rewrite map_map. apply map_ext_in.
    intros e He%list_elem_of_In. by apply (history_rows_key s r u c (newEmailIds_of hr)). }
  rewrite Hk. by apply NoDup_map_pair.
Qed.

(** [processHistoryRecords] rejects when the client cannot be had. *)
Lemma run_processHistoryRecords_Err u hr w e :
  nonempty (newEmailIds_of hr) = true ->
  client_of (remote w) u = Err e ->
  run (processHistoryRecords u hr) w =
  (logged [call_of (getAuthenticatedGmailClient u)] w, Err e).
Proof.
  intros Hnew Hc. unfold processHistoryRecords. cbv zeta.
  fold (newEmailIds_of hr). rewrite Hnew, when_true.
  rewrite run_abind, run_abind, run_call, exec_pure by done. cbn [outcome snd].
  by rewrite Hc.
Qed.

Lemma run_processHistoryRecords u hr w c :
  (nonempty (newEmailIds_of hr) = true -> client_of (remote w) u = Ok c) ->
  distinct_keys (history_rows (store w) (remote w) u c (newEmailIds_of hr)) = true ->
  run (processHistoryRecords u hr) w =
  (mkWorld (history_store (store w) (remote w) u c hr) (remote w)
           (log w ++ history_calls (store w) (remote w) u c hr),
   Ok (newEmailIds_of hr, deletedEmailIds_of hr)).
Proof.
  intros Hc Hd. unfold processHistoryRecords, history_store, history_calls. cbv zeta.
  fold (newEmailIds_of hr). fold (deletedEmailIds_of hr).
  set (new := newEmailIds_of hr) in *. set (del := deletedEmailIds_of hr).
  rewrite run_abind.
  match goal with |- context [run (when (nonempty new) ?p) w] =>
    assert (Hfirst :
      run (when (nonempty new) p) w =
      (mkWorld (save_step (history_rows (store w) (remote w) u c new) (store w))
               (remote w)
               (log w ++
                if nonempty new then
                  call_of (getAuthenticatedGmailClient u)
                    :: get_id_calls c new
                    ++ (if nonempty (non_null (map (fetched_history (remote w) u c) new))
                        then call_of (repo_find_id_in
                               (map (fun e => Some (id e))
                                  (non_null (map (fetched_history (remote w) u c) new))))
                             :: save_calls (history_rows (store w) (remote w) u c new)
                        else [])
                else []),
       Ok tt))
  end.
  { destruct (nonempty new) eqn:Hnew.
    - rewrite when_true.
      rewrite run_abind, run_call, exec_pure by done. cbn [outcome snd].
      rewrite (Hc eq_refl).
      rewrite run_abind, run_fetch_history_all, logged_logged, remote_logged.
      unfold history_rows in *. cbv zeta in *.
      set (valid := non_null (map (fetched_history (remote w) u c) new)) in *.
      destruct (nonempty valid) eqn:Hv.
      + rewrite when_true, run_abind, run_call, exec_pure by done. cbn [outcome snd].
        rewrite store_logged, run_save_step by done. unfold logged. cbn [store remote log].
        by rewrite <- !app_assoc.
      + rewrite when_false, run_resolve. apply nonempty_false in Hv. rewrite Hv.
        unfold logged. cbn. rewrite app_nil_r. by destruct w as [[] ? ?].
    - rewrite when_false, run_resolve. apply nonempty_false in Hnew. rewrite Hnew.
      cbn. rewrite app_nil_r. by destruct w as [[] ? ?]. }
  rewrite Hfirst.
  rewrite run_abind, run_delete_step. cbn [store remote log].
  rewrite run_abind, run_update_cursor_if_string. cbn [store remote log].
  by rewrite run_resolve, <- !app_assoc.
Qed.

(** The operations of a call of [processHistoryRecords] whose save is
    rejected: the call ends at the save. *)
Lemma run_processHistoryRecords_rejected u hr w c :
  client_of (remote w) u = Ok c ->
  distinct_keys (history_rows (store w) (remote w) u c (newEmailIds_of hr)) = false ->
  let new := newEmailIds_of hr in
  let valid := non_null (map (fetched_history (remote w) u c) new) in
  run (processHistoryRecords u hr) w =
  (logged (call_of (getAuthenticatedGmailClient u)
             :: get_id_calls c new
             ++ [call_of (repo_find_id_in (map (fun e => Some (id e)) valid));
                 call_of (repo_save (history_rows (store w) (remote w) u c new))]) w,
   Err duplicate_key).
Proof.
  intros Hc Hd. cbv zeta.
  pose proof (distinct_keys_nonempty _ Hd) as Hrows.
  unfold processHistoryRecords. cbv zeta. fold (newEmailIds_of hr).
  set (new := newEmailIds_of hr) in *.
  assert (Hv : nonempty (non_null (map (fetched_history (remote w) u c) new)) = true).
  { unfold history_rows in Hrows. cbv zeta in Hrows.
    by destruct (non_null (map (fetched_history (remote w) u c) new)). }
  assert (Hnew : nonempty new = true).
  { by destruct new. }
  rewrite Hnew, when_true.
  rewrite run_abind, run_abind, run_call, exec_pure by done. cbn [outcome snd].
  rewrite Hc.
  rewrite run_abind, run_fetch_history_all, logged_logged, remote_logged.
  rewrite Hv, when_true.
  rewrite run_abind, run_call, exec_pure by done. cbn [outcome snd].
  rewrite store_logged, logged_logged.
  fold (history_rows (store w) (remote w) u c new).
  rewrite run_save_step_rejected by done.
  unfold save_calls. rewrite Hrows, logged_logged. cbn [app].
  by rewrite <- !app_assoc.
Qed.

Lemma cursor_writes_get_id_calls c ids : cursor_writes (get_id_calls c ids) = [].
Proof. by induction ids. Qed.

Lemma cursor_writes_history_calls s r u c hr :
  cursor_writes (history_calls s r u c hr) =
  match historyId hr with
  | Some x => if truthy x then [(u, x)] else []
  | None => []
  end.
Proof.
  unfold history_calls. cbv zeta. autorewrite with views.
  rewrite cursor_writes_delete_calls, cursor_writes_cursor_calls.
  destruct (nonempty (newEmailIds_of hr)); [| done].
  change (?x :: ?l) with ([x] ++ l). autorewrite with views.
  rewrite cursor_writes_get_id_calls.
  destruct (nonempty (non_null _)); [| done].
  change (?x :: ?l) with ([x] ++ l). autorewrite with views.
  by rewrite cursor_writes_save_calls.
Qed.

Lemma history_store_cursor s r u c hr h :
  historyId hr = Some h -> truthy h = true ->
  cursors (history_store s r u c hr) = <[u := h]> (cursors s).
Proof.
  intros Hid Ht. unfold history_store, cursor_step. rewrite Hid, Ht.
  unfold set_cursor. cbn [cursors].
  by rewrite delete_step_cursors, save_step_cursors.
Qed.

Lemma run_history_page_sync u tok del w hr c :
  history_of (remote w) u None (Some 100) tok = Ok hr ->
  (nonempty (newEmailIds_of hr) = true -> client_of (remote w) u = Ok c) ->
  distinct_keys (history_rows (store w) (remote w) u c (newEmailIds_of hr)) = true ->
  let s1 := history_store (store w) (remote w) u c hr in
  run (history_page_sync u tok del) w =
  (mkWorld (if truthy_opt (nextPageToken hr) then s1
            else cursor_step u (historyId hr) s1)
     (remote w)
     (log w ++ [call_of (getMailboxHistory u None (Some 100) tok)]
            ++ history_calls (store w) (remote w) u c hr
            ++ page_tail_calls u hr del),
   Ok tt).
Proof.
  intros Hhist Hc Hd. cbv zeta. unfold history_page_sync.
  rewrite run_abind, run_call, exec_pure by done. cbn [outcome snd]. rewrite Hhist.
  rewrite run_abind, (run_processHistoryRecords u hr _ c) by done.
  rewrite store_logged, remote_logged, log_logged. cbn [fst snd].
  rewrite run_abind, run_when_pure by done.
  rewrite run_abind, run_when_pure by done.
  rewrite !logged_logged. unfold page_tail_calls. cbv zeta.
  destruct (truthy_opt (nextPageToken hr)).
  - rewrite run_abind, run_call, exec_pure by done. cbn [outcome snd].
    rewrite run_call, exec_pure by done. cbn [outcome snd].
    rewrite !logged_logged. unfold logged. cbn [store remote log].
    by rewrite <- !app_assoc.
  - rewrite run_update_cursor_if_string. unfold logged. cbn [store remote log].
    by rewrite <- !app_assoc.
Qed.

(** A page whose save is rejected ends the branch at the save. *)
Lemma run_history_page_sync_rejected u tok del w hr c :
  history_of (remote w) u None (Some 100) tok = Ok hr ->
  client_of (remote w) u = Ok c ->
  distinct_keys (history_rows (store w) (remote w) u c (newEmailIds_of hr)) = false ->
  let new := newEmailIds_of hr in
  let valid := non_null (map (fetched_history (remote w) u c) new) in
  run (history_page_sync u tok del) w =
  (logged ([call_of (getMailboxHistory u None (Some 100) tok)]
             ++ call_of (getAuthenticatedGmailClient u)
             :: get_id_calls c new
             ++ [call_of (repo_find_id_in (map (fun e => Some (id e)) valid));
                 call_of (repo_save (history_rows (store w) (remote w) u c new))]) w,
   Err duplicate_key).
Proof.
  intros Hhist Hc Hd. cbv zeta. unfold history_page_sync.
  rewrite run_abind, run_call, exec_pure by done. cbn [outcome snd]. rewrite Hhist.
  rewrite run_abind, (run_processHistoryRecords_rejected u hr _ c) by done.
  by rewrite store_logged, remote_logged, logged_logged.
Qed.

(** No added id, no save. *)
Lemma distinct_history_rows_nil s r u c hr :
  nonempty (newEmailIds_of hr) = false ->
  distinct_keys (history_rows s r u c (newEmailIds_of hr)) = true.
Proof. intros Hnew%nonempty_false. by rewrite Hnew. Qed.

(** Processing a history page moves the cursor to the history id the page
    reports, whether or not the page carries a continuation token. *)
Lemma history_page_sync_moves_cursor u tok del w hr h c :
  truthy_opt tok = true ->
  history_of (remote w) u None (Some 100) tok = Ok hr ->
  (nonempty (newEmailIds_of hr) = true -> client_of (remote w) u = Ok c) ->
  distinct_keys (history_rows (store w) (remote w) u c (newEmailIds_of hr)) = true ->
  historyId hr = Some h ->
  truthy h = true ->
  let p := handleSyncOldEmails (mkSyncEvent u tok 1 del) in
  (run p w).2 = Ok tt ∧ cursors (store (run p w).1) !! u = Some h.
Proof.
  intros Htok Hhist Hc Hd Hid Ht. cbv zeta.
  unfold handleSyncOldEmails. cbn [ev_pageCount ev_userId ev_pageToken ev_deletedEmailIds].
  change (1 =? 0)%float with false. change (1 =? 1)%float with true.
  rewrite Htok. cbn [andb].
  rewrite run_try_catch, (run_history_page_sync u tok del w hr c) by done.
  cbn [fst snd store]. split; [done |].
  destruct (truthy_opt (nextPageToken hr)).
  - rewrite (history_store_cursor _ _ _ _ _ h) by done. apply lookup_insert_eq.
  - rewrite Hid. by apply cursor_step_lookup.
Qed.

(** C1.  The cursor is not held back until the terminal page.  With cursor
    100 stored for user 1, the handler processes a history page that carries
    the continuation token "tok" and reports history id 200: it emits the
    follow-up request for "tok", and the stored cursor is 200 afterwards. *)
Theorem history_page_with_token_updates_cursor :
  let w := Sample.with_cursor in
  let p := handleSyncOldEmails (mkSyncEvent 1 (Some "p") 1 None) in
  history_of (remote w) 1 None (Some 100) (Some "p") = Ok Sample.page_with_token ∧
  nextPageToken Sample.page_with_token = Some "tok"%string ∧
  cursors (store w) !! 1 = Some "100"%string ∧
  sync_requests (performed p w) = [mkSyncEvent 1 (Some "tok") 1 (Some [])] ∧
  cursor_writes (performed p w) = [(1, "200"%string)] ∧
  cursors (store (run p w).1) !! 1 = Some "200"%string.
Proof.
  cbv zeta. split; [done |]. split; [done |]. split; [by vm_compute |].
  split; [by vm_compute |]. split; [by vm_compute |].
  exact (proj2 (history_page_sync_moves_cursor 1 (Some "p"%string) None Sample.with_cursor
                  Sample.page_with_token "200"%string (mkClient 1)
                  eq_refl eq_refl (fun _ => eq_refl) eq_refl eq_refl eq_refl)).
Qed.

(** ** Cold start and failed history listing *)

(** C2.  Cold start.  For a user with no stored cursor whose profile reports
    a history id (a non-empty string), [syncEmailsWithHistory] returns empty
    added and deleted lists, fetches, saves and deletes nothing, leaves the
    email records as they are, and stores exactly the profile's history id
    as the user's cursor. *)
Theorem cold_start_seeds_cursor u w p h :
  cursors (store w) !! u = None ->
  profile_of (remote w) u = Ok p ->
  p_historyId p = Some h ->
  truthy h = true ->
  let prog := syncEmailsWithHistory u in
  let w' := (run prog w).1 in
  (run prog w).2 = Ok ([], []) ∧
  fetches (performed prog w) = [] ∧
  saves (performed prog w) = [] ∧
  deletions (performed prog w) = [] ∧
  emails (store w') = emails (store w) ∧
  cursors (store w') = <[u := h]> (cursors (store w)) ∧
  cursors (store w') !! u = Some h.
Proof.
  intros Hcur Hprof Hh Ht. cbv zeta.
  assert (Hrun : run (syncEmailsWithHistory u) w =
            (mkWorld (set_cursor u h (store w)) (remote w)
               (log w ++ [call_of (getLastHistoryId u); call_of (getProfile u);
                          call_of (updateLastHistoryId u h)]),
             Ok ([], []))).
  { unfold syncEmailsWithHistory.
    rewrite run_abind, run_call, exec_pure by done. cbn [outcome snd].
    rewrite Hcur. cbn [truthy_opt negb].
    rewrite run_abind, run_call, exec_pure by done. cbn [outcome snd].
    rewrite remote_logged, Hprof, Hh. cbn [or_null]. rewrite Ht.
    rewrite run_abind, run_call. unfold exec. cbn [outcome].
    rewrite run_resolve. unfold logged. cbn [store remote log].
    by rewrite <- !app_assoc. }
  rewrite (performed_eq _ _ _ _ _ Hrun eq_refl), Hrun. cbn [fst snd store set_cursor cursors].
  repeat (split; [done |]). apply lookup_insert_eq.
Qed.

(** A first sync for user 1 on an empty store seeds cursor 500. *)
Lemma cold_start_seeds_cursor_witness :
  (run (syncEmailsWithHistory 1) Sample.fresh).2 = Ok ([], []) ∧
  cursors (store (run (syncEmailsWithHistory 1) Sample.fresh).1) !! 1 = Some "500"%string.
Proof.
  pose proof (cold_start_seeds_cursor 1 Sample.fresh (mkProfile (Some "500"%string))
                "500"%string (lookup_empty _) eq_refl eq_refl eq_refl) as H.
  cbv zeta in H. exact (conj (proj1 H) (proj2 (proj2 (proj2 (proj2 (proj2 (proj2 H))))))).
Defined.

(** C4 as the code has it.  When the history listing fails (for whatever
    reason, an expired history id included) for a user with a stored cursor,
    [syncEmailsWithHistory] rejects with that failure after reading the
    cursor and calling the listing; the listener catches the failure; the
    profile is not consulted and the store, cursor included, is left as it
    was. *)
Theorem failed_history_listing_keeps_cursor u tok del w h e :
  cursors (store w) !! u = Some h ->
  truthy h = true ->
  history_of (remote w) u (Some h) None None = Err e ->
  let calls := [call_of (getLastHistoryId u);
                call_of (getMailboxHistory u (Some h) None None)] in
  run (syncEmailsWithHistory u) w = (logged calls w, Err e) ∧
  run (handleSyncOldEmails (mkSyncEvent u tok 0 del)) w = (logged calls w, Ok tt) ∧
  store (logged calls w) = store w ∧
  cursors (store (run (handleSyncOldEmails (mkSyncEvent u tok 0 del)) w).1) !! u = Some h.
Proof.
  intros Hcur Ht Hhist. cbv zeta.
  assert (Hrun : run (syncEmailsWithHistory u) w =
    (logged [call_of (getLastHistoryId u);
             call_of (getMailboxHistory u (Some h) None None)] w, Err e)).
  { unfold syncEmailsWithHistory.
    rewrite run_abind, run_call, exec_pure by done. cbn [outcome snd].
    rewrite Hcur. cbn [truthy_opt]. rewrite Ht. cbn [negb].
    rewrite run_abind, run_call, exec_pure by done. cbn [outcome snd].
    rewrite remote_logged, Hhist. by rewrite logged_logged. }
  assert (Hh : run (handleSyncOldEmails (mkSyncEvent u tok 0 del)) w =
    (logged [call_of (getLastHistoryId u);
             call_of (getMailboxHistory u (Some h) None None)] w, Ok tt)).
  { unfold handleSyncOldEmails. cbn [ev_pageCount ev_userId].
    change (0 =? 0)%float with true.
    unfold first_history_sync.
    by rewrite run_try_catch, run_abind, Hrun. }
  rewrite Hh. done.
Qed.

(** With cursor 100 and an expired history id, the cursor stays 100. *)
Lemma failed_history_listing_keeps_cursor_witness :
  cursors (store (run (handleSyncOldEmails (EmailSyncEvent3 1 None 0)) Sample.expired).1) !! 1
  = Some "100"%string.
Proof.
  exact (proj2 (proj2 (proj2 (failed_history_listing_keeps_cursor
           1 None None Sample.expired "100"%string HistoryExpired
           (lookup_singleton_eq _ _) eq_refl eq_refl)))).
Defined.

(** C4 fails on the code: with cursor 100 stored, a history listing that
    fails with [HistoryExpired] and a profile reporting history id 500, the
    cursor is still 100 after the listener ran. *)
Lemma reseeds_on_expiry_counterexample : ¬ reseeds_on_expiry 1 Sample.expired.
Proof.
  intros H.
  specialize (H "100"%string (mkProfile (Some "500"%string)) "500"%string
                ltac:(by vm_compute) eq_refl eq_refl eq_refl).
  vm_compute in H. discriminate H.
Qed.

(** ** When the saves are accepted

    The ids handed to a save are a part of the ids the caller was given, in
    order: candidates, listed messages or added ids without repetition give
    batches without repetition. *)

Lemma sublist_valid_ids r u c (f : Message -> bool) ms :
  sublist (map Some (map id (validEmails r u c (List.filter f ms)))) (map msg_id ms).
Proof.
  unfold validEmails.
  induction ms as [| m ms IH]; cbn [List.filter map]; [constructor |].
  destruct (f m); [| by constructor]. cbn [map non_null].
  destruct (fetched r u c m) as [e |] eqn:Hf; cbn [non_null map]; [| by constructor].
  apply fetched_Some in Hf as (i & d & -> & _ & -> & _). by constructor.
Qed.

Lemma NoDup_map_Some {A} (l : list A) : NoDup (map Some l) -> NoDup l.
Proof.
  induction l as [| a l IH]; cbn [map]; [constructor |].
  rewrite !NoDup_cons, elem_of_List_map. intros [Hn Hl]. split; [| by apply IH].
  intros Ha. apply Hn. by exists a.
Qed.

Lemma distinct_candidates_suffice s r u c ms :
  NoDup (map msg_id ms) -> NoDup (batch_ids s r u c ms).
Proof.
  intros Hn. apply NoDup_map_Some. unfold batch_ids, messagesToFetch.
  exact (sublist_NoDup _ _ Hn (sublist_valid_ids r u c _ ms)).
Qed.

Lemma distinct_listing_suffices s r u c ms :
  NoDup (map msg_id ms) -> NoDup (diff_ids s r u c ms).
Proof.
  intros Hn. apply NoDup_map_Some. unfold diff_ids, to_fetch_user.
  exact (sublist_NoDup _ _ Hn (sublist_valid_ids r u c _ ms)).
Qed.

Lemma sublist_history_ids s r u c ids :
  sublist (map id (history_rows s r u c ids)) ids.
Proof.
  unfold history_rows. cbv zeta.
  generalize (fun e : Email =>
    negb (has (new_Set (map id (find_id_in
      (map (fun e0 => Some (id e0)) (non_null (map (fetched_history r u c) ids))) s)))
      (id e))).
  intros g. induction ids as [| i ids IH]; cbn [map non_null List.filter]; [constructor |].
  destruct (fetched_history r u c i) as [e |] eqn:Hf; cbn [non_null List.filter];
    [| by constructor].
  apply fetched_history_Some in Hf as (<- & _).
  destruct (g e); cbn [map]; by constructor.
Qed.

Lemma distinct_added_suffice s r u c hr :
  NoDup (newEmailIds_of hr) -> NoDup (history_ids s r u c hr).
Proof.
  intros Hn. exact (sublist_NoDup _ _ Hn (sublist_history_ids s r u c _)).
Qed.

(** ** Diff-mode reconciliation *)

Lemma elem_of_db_ids u s i : i ∈ db_ids u s <-> is_Some (emails s !! (u, i)).
Proof.
  unfold db_ids. rewrite elem_of_new_Set, elem_of_List_map. split.
  - intros (e & <- & [_ He]%elem_of_find_user). by rewrite He.
  - intros [b Hb]. exists (row_of (u, i) b). split; [done |].
    apply elem_of_find_user. split; [done |]. by rewrite body_of_row_of.
Qed.

Lemma elem_of_deleted_ids u s ms i :
  i ∈ deleted_ids u s ms <-> is_Some (emails s !! (u, i)) ∧ Some i ∉ map msg_id ms.
Proof.
  unfold deleted_ids.
  rewrite elem_of_List_filter, elem_of_db_ids, has_new_Set, negb_true_iff,
    bool_decide_eq_false. done.
Qed.

Lemma NoDup_deleted_ids u s ms : NoDup (deleted_ids u s ms).
Proof. apply NoDup_List_filter, NoDup_set_from. Qed.

Lemma elem_of_to_fetch_user u s ms m i :
  msg_id m = Some i ->
  m ∈ to_fetch_user u s ms <-> m ∈ ms ∧ emails s !! (u, i) = None.
Proof.
  intros Hi. unfold to_fetch_user, has.
  rewrite elem_of_List_filter, negb_true_iff, bool_decide_eq_false.
  rewrite Hi, or_else_Some_empty, elem_of_db_ids.
  by rewrite <- eq_None_not_Some.
Qed.

Lemma valid_user_fresh r u c s ms e :
  e ∈ validEmails r u c (to_fetch_user u s ms) ->
  emails s !! (u, id e) = None.
Proof.
  intros (m & Hm & Hf)%elem_of_validEmails.
  apply fetched_Some in Hf as (i & d & Hi & _ & <- & _ & _).
  by apply (elem_of_to_fetch_user u s ms m _ Hi) in Hm as [_ ?].
Qed.

Lemma distinct_diff s r u c ms :
  NoDup (diff_ids s r u c ms) ->
  distinct_keys (validEmails r u c (to_fetch_user u s ms)) = true.
Proof. intros Hn. rewrite distinct_keys_valid. by apply bool_decide_eq_true_2. Qed.

Lemma run_syncEmailsWithDeletion u ms c w :
  let tf := to_fetch_user u (store w) ms in
  let valid := validEmails (remote w) u c tf in
  let del := deleted_ids u (store w) ms in
  distinct_keys valid = true ->
  run (syncEmailsWithDeletion u ms c) w =
  (mkWorld (delete_step del u (save_step valid (store w))) (remote w)
     (log w ++ [call_of (repo_find_user u)] ++ get_calls c tf ++ save_calls valid
            ++ delete_calls del u),
   Ok (map id valid, del)).
Proof.
  cbv zeta. intros Hd. unfold syncEmailsWithDeletion.
  rewrite run_abind, run_call, exec_pure by done. cbn [outcome snd]. cbv zeta.
  fold (db_ids u (store w)). fold (deleted_ids u (store w) ms).
  fold (to_fetch_user u (store w) ms).
  set (tf := to_fetch_user u (store w) ms) in *. set (del := deleted_ids u (store w) ms).
  set (valid := validEmails (remote w) u c tf) in *.
  set (w0 := logged _ w).
  rewrite run_abind.
  match goal with |- context [run ?p w0] =>
    assert (Hnew :
      run p w0 = (mkWorld (save_step valid (store w)) (remote w)
                    (log w0 ++ get_calls c tf ++ save_calls valid),
                  Ok (map id valid)))
  end.
  { destruct (nonempty tf) eqn:Htf.
    - rewrite run_abind, run_fetch_all.
      change (remote w0) with (remote w). fold (validEmails (remote w) u c tf). fold valid.
      unfold save_step, save_calls.
      destruct (nonempty valid) eqn:Hv.
      + rewrite run_abind, run_call, exec_repo_save by done.
        cbn [store remote log logged w0].
        by rewrite run_resolve, <- app_assoc.
      + rewrite run_resolve. apply nonempty_false in Hv. rewrite Hv.
        unfold logged. cbn. rewrite app_nil_r. by destruct w as [[] ? ?].
    - apply nonempty_false in Htf. subst valid. rewrite Htf, run_resolve.
      cbn. rewrite app_nil_r. by destruct w as [[] ? ?]. }
  rewrite Hnew. rewrite run_abind, run_delete_step, run_resolve. cbn [store remote log].
  subst w0. by rewrite log_logged, <- !app_assoc.
Qed.

(** When the save is rejected the reconciliation ends there: nothing is
    stored and nothing is deleted. *)
Lemma run_syncEmailsWithDeletion_rejected u ms c w :
  let tf := to_fetch_user u (store w) ms in
  let valid := validEmails (remote w) u c tf in
  distinct_keys valid = false ->
  run (syncEmailsWithDeletion u ms c) w =
  (logged ([call_of (repo_find_user u)] ++ get_calls c tf ++ [call_of (repo_save valid)]) w,
   Err duplicate_key).
Proof.
  cbv zeta. intros Hd. pose proof (distinct_keys_nonempty _ Hd) as Hv.
  unfold syncEmailsWithDeletion.
  rewrite run_abind, run_call, exec_pure by done. cbn [outcome snd]. cbv zeta.
  fold (db_ids u (store w)). fold (to_fetch_user u (store w) ms).
  set (tf := to_fetch_user u (store w) ms) in *.
  assert (Htf : nonempty tf = true) by (by destruct tf).
  rewrite Htf, run_abind, run_abind, run_fetch_all, logged_logged, remote_logged.
  fold (validEmails (remote w) u c tf).
  rewrite Hv, run_abind, run_call, exec_repo_save_rejected by done.
  by rewrite logged_logged, <- !app_assoc.
Qed.

Lemma deletions_sync_calls u c tf valid del :
  deletions ([call_of (repo_find_user u)] ++ get_calls c tf ++ save_calls valid
               ++ delete_calls del u)
  = if nonempty del then [(del, u)] else [].
Proof.
  autorewrite with views.
  by rewrite deletions_get_calls, deletions_save_calls, deletions_delete_calls.
Qed.

(** C7.  Diff-mode reconciliation deletes exactly the local ids that are
    absent from the remote list.  For a remote list in which no id that is
    new for the user and readable occurs twice (the save that precedes the
    deletion rejects such a batch), the call resolves; the returned deleted
    ids are, without repetition, exactly the ids stored for the user that do
    not occur in the remote list; they are removed by one deletion for that
    user; afterwards a record of the user whose id occurs in the remote list
    is as it was and one whose id does not is gone; records of other users
    are untouched. *)
Theorem syncEmailsWithDeletion_deletes_difference u ms c w :
  NoDup (diff_ids (store w) (remote w) u c ms) ->
  let p := syncEmailsWithDeletion u ms c in
  let w' := (run p w).1 in
  exists new deleted,
    (run p w).2 = Ok (new, deleted) ∧
    NoDup deleted ∧
    (forall i, i ∈ deleted <->
       is_Some (emails (store w) !! (u, i)) ∧ Some i ∉ map msg_id ms) ∧
    deletions (performed p w) = (if nonempty deleted then [(deleted, u)] else []) ∧
    (forall i, is_Some (emails (store w) !! (u, i)) ->
       emails (store w') !! (u, i) =
       if bool_decide (Some i ∈ map msg_id ms) then emails (store w) !! (u, i) else None) ∧
    (forall u' i, u' ≠ u -> emails (store w') !! (u', i) = emails (store w) !! (u', i)).
Proof.
  intros Hd%distinct_diff. cbv zeta.
  pose proof (run_syncEmailsWithDeletion u ms c w Hd) as Hrun. cbv zeta in Hrun.
  rewrite (performed_eq _ _ _ _ _ Hrun eq_refl), Hrun. cbn [fst snd store].
  set (valid := validEmails (remote w) u c (to_fetch_user u (store w) ms)) in *.
  set (del := deleted_ids u (store w) ms) in *.
  exists (map id valid), del.
  split; [done |]. split; [apply NoDup_deleted_ids |].
  split; [intros i; apply elem_of_deleted_ids |].
  split; [apply deletions_sync_calls |]. split.
  - intros i Hs. rewrite lookup_delete_step. cbn [fst snd].
    assert (Hk : (u, i) ∉ map key_of valid).
    { intros [_ (e & Hid & He)%elem_of_List_map]%key_in_valid. cbn [snd] in Hid.
      apply valid_user_fresh in He. rewrite <- Hid, He in Hs. by destruct Hs. }
    rewrite save_step_emails, (lookup_save_rows_notin _ _ _ Hk).
    case_bool_decide as Hin.
    + rewrite decide_False; [done |].
      intros [_ [_ ?]%elem_of_deleted_ids]. done.
    + rewrite decide_True; [done |]. split; [done |]. by apply elem_of_deleted_ids.
  - intros u' i Hne. rewrite lookup_delete_step. cbn [fst snd].
    rewrite decide_False by (by intros [? _]).
    rewrite save_step_emails. apply lookup_save_rows_notin.
    by intros [? _]%key_in_valid.
Qed.

(** Local {A, B, C} against remote {A, C}: exactly B is deleted. *)
Lemma syncEmailsWithDeletion_deletes_difference_witness :
  exists new deleted,
    (run (syncEmailsWithDeletion 1 [Sample.mA; Sample.mC] (mkClient 1)) Sample.ABC).2
      = Ok (new, deleted) ∧
    ("B"%string ∈ deleted) ∧ ("A"%string ∉ deleted) ∧ ("C"%string ∉ deleted) ∧
    emails (store (run (syncEmailsWithDeletion 1 [Sample.mA; Sample.mC] (mkClient 1))
                     Sample.ABC).1) !! (1, "A"%string) = Some Sample.body0.
Proof.
  destruct (syncEmailsWithDeletion_deletes_difference
              1 [Sample.mA; Sample.mC] (mkClient 1) Sample.ABC
              ltac:(apply NoDup_by_decide; by vm_compute))
    as (new & deleted & Hr & _ & Hdel & _ & Hkeep & _).
  exists new, deleted. split; [exact Hr |]. split; [| split; [| split]].
  - apply Hdel. split; [by eexists; vm_compute |].
    apply not_elem_of_by_decide. by vm_compute.
  - intros [_ Hn]%Hdel. apply Hn. apply elem_of_by_decide. by vm_compute.
  - intros [_ Hn]%Hdel. apply Hn. apply elem_of_by_decide. by vm_compute.
  - rewrite (Hkeep "A"%string ltac:(by eexists; vm_compute)). by vm_compute.
Defined.

(** ** Embeddings *)

Lemma run_embed_email trim email w :
  run (embed_email trim email) w =
  (logged [call_of (generateEmbedding (prepareTextForEmbedding trim email))] w,
   Ok (embedded trim (remote w) email)).
Proof.
  unfold embed_email. cbv zeta. rewrite run_try_catch, run_abind, run_call.
  rewrite exec_pure by done. unfold embedded. cbn [outcome snd].
  by destruct (embedding_of (remote w) _).
Qed.

(** The records selected from the store have distinct keys, hence so has
    the batch of updated records: its save is accepted. *)
Lemma NoDup_keys_rows s : NoDup (map key_of (rows s)).
Proof.
  unfold rows. rewrite map_map.
  rewrite (map_ext _ fst) by (intros [k b]; apply key_of_row_of).
  apply (NoDup_fst_map_to_list (emails s)).
Qed.

Lemma sublist_keys_List_filter (f : Email -> bool) l :
  sublist (map key_of (List.filter f l)) (map key_of l).
Proof.
  induction l as [| e l IH]; cbn; [constructor |].
  destruct (f e); cbn; by constructor.
Qed.

Lemma sublist_keys_embedding_rows trim r sel :
  sublist (map key_of (embedding_rows trim r sel)) (map key_of sel).
Proof.
  unfold embedding_rows.
  induction sel as [| e sel IH]; cbn [map non_null List.filter]; [constructor |].
  unfold embedded at 1.
  destruct (embedding_of r (prepareTextForEmbedding trim e)) as [v | err];
    cbn [non_null]; [| by constructor].
  cbn [List.filter]. destruct (bool_decide _); cbn [map]; by constructor.
Qed.

Lemma distinct_embedding_rows trim r u ids n s :
  distinct_keys (embedding_rows trim r (query_no_embedding u ids n s)) = true.
Proof.
  unfold distinct_keys. apply bool_decide_eq_true_2.
  refine (sublist_NoDup _ _ _ (sublist_keys_embedding_rows _ _ _)).
  unfold query_no_embedding.
  refine (sublist_NoDup _ _ (NoDup_keys_rows s) _).
  etransitivity; [| apply sublist_keys_List_filter].
  rewrite <- (take_drop n (List.filter _ (rows s))) at 2.
  rewrite map_app. apply sublist_inserts_r. reflexivity.
Qed.

Lemma run_generateEmbeddingsForEmails trim u ids w :
  let sel := query_no_embedding u ids BATCH_SIZE (store w) in
  let saved := embedding_rows trim (remote w) sel in
  run (generateEmbeddingsForEmails trim u ids) w =
  (mkWorld (save_step saved (store w)) (remote w)
     (log w ++ [call_of (repo_query_no_embedding u ids BATCH_SIZE)]
            ++ embed_calls trim sel ++ save_calls saved),
   Ok (if nonempty sel then ids_minus_selected ids sel else [])).
Proof.
  cbv zeta. unfold generateEmbeddingsForEmails.
  rewrite run_abind, run_call, exec_pure by done. cbn [outcome snd].
  set (sel := query_no_embedding u ids BATCH_SIZE (store w)).
  destruct (nonempty sel) eqn:Hsel; cbn [negb].
  - rewrite run_abind.
    rewrite (run_promise_all_map _
               (fun e => [call_of (generateEmbedding (prepareTextForEmbedding trim e))])
               (embedded trim)) by (intros; apply run_embed_email).
    rewrite logged_logged, remote_logged.
    fold (embedding_rows trim (remote w) sel). fold (embed_calls trim sel).
    rewrite run_abind, run_save_step, run_resolve by apply distinct_embedding_rows.
    unfold logged. cbn [store remote log]. by rewrite <- !app_assoc.
  - rewrite run_resolve. apply nonempty_false in Hsel. rewrite Hsel.
    unfold logged. cbn. by destruct w as [[] ? ?].
Qed.

Lemma generated_embed_calls trim sel :
  generated (embed_calls trim sel) = map (prepareTextForEmbedding trim) sel.
Proof. induction sel as [| e sel IH]; simpl; [done |]. by f_equal. Qed.

Lemma generated_save_calls rs : generated (save_calls rs) = [].
Proof. unfold save_calls. by destruct (nonempty rs). Qed.

Lemma elem_of_take_inv {A} (x : A) n l : x ∈ take n l -> x ∈ l.
Proof. intros H. rewrite <- (take_drop n l). apply elem_of_app. by left. Qed.

Lemma elem_of_query_no_embedding u ids n s e :
  e ∈ query_no_embedding u ids n s ->
  e ∈ rows s ∧ userId e = u ∧ id e ∈ ids ∧ embedding e = None.
Proof.
  unfold query_no_embedding.
  intros [He Hb]%elem_of_take_inv%elem_of_List_filter.
  apply andb_true_iff in Hb as [[H1 H2]%andb_true_iff H3].
  apply bool_decide_eq_true in H1, H2, H3. done.
Qed.

Lemma key_of_with_embedding e v : key_of (with_embedding e v) = key_of e.
Proof. done. Qed.

Lemma elem_of_embedding_rows trim r sel e' :
  e' ∈ embedding_rows trim r sel <->
  exists e v, e ∈ sel ∧ embedding_of r (prepareTextForEmbedding trim e) = Ok v ∧
              length v = 1536%nat ∧ e' = with_embedding e (Some v).
Proof.
  unfold embedding_rows.
  rewrite elem_of_List_filter, elem_of_non_null, elem_of_List_map, bool_decide_eq_true.
  unfold embedded. split.
  - intros [(e & He' & He) Hne].
    destruct (embedding_of r (prepareTextForEmbedding trim e)) as [v | err] eqn:Hv;
      [| done].
    injection He' as <-. cbn [embedding with_embedding] in Hne.
    case_bool_decide as Hlen; [| done].
    by exists e, v.
  - intros (e & v & He & Hv & Hlen & ->). split; [| done].
    exists e. rewrite Hv, bool_decide_eq_true_2 by done. done.
Qed.

(** C10 as the code has it.  One invocation selects at most 10 emails, all of
    them records of the user without an embedding whose id is among the given
    ids, and requests one embedding for each.  An embedding is stored for a
    selected email exactly when the generated vector has length 1536;
    otherwise the record is left as it was, as is every record that was not
    selected.  The call returns the given ids without the ids of the selected
    emails when at least one email was selected, and the empty list when none
    was. *)
Theorem generateEmbeddingsForEmails_batch trim u ids w :
  let sel := query_no_embedding u ids BATCH_SIZE (store w) in
  let p := generateEmbeddingsForEmails trim u ids in
  let w' := (run p w).1 in
  (length sel <= 10)%nat ∧
  (forall e, e ∈ sel ->
     userId e = u ∧ id e ∈ ids ∧ embedding e = None ∧
     emails (store w) !! key_of e = Some (body_of e)) ∧
  generated (performed p w) = map (prepareTextForEmbedding trim) sel ∧
  (run p w).2 = Ok (if nonempty sel then ids_minus_selected ids sel else []) ∧
  (forall e, e ∈ sel ->
     emails (store w') !! key_of e =
     match embedding_of (remote w) (prepareTextForEmbedding trim e) with
     | Ok v =>
         if bool_decide (length v = 1536%nat)
         then Some (body_of (with_embedding e (Some v)))
         else emails (store w) !! key_of e
     | Err _ => emails (store w) !! key_of e
     end) ∧
  (forall k, k ∉ map key_of sel -> emails (store w') !! k = emails (store w) !! k).
Proof.
  cbv zeta.
  pose proof (run_generateEmbeddingsForEmails trim u ids w) as Hrun. cbv zeta in Hrun.
  rewrite (performed_eq _ _ _ _ _ Hrun eq_refl), Hrun. cbn [fst snd store].
  set (sel := query_no_embedding u ids BATCH_SIZE (store w)) in *.
  set (saved := embedding_rows trim (remote w) sel) in *.
  assert (Hsel : forall e, e ∈ sel ->
            e ∈ rows (store w) ∧ userId e = u ∧ id e ∈ ids ∧ embedding e = None).
  { intros e. apply elem_of_query_no_embedding. }
  assert (Hkeys : forall k, k ∈ map key_of saved ->
            exists e v, e ∈ sel ∧ key_of e = k ∧
              embedding_of (remote w) (prepareTextForEmbedding trim e) = Ok v ∧
              length v = 1536%nat).
  { intros k (e' & <- & (e & v & He & Hv & Hlen & ->)%elem_of_embedding_rows)%elem_of_List_map.
    by exists e, v. }
  split; [| split; [| split; [| split; [| split]]]].
  - unfold sel, query_no_embedding, BATCH_SIZE. rewrite length_take. lia.
  - intros e (Hr & ? & ? & ?)%Hsel. by apply elem_of_rows in Hr.
  - autorewrite with views. rewrite generated_embed_calls, generated_save_calls.
    by rewrite app_nil_r.
  - done.
  - intros e He. rewrite save_step_emails.
    destruct (embedding_of (remote w) (prepareTextForEmbedding trim e)) as [v | err] eqn:Hv.
    + case_bool_decide as Hlen.
      * destruct (lookup_save_rows_in saved (store w) (key_of e))
          as (e' & He' & Hk & ->).
        { apply elem_of_List_map. exists (with_embedding e (Some v)). split; [done |].
          apply elem_of_embedding_rows. by exists e, v. }
        apply elem_of_embedding_rows in He' as (e0 & v0 & He0 & Hv0 & _ & ->).
        rewrite key_of_with_embedding in Hk.
        assert (e0 = e) as ->.
        { apply (rows_key_inj _ _ (store w)); [by apply Hsel | by apply Hsel | done]. }
        congruence.
      * apply lookup_save_rows_notin.
        intros (e0 & v0 & He0 & Hk & Hv0 & Hlen0)%Hkeys.
        assert (e0 = e) as ->.
        { apply (rows_key_inj _ _ (store w)); [by apply Hsel | by apply Hsel | done]. }
        congruence.
    + apply lookup_save_rows_notin.
      intros (e0 & v0 & He0 & Hk & Hv0 & Hlen0)%Hkeys.
      assert (e0 = e) as ->.
      { apply (rows_key_inj _ _ (store w)); [by apply Hsel | by apply Hsel | done]. }
      congruence.
  - intros k Hk. rewrite save_step_emails. apply lookup_save_rows_notin.
    intros (e0 & v0 & He0 & Hk0 & _)%Hkeys. apply Hk.
    apply elem_of_List_map. by exists e0.
Qed.

(** C10 fails on the code when no email is selected: with an empty store and
    the single id "a", the input ids minus the ids of the selected emails are
    ["a"], but the call returns the empty list. *)
Lemma returns_ids_minus_selected_counterexample :
  ¬ returns_ids_minus_selected Sample.no_trim 1 ["a"%string] Sample.fresh.
Proof. unfold returns_ids_minus_selected. vm_compute. discriminate. Qed.

(** Ids ["A"; "Z"] for user 1 who holds A, B and C: A is selected and gets
    its embedding, "Z" is returned. *)
Lemma generateEmbeddingsForEmails_batch_witness :
  (run (generateEmbeddingsForEmails Sample.no_trim 1 ["A"; "Z"]%string)
     Sample.ABC_embedding).2 = Ok ["Z"%string] ∧
  emails (store (run (generateEmbeddingsForEmails Sample.no_trim 1 ["A"; "Z"]%string)
                   Sample.ABC_embedding).1) !! (1, "A"%string)
  = Some (body_of (with_embedding (row_of (1, "A"%string) Sample.body0)
                     (Some Sample.vector1536))).
Proof.
  destruct (generateEmbeddingsForEmails_batch
              Sample.no_trim 1 ["A"; "Z"]%string Sample.ABC_embedding)
    as (_ & _ & _ & Hr & He & _).
  split.
  - rewrite Hr. by vm_compute.
  - assert (Hsel : query_no_embedding 1 ["A"; "Z"]%string BATCH_SIZE
                     (store Sample.ABC_embedding)
                   = [row_of (1, "A"%string) Sample.body0]) by (by vm_compute).
    rewrite Hsel in He.
    exact (He (row_of (1, "A"%string) Sample.body0) (list_elem_of_here _ _)).
Defined.

(** ** Executions on the event bus *)

(** The first turn of a first-sync execution reads the cursor and suspends
    at the next remote call. *)
Lemma turn_first_history_sync u tok del w :
  exists p,
    Bus.turn (handleSyncOldEmails (mkSyncEvent u tok 0 del)) w =
      (logged [call_of (getLastHistoryId u)] w, p, []) ∧
    Bus.finished p = false.
Proof.
  unfold handleSyncOldEmails. cbn [ev_pageCount ev_userId ev_pageToken ev_deletedEmailIds].
  change (0 =? 0)%float with true.
  unfold first_history_sync, syncEmailsWithHistory, try_catch, abind, call.
  cbn [bind Bus.turn]. rewrite exec_pure by done. cbn [outcome snd].
  destruct (truthy_opt (cursors (store w) !! u)); cbn [negb bind Bus.drain is_await];
    eexists; split; reflexivity.
Qed.

(** C3 as the code has it.  Sync requests for one user are not serialized:
    the listener takes no per-user lock, and a request that arrives while an
    execution for the same user is suspended starts at once.  For every
    world and every user, when a first-sync request arrives, its execution
    reads the cursor and suspends, and a second first-sync request for the
    same user arrives and is picked, then both executions are in progress,
    both have read the same stored cursor, and neither has written it. *)
Theorem second_request_not_deferred w u tok1 tok2 del1 del2 :
  let e1 := mkSyncEvent u tok1 0 del1 in
  let e2 := mkSyncEvent u tok2 0 del2 in
  exists p1 p2,
    Bus.steps [Bus.arrive e1; Bus.resume 0; Bus.arrive e2; Bus.resume 1] (Bus.initial w)
    = Some (Bus.mkState
              (logged [call_of (getLastHistoryId u); call_of (getLastHistoryId u)] w)
              [Bus.mkTask e1 true p1; Bus.mkTask e2 true p2]) ∧
    Bus.finished p1 = false ∧ Bus.finished p2 = false ∧
    ¬ Bus.serialized
        (Bus.mkState
           (logged [call_of (getLastHistoryId u); call_of (getLastHistoryId u)] w)
           [Bus.mkTask e1 true p1; Bus.mkTask e2 true p2]).
Proof.
  cbv zeta.
  destruct (turn_first_history_sync u tok1 del1 w) as (p1 & Ht1 & Hf1).
  destruct (turn_first_history_sync u tok2 del2 (logged [call_of (getLastHistoryId u)] w))
    as (p2 & Ht2 & Hf2).
  exists p1, p2. split; [| split; [done | split; [done |]]].
  - cbn [Bus.steps Bus.step Bus.initial Bus.tasks Bus.world app lookup list_lookup
         Bus.dispatch Bus.t_prog Bus.t_event].
    rewrite Ht1, Hf1.
    cbn [Bus.steps Bus.step Bus.initial Bus.tasks Bus.world app lookup list_lookup
         Bus.dispatch Bus.t_prog Bus.t_event insert list_insert].
    rewrite Ht2, Hf2.
    cbn [insert list_insert app]. by rewrite logged_logged.
  - intros Hser.
    specialize (Hser 0%nat 1%nat _ _ eq_refl eq_refl eq_refl eq_refl eq_refl).
    discriminate Hser.
Qed.

(** C3 fails on the code: from the world where user 1 has cursor 100, two
    first-sync requests for user 1 lead to a state with two executions in
    progress for that user. *)
Lemma always_serialized_counterexample : ¬ Bus.always_serialized Sample.with_cursor.
Proof.
  intros H.
  pose (e := EmailSyncEvent3 1 None 0).
  destruct (Bus.steps [Bus.arrive e; Bus.resume 0; Bus.arrive e; Bus.resume 1]
              (Bus.initial Sample.with_cursor)) as [st |] eqn:Hst.
  - specialize (H _ _ Hst). vm_compute in Hst. injection Hst as <-.
    specialize (H 0%nat 1%nat _ _ eq_refl eq_refl eq_refl eq_refl eq_refl).
    discriminate H.
  - vm_compute in Hst. discriminate Hst.
Qed.

(** * Further properties *)

(** ** The listener *)

Lemma notified_app cs1 cs2 : notified (cs1 ++ cs2) = notified cs1 ++ notified cs2.
Proof. apply flat_map_app. Qed.

Lemma history_requests_app cs1 cs2 :
  history_requests (cs1 ++ cs2) = history_requests cs1 ++ history_requests cs2.
Proof. apply flat_map_app. Qed.

#[local] Hint Rewrite notified_app history_requests_app : views.

(** X1.  The handler never rejects: whatever the event and whatever the
    remote side and the store answer, a failure inside one of its three
    branches is caught at the request boundary and the handler resolves. *)
Theorem handleSyncOldEmails_never_rejects payload w :
  (run (handleSyncOldEmails payload) w).2 = Ok tt.
Proof.
  unfold handleSyncOldEmails.
  repeat match goal with
         | |- context [if ?b then _ else _] => destruct b
         end;
    try done;
    rewrite run_try_catch;
    match goal with |- context [run ?m w] => by destruct (run m w) as [w' [[] | e]] end.
Qed.

(** X2.  A request with a page counter other than 0 and no page token (absent
    or empty) is dropped: no operation is performed at all. *)
Theorem handleSyncOldEmails_without_token payload w :
  (ev_pageCount payload =? 0)%float = false ->
  truthy_opt (ev_pageToken payload) = false ->
  run (handleSyncOldEmails payload) w = (w, Ok tt) ∧
  performed (handleSyncOldEmails payload) w = [].
Proof.
  intros Hn Htok. unfold handleSyncOldEmails.
  rewrite Hn, Htok, andb_false_r. cbn [negb orb].
  split; [done | apply performed_Ret].
Qed.

Lemma handleSyncOldEmails_without_token_witness :
  run (handleSyncOldEmails (mkSyncEvent 1 (Some "") 1 None)) Sample.with_cursor
  = (Sample.with_cursor, Ok tt).
Proof.
  apply (handleSyncOldEmails_without_token (mkSyncEvent 1 (Some "") 1 None)
           Sample.with_cursor); reflexivity.
Defined.

Lemma run_list_page_sync_no_client u tok n w e :
  client_of (remote w) u = Err e ->
  run (list_page_sync u tok n) w =
  (logged [call_of (getAuthenticatedGmailClient u)] w, Err e).
Proof.
  intros Hc. unfold list_page_sync.
  rewrite run_abind, run_call, exec_pure by done. cbn [outcome snd]. by rewrite Hc.
Qed.

Lemma run_list_page_sync_no_listing u tok n w c e :
  client_of (remote w) u = Ok c ->
  list_of (remote w) c 100 tok = Err e ->
  run (list_page_sync u tok n) w =
  (logged [call_of (getAuthenticatedGmailClient u); call_of (messages_list c 100 tok)] w,
   Err e).
Proof.
  intros Hc Hl. unfold list_page_sync.
  rewrite run_abind, run_call, exec_pure by done. cbn [outcome snd]. rewrite Hc.
  rewrite run_abind, run_call, exec_pure by done. cbn [outcome snd].
  by rewrite remote_logged, Hl, logged_logged.
Qed.

(** X3.  A list-page request whose client request or listing fails is
    abandoned: the handler resolves, the store is left as it was, no message
    is fetched and no event is emitted, so the continuation chain of that
    user ends there. *)
Theorem list_page_sync_failure payload w e :
  (ev_pageCount payload =? 0)%float = false ->
  (ev_pageCount payload =? 1)%float = false ->
  (MAX_PAGES <? ev_pageCount payload)%float = false ->
  truthy_opt (ev_pageToken payload) = true ->
  (client_of (remote w) (ev_userId payload) = Err e ∨
   exists c, client_of (remote w) (ev_userId payload) = Ok c ∧
             list_of (remote w) c 100 (ev_pageToken payload) = Err e) ->
  let p := handleSyncOldEmails payload in
  (run p w).2 = Ok tt ∧
  store (run p w).1 = store w ∧
  fetches (performed p w) = [] ∧
  emitted (performed p w) = [].
Proof.
  intros H0 H1 Hle Htok Hfail. cbv zeta.
  pose proof (run_handle_list_page payload w H0 H1 Hle Htok) as Hh.
  destruct payload as [u tok n del];
    cbn [ev_userId ev_pageToken ev_pageCount ev_deletedEmailIds] in *.
  destruct Hfail as [Hc | (c & Hc & Hl)].
  - assert (Hrun : run (handleSyncOldEmails (mkSyncEvent u tok n del)) w =
              (logged [call_of (getAuthenticatedGmailClient u)] w, Ok tt)).
    { by rewrite Hh, run_try_catch, (run_list_page_sync_no_client _ _ _ _ e). }
    by rewrite (performed_eq _ _ _ _ _ Hrun eq_refl), Hrun.
  - assert (Hrun : run (handleSyncOldEmails (mkSyncEvent u tok n del)) w =
              (logged [call_of (getAuthenticatedGmailClient u);
                       call_of (messages_list c 100 tok)] w, Ok tt)).
    { by rewrite Hh, run_try_catch, (run_list_page_sync_no_listing _ _ _ _ c e). }
    by rewrite (performed_eq _ _ _ _ _ Hrun eq_refl), Hrun.
Qed.

Lemma list_page_sync_failure_witness :
  store (run (handleSyncOldEmails (EmailSyncEvent3 1 (Some "p") 2))
           Example.two_users_unreachable).1
  = Example.store_two_users.
Proof.
  exact (proj1 (proj2 (list_page_sync_failure (EmailSyncEvent3 1 (Some "p") 2)
           Example.two_users_unreachable AuthError eq_refl eq_refl eq_refl eq_refl
           (or_introl eq_refl)))).
Defined.

Lemma emitted_get_id_calls c ids : emitted (get_id_calls c ids) = [].
Proof. by induction ids. Qed.

Lemma notified_get_id_calls c ids : notified (get_id_calls c ids) = [].
Proof. by induction ids. Qed.

Lemma fetches_get_id_calls c ids : fetches (get_id_calls c ids) = map Some ids.
Proof. induction ids as [| i ids IH]; simpl; [done |]. by f_equal. Qed.

Lemma notified_save_calls rs : notified (save_calls rs) = [].
Proof. unfold save_calls. by destruct (nonempty rs). Qed.

Lemma notified_delete_calls ids u : notified (delete_calls ids u) = [].
Proof. unfold delete_calls. by destruct (nonempty ids). Qed.

Lemma notified_cursor_calls u h : notified (cursor_calls u h) = [].
Proof. unfold cursor_calls. destruct h as [x |]; [by destruct (truthy x) | done]. Qed.

Lemma fetches_delete_calls ids u : fetches (delete_calls ids u) = [].
Proof. unfold delete_calls. by destruct (nonempty ids). Qed.

Lemma fetches_cursor_calls u h : fetches (cursor_calls u h) = [].
Proof. unfold cursor_calls. destruct h as [x |]; [by destruct (truthy x) | done]. Qed.

Lemma emitted_history_calls s r u c hr : emitted (history_calls s r u c hr) = [].
Proof.
  unfold history_calls. cbv zeta. autorewrite with views.
  rewrite emitted_delete_calls, emitted_cursor_calls.
  destruct (nonempty (newEmailIds_of hr)); [| done].
  change (?x :: ?l) with ([x] ++ l). autorewrite with views.
  rewrite emitted_get_id_calls.
  destruct (nonempty (non_null _)); [| done].
  change (?x :: ?l) with ([x] ++ l). autorewrite with views.
  by rewrite emitted_save_calls.
Qed.

Lemma notified_history_calls s r u c hr : notified (history_calls s r u c hr) = [].
Proof.
  unfold history_calls. cbv zeta. autorewrite with views.
  rewrite notified_delete_calls, notified_cursor_calls.
  destruct (nonempty (newEmailIds_of hr)); [| done].
  change (?x :: ?l) with ([x] ++ l). autorewrite with views.
  rewrite notified_get_id_calls.
  destruct (nonempty (non_null _)); [| done].
  change (?x :: ?l) with ([x] ++ l). autorewrite with views.
  by rewrite notified_save_calls.
Qed.

Lemma fetches_history_calls s r u c hr :
  fetches (history_calls s r u c hr) = map Some (newEmailIds_of hr).
Proof.
  unfold history_calls. cbv zeta. autorewrite with views.
  rewrite fetches_delete_calls, fetches_cursor_calls, !app_nil_r.
  destruct (nonempty (newEmailIds_of hr)) eqn:Hnew.
  - change (?x :: ?l) with ([x] ++ l). autorewrite with views.
    rewrite fetches_get_id_calls.
    destruct (nonempty (non_null _)).
    + change (?x :: ?l) with ([x] ++ l). autorewrite with views.
      rewrite fetches_save_calls. cbn. by rewrite app_nil_r.
    + cbn. by rewrite app_nil_r.
  - apply nonempty_false in Hnew. by rewrite Hnew.
Qed.

Lemma history_requests_get_id_calls c ids : history_requests (get_id_calls c ids) = [].
Proof. by induction ids. Qed.

Lemma history_requests_save_calls rs : history_requests (save_calls rs) = [].
Proof. unfold save_calls. by destruct (nonempty rs). Qed.

Lemma history_requests_delete_calls ids u : history_requests (delete_calls ids u) = [].
Proof. unfold delete_calls. by destruct (nonempty ids). Qed.

Lemma history_requests_cursor_calls u h : history_requests (cursor_calls u h) = [].
Proof. unfold cursor_calls. destruct h as [x |]; [by destruct (truthy x) | done]. Qed.

Lemma history_requests_history_calls s r u c hr :
  history_requests (history_calls s r u c hr) = [].
Proof.
  unfold history_calls. cbv zeta. autorewrite with views.
  rewrite history_requests_delete_calls, history_requests_cursor_calls.
  destruct (nonempty (newEmailIds_of hr)); [| done].
  change (?x :: ?l) with ([x] ++ l). autorewrite with views.
  rewrite history_requests_get_id_calls.
  destruct (nonempty (non_null _)); [| done].
  change (?x :: ?l) with ([x] ++ l). autorewrite with views.
  by rewrite history_requests_save_calls.
Qed.

Lemma run_handle_history_page u tok del w :
  truthy_opt tok = true ->
  run (handleSyncOldEmails (mkSyncEvent u tok 1 del)) w =
  run (try_catch (history_page_sync u tok del) log_error) w.
Proof.
  intros Htok. unfold handleSyncOldEmails.
  cbn [ev_pageCount ev_userId ev_pageToken ev_deletedEmailIds].
  change (1 =? 0)%float with false. change (1 =? 1)%float with true.
  by rewrite Htok.
Qed.

(** X4.  A processed history page (one that names no readable added id
    twice that the store does not hold, so that its save is accepted) is
    reported and continued as follows: one
    notification for the user listing the added ids, the deleted ids carried
    by the request and the page's deleted ids, in that order (none when all
    are empty); one embedding request for the added ids (none when there are
    none); and, when the page carries a continuation token, one follow-up
    request whose page counter is again 1 and whose carried deleted ids are
    the request's followed by the page's; no follow-up otherwise. *)
Theorem history_page_sync_reports u tok del w hr c :
  truthy_opt tok = true ->
  history_of (remote w) u None (Some 100) tok = Ok hr ->
  (nonempty (newEmailIds_of hr) = true -> client_of (remote w) u = Ok c) ->
  NoDup (history_ids (store w) (remote w) u c hr) ->
  let p := handleSyncOldEmails (mkSyncEvent u tok 1 del) in
  let new := newEmailIds_of hr in
  let carried := default [] del ++ deletedEmailIds_of hr in
  notified (performed p w) =
    (if nonempty (new ++ carried) then [(u, new ++ carried)] else []) ∧
  emitted (performed p w) =
    (if nonempty new then [email_embedding (mkEmbeddingEvent u new 1)] else []) ++
    (if truthy_opt (nextPageToken hr)
     then [email_sync (mkSyncEvent u (nextPageToken hr) 1 (Some carried))] else []) ∧
  history_requests (performed p w) = [(None, tok)].
Proof.
  intros Htok Hhist Hc Hd%distinct_history. cbv zeta.
  assert (Hrun : run (handleSyncOldEmails (mkSyncEvent u tok 1 del)) w =
                 run (history_page_sync u tok del) w).
  { rewrite run_handle_history_page, run_try_catch by done.
    by rewrite (run_history_page_sync u tok del w hr c). }
  pose proof (run_history_page_sync u tok del w hr c Hhist Hc Hd) as Hpage.
  cbv zeta in Hpage.
  rewrite (performed_eq _ _ _ _ _ (eq_trans Hrun Hpage) eq_refl).
  autorewrite with views.
  rewrite notified_history_calls, emitted_history_calls.
  rewrite history_requests_history_calls. unfold page_tail_calls. cbv zeta.
  destruct (nonempty (newEmailIds_of hr ++ default [] del ++ deletedEmailIds_of hr)),
    (nonempty (newEmailIds_of hr)), (truthy_opt (nextPageToken hr));
    cbn; try done;
    unfold cursor_calls; destruct (historyId hr) as [x |]; try done;
    by destruct (truthy x).
Qed.

Lemma history_page_sync_reports_witness :
  emitted (performed (handleSyncOldEmails (mkSyncEvent 1 (Some "p") 1 (Some ["X"%string])))
             Example.two_users)
  = [email_embedding (mkEmbeddingEvent 1 ["m1"%string] 1);
     email_sync (mkSyncEvent 1 (Some "tok") 1 (Some ["X"; "B"]%string))].
Proof.
  exact (proj1 (proj2 (history_page_sync_reports 1 (Some "p"%string) (Some ["X"%string])
           Example.two_users Example.page_add_delete (mkClient 1)
           eq_refl eq_refl (fun _ => eq_refl)
           ltac:(apply NoDup_by_decide; by vm_compute)))).
Defined.

(** X5.  A history-page request that fails is abandoned without a trace in
    the store.  When the history listing fails, or when the page adds
    messages and the authenticated client cannot be had, the handler
    resolves and the store is left as it was: the page's deletions are not
    applied, the cursor is not advanced, nothing is notified and no
    follow-up request is emitted. *)
Theorem history_page_sync_failure u tok del w e :
  truthy_opt tok = true ->
  (history_of (remote w) u None (Some 100) tok = Err e ∨
   exists hr, history_of (remote w) u None (Some 100) tok = Ok hr ∧
              nonempty (newEmailIds_of hr) = true ∧
              client_of (remote w) u = Err e) ->
  let p := handleSyncOldEmails (mkSyncEvent u tok 1 del) in
  (run p w).2 = Ok tt ∧
  store (run p w).1 = store w ∧
  deletions (performed p w) = [] ∧
  cursor_writes (performed p w) = [] ∧
  notified (performed p w) = [] ∧
  emitted (performed p w) = [].
Proof.
  intros Htok Hfail. cbv zeta.
  destruct Hfail as [Hh | (hr & Hh & Hnew & Hc)].
  - assert (Hrun : run (handleSyncOldEmails (mkSyncEvent u tok 1 del)) w =
              (logged [call_of (getMailboxHistory u None (Some 100) tok)] w, Ok tt)).
    { rewrite run_handle_history_page, run_try_catch by done. unfold history_page_sync.
      rewrite run_abind, run_call, exec_pure by done. cbn [outcome snd]. by rewrite Hh. }
    by rewrite (performed_eq _ _ _ _ _ Hrun eq_refl), Hrun.
  - assert (Hrun : run (handleSyncOldEmails (mkSyncEvent u tok 1 del)) w =
              (logged [call_of (getMailboxHistory u None (Some 100) tok);
                       call_of (getAuthenticatedGmailClient u)] w, Ok tt)).
    { rewrite run_handle_history_page, run_try_catch by done. unfold history_page_sync.
      rewrite run_abind, run_call, exec_pure by done. cbn [outcome snd]. rewrite Hh.
      rewrite run_abind, (run_processHistoryRecords_Err _ _ _ e) by done.
      by rewrite logged_logged. }
    by rewrite (performed_eq _ _ _ _ _ Hrun eq_refl), Hrun.
Qed.

Lemma history_page_sync_failure_witness :
  store (run (handleSyncOldEmails (mkSyncEvent 1 (Some "p") 1 None))
           Example.two_users_unreachable).1
  = Example.store_two_users.
Proof.
  exact (proj1 (proj2 (history_page_sync_failure 1 (Some "p"%string) None
           Example.two_users_unreachable TransientNetworkError eq_refl
           (or_introl eq_refl)))).
Defined.

(** ** The history path, further *)

Lemma stored_id_rows s i : stored_id s i <-> i ∈ map id (rows s).
Proof.
  rewrite elem_of_List_map. split.
  - intros [u [b Hb]]. exists (row_of (u, i) b). split; [done |].
    apply elem_of_rows. by rewrite key_of_row_of, body_of_row_of.
  - intros (e & <- & He%elem_of_rows). exists (userId e).
    unfold key_of in He. by rewrite He.
Qed.

Lemma cursor_step_emails u h s : emails (cursor_step u h s) = emails s.
Proof. unfold cursor_step. destruct h as [x |]; [by destruct (truthy x) | done]. Qed.

Lemma history_store_emails s r u c hr :
  emails (history_store s r u c hr) =
  emails (delete_step (deletedEmailIds_of hr) u
            (save_step (history_rows s r u c (newEmailIds_of hr)) s)).
Proof. unfold history_store. apply cursor_step_emails. Qed.

Lemma history_store_cursor_lookup s r u c hr h :
  cursors s !! u = Some h ->
  cursors (history_store s r u c hr) !! u = Some (cursor_after h hr).
Proof.
  intros Hh. unfold history_store, cursor_step, cursor_after.
  destruct (historyId hr) as [x |]; [destruct (truthy x) |];
    cbn [set_cursor cursors];
    rewrite ?lookup_insert_eq, ?delete_step_cursors, ?save_step_cursors; done.
Qed.

Lemma history_store_cursor_other s r u c hr u' :
  u' ≠ u -> cursors (history_store s r u c hr) !! u' = cursors s !! u'.
Proof.
  intros Hne. unfold history_store, cursor_step.
  destruct (historyId hr) as [x |]; [destruct (truthy x) |];
    cbn [set_cursor cursors];
    rewrite ?lookup_insert_ne, ?delete_step_cursors, ?save_step_cursors; done.
Qed.

Lemma lookup_history_rows_other_user s r u c ids u' i :
  u' ≠ u ->
  emails (save_rows (history_rows s r u c ids) s) !! (u', i) = emails s !! (u', i).
Proof.
  intros Hne. apply lookup_save_rows_notin.
  intros (e & Hk & He)%elem_of_List_map.
  rewrite (history_rows_key _ _ _ _ _ _ He) in Hk. congruence.
Qed.

Lemma lookup_history_rows_stored s r u c ids k :
  is_Some (emails s !! k) ->
  emails (save_rows (history_rows s r u c ids) s) !! k = emails s !! k.
Proof.
  intros Hs. apply lookup_save_rows_notin.
  intros (e & Hk & He)%elem_of_List_map.
  pose proof (history_rows_key _ _ _ _ _ _ He) as Hkey.
  apply elem_of_history_rows in He as (_ & _ & Hn).
  apply Hn. exists u. rewrite <- Hkey, Hk. done.
Qed.

Lemma saves_get_id_calls c ids : saves (get_id_calls c ids) = [].
Proof. by induction ids. Qed.

Lemma deletions_get_id_calls c ids : deletions (get_id_calls c ids) = [].
Proof. by induction ids. Qed.

Lemma saves_cursor_calls u h : saves (cursor_calls u h) = [].
Proof. unfold cursor_calls. destruct h as [x |]; [by destruct (truthy x) | done]. Qed.

Lemma deletions_cursor_calls u h : deletions (cursor_calls u h) = [].
Proof. unfold cursor_calls. destruct h as [x |]; [by destruct (truthy x) | done]. Qed.

Lemma saves_history_calls s r u c hr :
  saves (history_calls s r u c hr) =
  if nonempty (history_rows s r u c (newEmailIds_of hr))
  then [history_rows s r u c (newEmailIds_of hr)] else [].
Proof.
  unfold history_calls. cbv zeta. autorewrite with views.
  rewrite saves_delete_calls, saves_cursor_calls, !app_nil_r.
  destruct (nonempty (newEmailIds_of hr)) eqn:Hnew.
  - change (?x :: ?l) with ([x] ++ l). autorewrite with views.
    rewrite saves_get_id_calls.
    destruct (nonempty (non_null _)) eqn:Hv.
    + change (?x :: ?l) with ([x] ++ l). autorewrite with views.
      by rewrite saves_save_calls.
    + apply nonempty_false in Hv. unfold history_rows. cbv zeta. by rewrite Hv.
  - apply nonempty_false in Hnew. by rewrite Hnew.
Qed.

Lemma deletions_history_calls s r u c hr :
  deletions (history_calls s r u c hr) =
  if nonempty (deletedEmailIds_of hr) then [(deletedEmailIds_of hr, u)] else [].
Proof.
  unfold history_calls. cbv zeta. autorewrite with views.
  rewrite deletions_delete_calls, deletions_cursor_calls, app_nil_r.
  destruct (nonempty (newEmailIds_of hr)); [| done].
  change (?x :: ?l) with ([x] ++ l). autorewrite with views.
  rewrite deletions_get_id_calls.
  destruct (nonempty (non_null _)); [| done].
  change (?x :: ?l) with ([x] ++ l). autorewrite with views.
  by rewrite deletions_save_calls.
Qed.

(** X6.  Explicit-mode deletion.  The page names no added id twice that can
    be read and that the store does not hold (the save that precedes the
    deletion rejects such a batch).  After the page was processed, no record
    of the user has an id the page marks as deleted, also when the same page
    added that id; the deletion is one call scoped to the user; a record of
    the user that the page does not delete is as it was, and records of
    other users are untouched, whatever ids the page names. *)
Theorem processHistoryRecords_applies_deletions u hr w c :
  (nonempty (newEmailIds_of hr) = true -> client_of (remote w) u = Ok c) ->
  NoDup (history_ids (store w) (remote w) u c hr) ->
  let p := processHistoryRecords u hr in
  let w' := (run p w).1 in
  let deleted := deletedEmailIds_of hr in
  (run p w).2 = Ok (newEmailIds_of hr, deleted) ∧
  deletions (performed p w) = (if nonempty deleted then [(deleted, u)] else []) ∧
  (forall i, i ∈ deleted -> emails (store w') !! (u, i) = None) ∧
  (forall i, i ∉ deleted -> is_Some (emails (store w) !! (u, i)) ->
     emails (store w') !! (u, i) = emails (store w) !! (u, i)) ∧
  (forall u' i, u' ≠ u -> emails (store w') !! (u', i) = emails (store w) !! (u', i)).
Proof.
  intros Hc Hd%distinct_history. cbv zeta.
  pose proof (run_processHistoryRecords u hr w c Hc Hd) as Hrun.
  rewrite (performed_eq _ _ _ _ _ Hrun eq_refl), Hrun. cbn [fst snd store].
  split; [done |]. split; [apply deletions_history_calls |].
  rewrite history_store_emails. split; [| split].
  - intros i Hi. rewrite lookup_delete_step. cbn [fst snd]. by rewrite decide_True.
  - intros i Hi Hs. rewrite lookup_delete_step. cbn [fst snd].
    rewrite decide_False by tauto.
    rewrite save_step_emails. by apply lookup_history_rows_stored.
  - intros u' i Hne. rewrite lookup_delete_step. cbn [fst snd].
    rewrite decide_False by (by intros [? _]).
    rewrite save_step_emails. by apply lookup_history_rows_other_user.
Qed.

Lemma processHistoryRecords_applies_deletions_witness :
  emails (store (run (processHistoryRecords 1 Example.page_add_delete)
                   Example.two_users).1) !! (1, "B"%string) = None ∧
  emails (store (run (processHistoryRecords 1 Example.page_add_delete)
                   Example.two_users).1) !! (2, "B"%string) = Some Sample.body0.
Proof.
  destruct (processHistoryRecords_applies_deletions 1 Example.page_add_delete
              Example.two_users (mkClient 1) (fun _ => eq_refl)
              ltac:(apply NoDup_by_decide; by vm_compute))
    as (_ & _ & Hdel & _ & Hother).
  split.
  - apply Hdel. apply elem_of_by_decide. by vm_compute.
  - rewrite (Hother 2 "B"%string ltac:(lia)). by vm_compute.
Defined.

(** X7.  Added messages in the history path.  The page names no added id
    twice that can be read and that the store does not hold (the save
    rejects such a batch).  Every added id of the page is
    fetched, also an id that is already stored; the existence check comes
    after the fetch and keeps every saved record away from ids the store
    holds, for whatever user.  An added id that is not stored and not
    deleted by the same page is stored for the user when its fetch succeeds
    and is not when it fails.  The returned added ids are all the ids of the
    page, stored or not. *)
Theorem processHistoryRecords_stores_added u hr w c :
  (nonempty (newEmailIds_of hr) = true -> client_of (remote w) u = Ok c) ->
  NoDup (history_ids (store w) (remote w) u c hr) ->
  let p := processHistoryRecords u hr in
  let w' := (run p w).1 in
  let new := newEmailIds_of hr in
  (run p w).2 = Ok (new, deletedEmailIds_of hr) ∧
  fetches (performed p w) = map Some new ∧
  (forall rs e, rs ∈ saves (performed p w) -> e ∈ rs ->
     id e ∈ new ∧ userId e = u ∧ ¬ stored_id (store w) (id e)) ∧
  (forall i, i ∈ new -> ¬ stored_id (store w) i -> i ∉ deletedEmailIds_of hr ->
     match detail_of (remote w) c i with
     | Ok _ => is_Some (emails (store w') !! (u, i))
     | Err _ => emails (store w') !! (u, i) = None
     end).
Proof.
  intros Hc Hdist%distinct_history. cbv zeta.
  pose proof (run_processHistoryRecords u hr w c Hc Hdist) as Hrun.
  rewrite (performed_eq _ _ _ _ _ Hrun eq_refl), Hrun. cbn [fst snd store].
  split; [done |]. split; [apply fetches_history_calls |].
  rewrite saves_history_calls, history_store_emails. split.
  - intros rs e Hrs He.
    destruct (nonempty (history_rows (store w) (remote w) u c (newEmailIds_of hr)));
      [| by apply elem_of_nil in Hrs].
    apply list_elem_of_singleton in Hrs as ->.
    apply elem_of_history_rows in He as (Hi & Hf & Hn).
    destruct (fetched_history_Some _ _ _ _ _ Hf) as (_ & Hu & _). done.
  - intros i Hi Hns Hnd. rewrite lookup_delete_step. cbn [fst snd].
    rewrite decide_False by tauto. rewrite save_step_emails.
    destruct (detail_of (remote w) c i) as [d | err] eqn:Hd.
    + destruct (lookup_save_rows_in
                  (history_rows (store w) (remote w) u c (newEmailIds_of hr))
                  (store w) (u, i)) as (e' & _ & _ & ->); [| done].
      apply elem_of_List_map.
      exists (mkEmail i (Some (or_else (d_threadId d) ""))
                (nullish_else (d_snippet d) "") (nullish_else (d_internalDate d) "")
                (getHeader (headers_of d) "Subject") (getHeader (headers_of d) "From")
                u None None).
      split; [done |]. apply elem_of_history_rows. cbn [id].
      split; [done |]. split; [| done]. unfold fetched_history. by rewrite Hd.
    + rewrite lookup_save_rows_notin.
      * destruct (emails (store w) !! (u, i)) eqn:Hl; [| done].
        exfalso. apply Hns. exists u. by rewrite Hl.
      * intros (e & Hk & (_ & Hf & _)%elem_of_history_rows)%elem_of_List_map.
        destruct (fetched_history_Some _ _ _ _ _ Hf) as (Hid & _ & _ & d & Hd').
        unfold key_of in Hk. congruence.
Qed.

Lemma processHistoryRecords_stores_added_witness :
  fetches (performed (processHistoryRecords 1 Example.page_add_delete) Example.two_users)
    = [Some "m1"%string] ∧
  is_Some (emails (store (run (processHistoryRecords 1 Example.page_add_delete)
                            Example.two_users).1) !! (1, "m1"%string)).
Proof.
  destruct (processHistoryRecords_stores_added 1 Example.page_add_delete
              Example.two_users (mkClient 1) (fun _ => eq_refl)
              ltac:(apply NoDup_by_decide; by vm_compute))
    as (_ & Hf & _ & Hst).
  split; [exact Hf |].
  assert (Hns : ¬ stored_id (store Example.two_users) "m1").
  { rewrite stored_id_rows. apply not_elem_of_by_decide. by vm_compute. }
  exact (Hst "m1"%string ltac:(apply elem_of_by_decide; by vm_compute) Hns
           ltac:(apply not_elem_of_by_decide; by vm_compute)).
Defined.

Lemma elem_of_pushed_ids entries i :
  i ∈ pushed_ids entries <->
  truthy i = true ∧
  exists l e m, entries = Some l ∧ e ∈ l ∧ e_message e = Some m ∧ msg_id m = Some i.
Proof.
  unfold pushed_ids. destruct entries as [l |].
  - rewrite list_elem_of_In, in_flat_map. split.
    + intros (e & He%list_elem_of_In & Hi).
      destruct (e_message e) as [m |] eqn:Hm; [| done].
      destruct (msg_id m) as [j |] eqn:Hj; [| done].
      destruct (truthy j) eqn:Ht; [| done].
      destruct Hi as [<- | []]. split; [done |]. by exists l, e, m.
    + intros (Ht & l' & e & m & [= <-] & He & Hm & Hi).
      exists e. split; [by apply list_elem_of_In |].
      rewrite Hm, Hi, Ht. by left.
  - split; [by intros ?%elem_of_nil |]. by intros (_ & l & e & m & [=] & _).
Qed.

(** X8.  What a history page contributes.  An id is among the added
    (deleted) ids of a page exactly when it is the non-empty id of a message
    of an entry of [messagesAdded] ([messagesDeleted]) of one of the page's
    records; entries without a message, messages without an id or with an
    empty id, records without the list and a page without records contribute
    nothing. *)
Theorem history_ids_spec hr i :
  (i ∈ newEmailIds_of hr <->
     truthy i = true ∧
     exists records record l e m,
       history hr = Some records ∧ record ∈ records ∧
       messagesAdded record = Some l ∧ e ∈ l ∧
       e_message e = Some m ∧ msg_id m = Some i) ∧
  (i ∈ deletedEmailIds_of hr <->
     truthy i = true ∧
     exists records record l e m,
       history hr = Some records ∧ record ∈ records ∧
       messagesDeleted record = Some l ∧ e ∈ l ∧
       e_message e = Some m ∧ msg_id m = Some i).
Proof.
  unfold newEmailIds_of, deletedEmailIds_of.
  split; rewrite list_elem_of_In, in_flat_map; setoid_rewrite <- list_elem_of_In;
    setoid_rewrite elem_of_pushed_ids;
    (split;
     [ intros (record & Hr & Ht & l & e & m & Hl & He & Hm & Hi);
       split; [done |];
       destruct (history hr) as [records |]; [| by apply elem_of_nil in Hr];
       by exists records, record, l, e, m
     | intros (Ht & records & record & l & e & m & Hh & Hr & Hl & He & Hm & Hi);
       exists record; rewrite Hh; split; [done |]; split; [done |];
       by exists l, e, m ]).
Qed.

Lemma run_syncEmailsWithHistory_page u w h hr c :
  cursors (store w) !! u = Some h ->
  truthy h = true ->
  history_of (remote w) u (Some h) None None = Ok hr ->
  (nonempty (newEmailIds_of hr) = true -> client_of (remote w) u = Ok c) ->
  distinct_keys (history_rows (store w) (remote w) u c (newEmailIds_of hr)) = true ->
  run (syncEmailsWithHistory u) w =
  (mkWorld (history_store (store w) (remote w) u c hr) (remote w)
     (log w ++ [call_of (getLastHistoryId u);
                call_of (getMailboxHistory u (Some h) None None)]
            ++ history_calls (store w) (remote w) u c hr),
   Ok (newEmailIds_of hr, deletedEmailIds_of hr)).
Proof.
  intros Hcur Ht Hhist Hc Hd. unfold syncEmailsWithHistory.
  rewrite run_abind, run_call, exec_pure by done. cbn [outcome snd].
  rewrite Hcur. cbn [truthy_opt]. rewrite Ht. cbn [negb].
  rewrite run_abind, run_call, exec_pure by done. cbn [outcome snd].
  rewrite remote_logged, Hhist, logged_logged.
  rewrite run_abind, (run_processHistoryRecords u hr _ c) by done.
  rewrite run_resolve, store_logged, remote_logged, log_logged.
  by rewrite <- !app_assoc.
Qed.

(** X9.  An incremental sync resumes from the stored cursor.  With a
    non-empty cursor stored, [syncEmailsWithHistory] asks for the history
    once, from exactly that cursor and without a page token.  When the
    listing succeeds, with a page that names no added id twice that can be
    read and that the store does not hold (the save rejects such a batch,
    and the call with it, before the cursor is written), the call returns
    the ids of that page; afterwards the user's cursor is the history id
    the page reports when that is a non-empty string and is unchanged
    otherwise, and the cursors of other users are untouched. *)
Theorem syncEmailsWithHistory_resumes_from_cursor u w h hr c :
  cursors (store w) !! u = Some h ->
  truthy h = true ->
  history_of (remote w) u (Some h) None None = Ok hr ->
  (nonempty (newEmailIds_of hr) = true -> client_of (remote w) u = Ok c) ->
  NoDup (history_ids (store w) (remote w) u c hr) ->
  let p := syncEmailsWithHistory u in
  (run p w).2 = Ok (newEmailIds_of hr, deletedEmailIds_of hr) ∧
  history_requests (performed p w) = [(Some h, None)] ∧
  cursors (store (run p w).1) !! u = Some (cursor_after h hr) ∧
  (forall u', u' ≠ u -> cursors (store (run p w).1) !! u' = cursors (store w) !! u').
Proof.
  intros Hcur Ht Hhist Hc Hd%distinct_history. cbv zeta.
  pose proof (run_syncEmailsWithHistory_page u w h hr c Hcur Ht Hhist Hc Hd) as Hrun.
  rewrite (performed_eq _ _ _ _ _ Hrun eq_refl), Hrun. cbn [fst snd store].
  split; [done |]. split; [| split].
  - autorewrite with views. by rewrite history_requests_history_calls.
  - by apply history_store_cursor_lookup.
  - intros u' Hne. by apply history_store_cursor_other.
Qed.

Lemma syncEmailsWithHistory_resumes_from_cursor_witness :
  cursors (store (run (syncEmailsWithHistory 1) Example.two_users).1) !! 1
  = Some "200"%string.
Proof.
  exact (proj1 (proj2 (proj2 (syncEmailsWithHistory_resumes_from_cursor
           1 Example.two_users "100"%string Example.page_add_delete (mkClient 1)
           ltac:(by vm_compute) eq_refl eq_refl (fun _ => eq_refl)
           ltac:(apply NoDup_by_decide; by vm_compute))))).
Defined.

(** X10.  A cold start that cannot seed.  When no usable cursor is stored
    (none, or an empty string) and the profile reports no history id (none,
    or an empty string), [syncEmailsWithHistory] returns empty lists and
    stores nothing, so the next sync is a cold start again; when the profile
    request fails, the call rejects with that failure and stores nothing.
    In both cases no history is asked for. *)
Theorem cold_start_without_history_id u w :
  truthy_opt (cursors (store w) !! u) = false ->
  match profile_of (remote w) u with
  | Ok p => truthy_opt (p_historyId p) = false
  | Err _ => True
  end ->
  let prog := syncEmailsWithHistory u in
  (run prog w).2 =
    match profile_of (remote w) u with
    | Ok _ => Ok ([], [])
    | Err e => Err e
    end ∧
  store (run prog w).1 = store w ∧
  history_requests (performed prog w) = [] ∧
  cursor_writes (performed prog w) = [].
Proof.
  intros Hcur Hprof. cbv zeta.
  assert (Hrun : run (syncEmailsWithHistory u) w =
            (logged [call_of (getLastHistoryId u); call_of (getProfile u)] w,
             match profile_of (remote w) u with
             | Ok _ => Ok ([], [])
             | Err e => Err e
             end)).
  { unfold syncEmailsWithHistory.
    rewrite run_abind, run_call, exec_pure by done. cbn [outcome snd].
    rewrite Hcur. cbn [negb].
    rewrite run_abind, run_call, exec_pure by done. cbn [outcome snd].
    rewrite remote_logged, logged_logged.
    destruct (profile_of (remote w) u) as [p | e]; [| done].
    assert (or_null (p_historyId p) = None) as ->.
    { destruct (p_historyId p) as [x |]; [| done]. cbn in *. by rewrite Hprof. }
    by rewrite run_abind, !run_resolve. }
  by rewrite (performed_eq _ _ _ _ _ Hrun eq_refl), Hrun.
Qed.

Lemma cold_start_without_history_id_witness :
  (run (syncEmailsWithHistory 1) Example.no_cursor).2 = Ok ([], []) ∧
  store (run (syncEmailsWithHistory 1) Example.no_cursor).1 = Sample.empty_store.
Proof.
  destruct (cold_start_without_history_id 1 Example.no_cursor
              ltac:(by vm_compute) eq_refl) as (Hr & Hs & _).
  exact (conj Hr Hs).
Defined.

Lemma truthy_cursor_after h hr : truthy h = true -> truthy (cursor_after h hr) = true.
Proof.
  intros Ht. unfold cursor_after.
  destruct (historyId hr) as [x |]; [| done]. by destruct (truthy x) eqn:Hx.
Qed.

(** X11.  The first-sync branch looks for more pages from the advanced
    cursor.  After an incremental first sync processed a page (one that
    names no added id twice that can be read and that the store does not
    hold, so that its save is accepted), the handler
    reads the cursor again and asks for the history from it (the cursor the
    page left behind); the follow-up request, if any, carries the
    continuation token of that second listing, page counter 1 and the
    deleted ids of the processed page.  The client is notified once of the
    added and deleted ids of the processed page. *)
Theorem first_history_sync_follow_up u tok del w h hr hr2 c :
  cursors (store w) !! u = Some h ->
  truthy h = true ->
  history_of (remote w) u (Some h) None None = Ok hr ->
  (nonempty (newEmailIds_of hr) = true -> client_of (remote w) u = Ok c) ->
  NoDup (history_ids (store w) (remote w) u c hr) ->
  history_of (remote w) u (Some (cursor_after h hr)) None None = Ok hr2 ->
  let p := handleSyncOldEmails (mkSyncEvent u tok 0 del) in
  let changed := newEmailIds_of hr ++ deletedEmailIds_of hr in
  history_requests (performed p w) = [(Some h, None); (Some (cursor_after h hr), None)] ∧
  notified (performed p w) = (if nonempty changed then [(u, changed)] else []) ∧
  sync_requests (performed p w) =
    (if truthy_opt (nextPageToken hr2)
     then [mkSyncEvent u (nextPageToken hr2) 1 (Some (deletedEmailIds_of hr))]
     else []).
Proof.
  intros Hcur Ht Hhist Hc Hd%distinct_history Hhist2. cbv zeta.
  set (new := newEmailIds_of hr). set (deleted := deletedEmailIds_of hr).
  assert (Hrun : run (handleSyncOldEmails (mkSyncEvent u tok 0 del)) w =
    (mkWorld (history_store (store w) (remote w) u c hr) (remote w)
       (log w ++ [call_of (getLastHistoryId u);
                  call_of (getMailboxHistory u (Some h) None None)]
              ++ history_calls (store w) (remote w) u c hr
              ++ (if nonempty (new ++ deleted)
                  then [call_of (notifyNewEmails u (new ++ deleted))] else [])
              ++ (if nonempty new
                  then [call_of (emit (email_embedding (mkEmbeddingEvent u new 1)))]
                  else [])
              ++ [call_of (getLastHistoryId u);
                  call_of (getMailboxHistory u (Some (cursor_after h hr)) None None)]
              ++ (if truthy_opt (nextPageToken hr2)
                  then [call_of (sleep 1000);
                        call_of (emit (email_sync
                                   (mkSyncEvent u (nextPageToken hr2) 1 (Some deleted))))]
                  else [])),
     Ok tt)).
  { unfold handleSyncOldEmails. cbn [ev_pageCount ev_userId].
    change (0 =? 0)%float with true. cbv iota.
    rewrite run_try_catch. unfold first_history_sync.
    rewrite run_abind, (run_syncEmailsWithHistory_page u w h hr c) by done.
    fold new deleted.
    rewrite run_abind, run_when_pure by done.
    rewrite run_abind, run_when_pure by done.
    rewrite run_abind, run_call, exec_pure by done. cbn [outcome snd].
    rewrite !store_logged. cbn [store].
    rewrite (history_store_cursor_lookup _ _ _ _ _ h) by done.
    cbn [or_null]. rewrite truthy_cursor_after by done.
    rewrite run_abind, run_call, exec_pure by done. cbn [outcome snd].
    rewrite !remote_logged. cbn [remote]. rewrite Hhist2.
    destruct (truthy_opt (nextPageToken hr2)).
    - rewrite run_abind, run_call, exec_pure by done. cbn [outcome snd].
      rewrite run_call, exec_pure by done. cbn [outcome snd].
      rewrite !logged_logged. unfold logged. cbn [store remote log].
      by rewrite <- !app_assoc.
    - rewrite run_resolve, !logged_logged. unfold logged. cbn [store remote log].
      by rewrite <- !app_assoc. }
  rewrite (performed_eq _ _ _ _ _ Hrun eq_refl).
  autorewrite with views.
  rewrite history_requests_history_calls, notified_history_calls.
  unfold sync_requests at 2. rewrite emitted_history_calls.
  destruct (nonempty (new ++ deleted)), (nonempty new), (truthy_opt (nextPageToken hr2));
    done.
Qed.

Lemma first_history_sync_follow_up_witness :
  sync_requests (performed (handleSyncOldEmails (EmailSyncEvent3 1 None 0))
                   Example.two_users)
  = [mkSyncEvent 1 (Some "tok") 1 (Some ["B"%string])].
Proof.
  exact (proj2 (proj2 (first_history_sync_follow_up 1 None None Example.two_users
           "100"%string Example.page_add_delete Example.page_add_delete (mkClient 1)
           ltac:(by vm_compute) eq_refl eq_refl (fun _ => eq_refl)
           ltac:(apply NoDup_by_decide; by vm_compute) eq_refl))).
Defined.

(** ** The service, further *)

Lemma fetches_sync_calls u c tf valid del :
  fetches ([call_of (repo_find_user u)] ++ get_calls c tf ++ save_calls valid
             ++ delete_calls del u)
  = map msg_id tf.
Proof.
  autorewrite with views.
  rewrite fetches_get_calls, fetches_save_calls, fetches_delete_calls.
  cbn. by rewrite app_nil_r.
Qed.

Lemma deleted_ids_stored u s ms i :
  i ∈ deleted_ids u s ms -> is_Some (emails s !! (u, i)).
Proof. by intros [? _]%elem_of_deleted_ids. Qed.

(** X12.  In diff mode the pre-existence check is scoped to the user.  The
    remote list names no id twice that is new for the user and readable (the
    save rejects such a batch).  A listed message whose id is stored for the
    user is not fetched; one whose id is not stored for the user is fetched,
    whether or not another user holds that id, and is stored for the user
    when the fetch succeeds and left out when it fails.  The call resolves,
    and the returned new ids are exactly the ids that were not stored for
    the user before and are after. *)
Theorem syncEmailsWithDeletion_scoped_to_user u ms c w :
  NoDup (diff_ids (store w) (remote w) u c ms) ->
  let p := syncEmailsWithDeletion u ms c in
  let w' := (run p w).1 in
  exists new deleted,
    (run p w).2 = Ok (new, deleted) ∧
    (forall m i, m ∈ ms -> msg_id m = Some i ->
       match emails (store w) !! (u, i) with
       | Some _ => Some i ∉ fetches (performed p w)
       | None =>
           Some i ∈ fetches (performed p w) ∧
           match detail_of (remote w) c i with
           | Ok _ => is_Some (emails (store w') !! (u, i)) ∧ i ∈ new
           | Err _ => emails (store w') !! (u, i) = None ∧ i ∉ new
           end
       end) ∧
    (forall i, i ∈ new <->
       emails (store w) !! (u, i) = None ∧ is_Some (emails (store w') !! (u, i))).
Proof.
  intros Hdist%distinct_diff. cbv zeta.
  pose proof (run_syncEmailsWithDeletion u ms c w Hdist) as Hrun. cbv zeta in Hrun.
  rewrite (performed_eq _ _ _ _ _ Hrun eq_refl), Hrun. cbn [fst snd store].
  rewrite fetches_sync_calls.
  set (tf := to_fetch_user u (store w) ms) in *.
  set (valid := validEmails (remote w) u c tf) in *.
  set (del := deleted_ids u (store w) ms) in *.
  assert (Hafter : forall i, emails (store w) !! (u, i) = None ->
            emails (delete_step del u (save_step valid (store w))) !! (u, i)
            = emails (save_rows valid (store w)) !! (u, i)).
  { intros i Hnone. rewrite lookup_delete_step. cbn [fst snd].
    rewrite decide_False, save_step_emails; [done |].
    intros [_ Hs%deleted_ids_stored]. rewrite Hnone in Hs. by destruct Hs. }
  exists (map id valid), del. split; [done |]. split.
  - intros m i Hm Hi.
    destruct (emails (store w) !! (u, i)) as [b |] eqn:Hl.
    + intros (m' & Hi' & Hm')%elem_of_List_map.
      apply (elem_of_to_fetch_user _ _ _ _ _ Hi') in Hm' as [_ Hnone]. congruence.
    + assert (Htf : m ∈ tf) by (by apply (elem_of_to_fetch_user _ _ _ _ _ Hi)).
      split; [apply elem_of_List_map; by exists m |].
      rewrite (Hafter i Hl).
      destruct (detail_of (remote w) c i) as [d | err] eqn:Hd.
      * destruct (fetched_is_Some (remote w) u c m i d Hi Hd) as (e & He & Hk).
        assert (Hv : e ∈ valid) by (apply elem_of_validEmails; by exists m).
        assert (Hid : id e = i) by (unfold key_of in Hk; congruence).
        assert (Hin : i ∈ map id valid) by (apply elem_of_List_map; by exists e).
        split; [| done].
        destruct (lookup_save_rows_in valid (store w) (u, i)) as (e' & _ & _ & ->);
          [| done].
        by apply key_in_valid.
      * assert (Hnot : i ∉ map id valid).
        { intros (e & Hid & (m' & _ & Hf')%elem_of_validEmails)%elem_of_List_map.
          apply fetched_Some in Hf' as (i' & d' & _ & Hd' & Hid' & _). congruence. }
        split; [| done].
        rewrite lookup_save_rows_notin; [done |].
        by intros [_ ?]%key_in_valid.
  - intros i. split.
    + intros (e & <- & He)%elem_of_List_map.
      pose proof (valid_user_fresh _ _ _ _ _ _ He) as Hnone.
      split; [done |]. rewrite (Hafter _ Hnone).
      destruct (lookup_save_rows_in valid (store w) (u, id e)) as (e' & _ & _ & ->);
        [| done].
      apply key_in_valid. split; [done |]. apply elem_of_List_map. by exists e.
    + intros [Hnone Hsome]. rewrite (Hafter _ Hnone) in Hsome.
      destruct (decide ((u, i) ∈ map key_of valid)) as [Hin | Hnin].
      * by apply key_in_valid in Hin as [_ Hin].
      * rewrite lookup_save_rows_notin, Hnone in Hsome by done. by destruct Hsome.
Qed.

(** Message B is stored for user 2 only and is fetched and stored for user 3. *)
Lemma syncEmailsWithDeletion_scoped_to_user_witness :
  is_Some (emails (store (run (syncEmailsWithDeletion 3 [mkMessage (Some "B") None]
                                 (mkClient 3)) Example.two_users).1)
             !! (3, "B"%string)).
Proof.
  destruct (syncEmailsWithDeletion_scoped_to_user 3 [mkMessage (Some "B") None]
              (mkClient 3) Example.two_users
              ltac:(apply NoDup_by_decide; by vm_compute))
    as (new & deleted & _ & Hm & _).
  assert (H := Hm (mkMessage (Some "B") None) "B"%string
                  ltac:(repeat constructor) eq_refl).
  assert (Hl : emails (store Example.two_users) !! (3, "B"%string) = None)
    by (by vm_compute).
  rewrite Hl in H. exact (proj1 (proj2 H)).
Defined.

(** X13.  An empty remote list empties the user's mailbox.  Called with no
    messages, diff-mode reconciliation fetches nothing and leaves the user
    without any record; records of other users are untouched. *)
Theorem syncEmailsWithDeletion_empty_list u c w :
  let p := syncEmailsWithDeletion u [] c in
  let w' := (run p w).1 in
  fetches (performed p w) = [] ∧
  (forall i, emails (store w') !! (u, i) = None) ∧
  (forall u' i, u' ≠ u -> emails (store w') !! (u', i) = emails (store w) !! (u', i)).
Proof.
  cbv zeta.
  pose proof (run_syncEmailsWithDeletion u [] c w eq_refl) as Hrun. cbv zeta in Hrun.
  rewrite (performed_eq _ _ _ _ _ Hrun eq_refl), Hrun. cbn [fst snd store].
  rewrite fetches_sync_calls. split; [done |].
  change (validEmails (remote w) u c (to_fetch_user u (store w) [])) with (@nil Email).
  split.
  - intros i. rewrite lookup_delete_step. cbn [fst snd].
    destruct (emails (store w) !! (u, i)) as [b |] eqn:Hl.
    + rewrite decide_True; [done |]. split; [done |].
      apply elem_of_deleted_ids. split; [by rewrite Hl | by intros ?%elem_of_nil].
    + by destruct (decide _).
  - intros u' i Hne. rewrite lookup_delete_step. cbn [fst snd].
    by rewrite decide_False by (by intros [? _]).
Qed.

Lemma messagesToFetch_in s ms m : m ∈ messagesToFetch s ms -> m ∈ ms.
Proof. unfold messagesToFetch. rewrite elem_of_List_filter. tauto. Qed.

Lemma NoDup_map_eq {A B} (f : A -> B) (l : list A) x y :
  NoDup (map f l) -> x ∈ l -> y ∈ l -> f x = f y -> x = y.
Proof.
  induction l as [| a l IH]; [by intros _ ?%elem_of_nil |].
  cbn [map]. rewrite NoDup_cons, elem_of_List_map.
  intros [Hn Hl] [-> | Hx]%elem_of_cons [-> | Hy]%elem_of_cons Hf; [done | | |].
  - exfalso. apply Hn. by exists y.
  - exfalso. apply Hn. by exists x.
  - by apply IH.
Qed.

(** X14.  What a stored record carries.  In a candidate list that names no
    new readable id twice (the save rejects such a batch), a candidate that
    is not in the store and whose metadata can be read is stored for the
    calling user with the snippet and the internal date of the response (the
    empty string when absent), the values of its "Subject" and "From"
    headers, its thread id, and neither embedding nor summary. *)
Theorem processAndSaveBatch_record_content u ms c w m i d :
  NoDup (batch_ids (store w) (remote w) u c ms) ->
  m ∈ ms ->
  msg_id m = Some i ->
  ¬ stored_id (store w) i ->
  detail_of (remote w) c i = Ok d ->
  exists b,
    emails (store (run (processAndSaveBatch u ms c) w).1) !! (u, i) = Some b ∧
    b_snippet b = nullish_else (d_snippet d) "" ∧
    b_internalDate b = nullish_else (d_internalDate d) "" ∧
    b_subject b = getHeader (headers_of d) "Subject" ∧
    b_sender b = getHeader (headers_of d) "From" ∧
    b_threadId b = msg_threadId m ∧
    b_embedding b = None ∧ b_summary b = None.
Proof.
  intros Hdistinct Hm Hi Hns Hd.
  rewrite run_processAndSaveBatch by (by apply distinct_batch). cbn [fst store].
  unfold batch_ids in Hdistinct.
  set (tf := messagesToFetch (store w) ms) in *.
  set (valid := validEmails (remote w) u c tf) in *.
  assert (Htf : m ∈ tf) by (by apply (elem_of_messagesToFetch _ _ _ _ Hi)).
  pose (e := mkEmail i (msg_threadId m) (nullish_else (d_snippet d) "")
               (nullish_else (d_internalDate d) "")
               (getHeader (headers_of d) "Subject")
               (getHeader (headers_of d) "From") u None None).
  assert (He : e ∈ valid).
  { apply elem_of_validEmails. exists m. split; [done |].
    unfold fetched. by rewrite Hi, Hd. }
  assert (Hin : (u, i) ∈ map key_of valid).
  { apply elem_of_List_map. by exists e. }
  rewrite save_step_emails.
  destruct (lookup_save_rows_in valid (store w) (u, i) Hin) as (e' & He' & Hk' & ->).
  assert (e' = e) as ->.
  { apply (NoDup_map_eq id valid); [done | done | done |].
    unfold key_of in Hk'. cbn. congruence. }
  exists (body_of e). by cbn.
Qed.

Lemma processAndSaveBatch_record_content_witness :
  exists b,
    emails (store (run (processAndSaveBatch 1 [Sample.m1; Sample.m2] (mkClient 1))
                     Sample.fresh).1) !! (1, "m1"%string) = Some b ∧
    b_subject b = "Hi"%string ∧ b_sender b = "a@example.com"%string.
Proof.
  destruct (processAndSaveBatch_record_content 1 [Sample.m1; Sample.m2] (mkClient 1)
              Sample.fresh Sample.m1 "m1"%string Sample.detail_ok
              ltac:(apply NoDup_by_decide; by vm_compute)
              ltac:(repeat constructor) eq_refl (empty_store_fresh _) eq_refl)
    as (b & Hb & _ & _ & Hsub & Hsen & _).
  exists b. split; [exact Hb |]. split; [exact Hsub | exact Hsen].
Defined.

Lemma List_find_app_skip {A} (f : A -> bool) (pre post : list A) :
  (forall x, x ∈ pre -> f x = false) ->
  List.find f (pre ++ post) = List.find f post.
Proof.
  induction pre as [| x pre IH]; intros Hpre; [done |]. cbn.
  rewrite (Hpre x) by apply list_elem_of_here.
  apply IH. intros y Hy. apply Hpre. by apply list_elem_of_further.
Qed.

(** X15.  [getHeader] takes the first header of that name.  When no header
    has the name, the result is the empty string; otherwise it is the value
    of the first header with the name, or the empty string when that header
    has no value or an empty one, whatever headers follow. *)
Theorem getHeader_first_match name :
  (forall headers,
     (forall h, h ∈ headers -> h_name h ≠ Some name) ->
     getHeader headers name = ""%string) ∧
  (forall pre h post,
     (forall h', h' ∈ pre -> h_name h' ≠ Some name) ->
     h_name h = Some name ->
     getHeader (pre ++ h :: post) name = or_else (h_value h) "").
Proof.
  split.
  - intros headers Hno. unfold getHeader.
    rewrite <- (app_nil_r headers), List_find_app_skip; [done |].
    intros h Hh. apply bool_decide_eq_false. by apply Hno.
  - intros pre h post Hpre Hh. unfold getHeader.
    rewrite List_find_app_skip.
    + cbn. by rewrite bool_decide_eq_true_2.
    + intros h' Hh'. apply bool_decide_eq_false. by apply Hpre.
Qed.

Lemma getHeader_first_match_witness :
  getHeader [mkHeader (Some "Date") (Some "today");
             mkHeader (Some "Subject") (Some "first");
             mkHeader (Some "Subject") (Some "second")] "Subject" = "first"%string ∧
  getHeader [mkHeader (Some "Date") (Some "today")] "Subject" = ""%string.
Proof.
  split.
  - apply (proj2 (getHeader_first_match "Subject")
             [mkHeader (Some "Date") (Some "today")]
             (mkHeader (Some "Subject") (Some "first"))
             [mkHeader (Some "Subject") (Some "second")]); [| reflexivity].
    intros h' Hh'. apply list_elem_of_singleton in Hh'. by subst h'.
  - apply (proj1 (getHeader_first_match "Subject")).
    intros h Hh. apply list_elem_of_singleton in Hh. by subst h.
Defined.

Lemma length_List_filter_lt {A} (f : A -> bool) (l : list A) x :
  x ∈ l -> f x = false -> (length (List.filter f l) < length l)%nat.
Proof.
  induction l as [| y l IH]; [by intros ?%elem_of_nil |].
  intros Hx Hf. cbn.
  pose proof (List.filter_length_le f l) as Hle.
  apply elem_of_cons in Hx as [<- | Hx].
  - rewrite Hf. lia.
  - specialize (IH Hx Hf). destruct (f y); cbn; lia.
Qed.

(** X16.  Every batch of embeddings makes progress.  Called with at least
    one id, the call resolves; the returned ids are among the given ids and
    none of them belongs to a selected email; and the returned list is
    either empty or strictly shorter than the given one, so re-submitting
    the returned ids comes to an end. *)
Theorem generateEmbeddingsForEmails_makes_progress trim u ids w :
  ids ≠ [] ->
  exists remaining,
    (run (generateEmbeddingsForEmails trim u ids) w).2 = Ok remaining ∧
    (forall i, i ∈ remaining ->
       i ∈ ids ∧ i ∉ map id (query_no_embedding u ids BATCH_SIZE (store w))) ∧
    (remaining = [] ∨ (length remaining < length ids)%nat).
Proof.
  intros _. rewrite run_generateEmbeddingsForEmails. cbn [snd].
  set (sel := query_no_embedding u ids BATCH_SIZE (store w)).
  eexists. split; [done |].
  destruct sel as [| e sel'] eqn:Hsel; cbn [nonempty].
  - split; [by intros i ?%elem_of_nil | by left].
  - rewrite <- Hsel. unfold ids_minus_selected. split.
    + intros i [Hi Hn]%elem_of_List_filter. split; [done |].
      rewrite has_new_Set, negb_true_iff, bool_decide_eq_false in Hn. done.
    + right.
      assert (He : e ∈ sel) by (rewrite Hsel; apply list_elem_of_here).
      destruct (elem_of_query_no_embedding _ _ _ _ _ He) as (_ & _ & Hin & _).
      apply (length_List_filter_lt _ _ (id e) Hin).
      rewrite has_new_Set, negb_false_iff, bool_decide_eq_true.
      apply elem_of_List_map. by exists e.
Qed.

(** User 1 holds A, B and C, user 2 holds B: after a reconciliation of
    user 1 against the empty list, user 1 has no B and user 2 still has. *)
Lemma syncEmailsWithDeletion_empty_list_witness :
  emails (store (run (syncEmailsWithDeletion 1 [] (mkClient 1))
                   Example.two_users).1) !! (1, "B"%string) = None ∧
  emails (store (run (syncEmailsWithDeletion 1 [] (mkClient 1))
                   Example.two_users).1) !! (2, "B"%string)
  = emails (store Example.two_users) !! (2, "B"%string).
Proof.
  destruct (syncEmailsWithDeletion_empty_list 1 (mkClient 1) Example.two_users)
    as (_ & Hu & Ho).
  split; [apply Hu | apply Ho; lia].
Defined.

(** Ids ["A"; "Z"] for user 1 who holds A, B and C without embeddings. *)
Lemma generateEmbeddingsForEmails_makes_progress_witness :
  exists remaining,
    (run (generateEmbeddingsForEmails Sample.no_trim 1 ["A"; "Z"]%string)
       Sample.ABC_embedding).2 = Ok remaining ∧
    (remaining = [] ∨ (length remaining < 2)%nat).
Proof.
  destruct (generateEmbeddingsForEmails_makes_progress
              Sample.no_trim 1 ["A"; "Z"]%string Sample.ABC_embedding
              ltac:(discriminate))
    as (remaining & Hr & _ & Hlen).
  exists remaining. split; [exact Hr | exact Hlen].
Defined.

(** ** [syncFirstBatch] and [syncEmailsForUser] *)

Lemma valid_ids_newly_stored s r u c ms i :
  let valid := validEmails r u c (messagesToFetch s ms) in
  i ∈ map id valid <->
  emails s !! (u, i) = None ∧ is_Some (emails (save_rows valid s) !! (u, i)).
Proof.
  cbv zeta. set (valid := validEmails r u c (messagesToFetch s ms)). split.
  - intros (e & <- & He)%elem_of_List_map. split.
    + pose proof (valid_not_stored _ _ _ _ _ _ He) as Hns.
      destruct (emails s !! (u, id e)) eqn:Hl; [| done].
      exfalso. apply Hns. exists u. by rewrite Hl.
    + destruct (lookup_save_rows_in valid s (u, id e)) as (e' & _ & _ & ->); [| done].
      apply key_in_valid. split; [done |]. apply elem_of_List_map. by exists e.
  - intros [Hnone Hsome].
    destruct (decide ((u, i) ∈ map key_of valid)) as [Hin | Hnin].
    + by apply key_in_valid in Hin as [_ Hin].
    + rewrite lookup_save_rows_notin, Hnone in Hsome by done. by destruct Hsome.
Qed.

Lemma run_syncFirstBatch u w c lr :
  client_of (remote w) u = Ok c ->
  list_of (remote w) c 100 None = Ok lr ->
  let ms := default [] (l_messages lr) in
  let valid := validEmails (remote w) u c (messagesToFetch (store w) ms) in
  distinct_keys valid = true ->
  run (syncFirstBatch u) w =
  (mkWorld (save_step valid (store w)) (remote w)
     (log w ++ [call_of (getAuthenticatedGmailClient u); call_of (messages_list c 100 None)]
            ++ batch_calls (store w) (remote w) u c ms
            ++ (if nonempty (map id valid)
                then [call_of (emit (email_embedding
                                 (mkEmbeddingEvent u (map id valid) 1)))]
                else [])
            ++ (if nonempty ms && truthy_opt (l_nextPageToken lr)
                then [call_of (emit (email_sync
                                 (EmailSyncEvent3 u (l_nextPageToken lr) 1)))]
                else [])),
   Ok (map id valid)).
Proof.
  intros Hc Hl. cbv zeta. intros Hd. unfold syncFirstBatch.
  rewrite run_abind, run_call, exec_pure by done. cbn [outcome snd]. rewrite Hc.
  rewrite run_abind, run_call, exec_pure by done. cbn [outcome snd].
  rewrite remote_logged, Hl, logged_logged. cbn [app]. cbv zeta.
  destruct (nonempty (default [] (l_messages lr))) eqn:Hms; cbn [negb andb].
  - rewrite run_abind, run_processAndSaveBatch by done.
    rewrite store_logged, remote_logged, log_logged.
    rewrite run_abind, run_when_pure by done.
    rewrite run_abind, run_when_pure by done.
    rewrite run_resolve, !logged_logged. unfold logged. cbn [store remote log].
    by rewrite <- !app_assoc.
  - apply nonempty_false in Hms. rewrite Hms, run_resolve.
    unfold logged. cbn. by destruct w as [[] ? ?].
Qed.

(** When the save of the first batch is rejected, the call rejects: nothing
    is stored and no event is emitted. *)
Lemma run_syncFirstBatch_rejected u w c lr :
  client_of (remote w) u = Ok c ->
  list_of (remote w) c 100 None = Ok lr ->
  let ms := default [] (l_messages lr) in
  let valid := validEmails (remote w) u c (messagesToFetch (store w) ms) in
  distinct_keys valid = false ->
  run (syncFirstBatch u) w =
  (logged ([call_of (getAuthenticatedGmailClient u); call_of (messages_list c 100 None)]
             ++ batch_calls (store w) (remote w) u c ms) w,
   Err duplicate_key).
Proof.
  intros Hc Hl. cbv zeta. intros Hd. unfold syncFirstBatch.
  assert (Hms : nonempty (default [] (l_messages lr)) = true).
  { pose proof (distinct_keys_nonempty _ Hd) as Hv.
    by destruct (default [] (l_messages lr)). }
  rewrite run_abind, run_call, exec_pure by done. cbn [outcome snd]. rewrite Hc.
  rewrite run_abind, run_call, exec_pure by done. cbn [outcome snd].
  rewrite remote_logged, Hl, logged_logged. cbn [app]. cbv zeta.
  rewrite Hms. cbn [negb].
  rewrite run_abind, run_processAndSaveBatch_rejected by done.
  by rewrite store_logged, remote_logged, logged_logged.
Qed.

(** X17.  The first batch.  When the client request and the listing
    succeed, with a listing that names no new readable id twice (the save
    rejects such a batch), [syncFirstBatch] lists once, without a page token, and returns
    exactly the ids that were not stored for the user before and are after;
    it emits one embedding request for the returned ids when there are any,
    and one follow-up sync request with the continuation token and page
    counter 1 when the listing has messages and carries a token.  A listing
    without messages leads to no event, token or not. *)
Theorem syncFirstBatch_events u w c lr :
  client_of (remote w) u = Ok c ->
  list_of (remote w) c 100 None = Ok lr ->
  NoDup (batch_ids (store w) (remote w) u c (default [] (l_messages lr))) ->
  let p := syncFirstBatch u in
  let w' := (run p w).1 in
  exists ids,
    (run p w).2 = Ok ids ∧
    (forall i, i ∈ ids <->
       emails (store w) !! (u, i) = None ∧ is_Some (emails (store w') !! (u, i))) ∧
    listings (performed p w) = [None] ∧
    emitted (performed p w) =
      (if nonempty ids then [email_embedding (mkEmbeddingEvent u ids 1)] else []) ++
      (if nonempty (default [] (l_messages lr)) && truthy_opt (l_nextPageToken lr)
       then [email_sync (EmailSyncEvent3 u (l_nextPageToken lr) 1)] else []).
Proof.
  intros Hc Hl Hd%distinct_batch. cbv zeta.
  pose proof (run_syncFirstBatch u w c lr Hc Hl Hd) as Hrun. cbv zeta in Hrun.
  rewrite (performed_eq _ _ _ _ _ Hrun eq_refl), Hrun. cbn [fst snd store].
  eexists. split; [done |]. split; [| split].
  - intros i. rewrite save_step_emails. apply valid_ids_newly_stored.
  - autorewrite with views. rewrite listings_batch_calls.
    by destruct (nonempty (map id _)), (nonempty (default [] (l_messages lr)) && _).
  - autorewrite with views. rewrite emitted_batch_calls.
    by destruct (nonempty (map id _)), (nonempty (default [] (l_messages lr)) && _).
Qed.

Lemma syncFirstBatch_events_witness :
  exists ids,
    (run (syncFirstBatch 1) Sample.fresh).2 = Ok ids ∧
    emitted (performed (syncFirstBatch 1) Sample.fresh) =
      (if nonempty ids then [email_embedding (mkEmbeddingEvent 1 ids 1)] else []) ++
      [email_sync (EmailSyncEvent3 1 (Some "next") 1)].
Proof.
  destruct (syncFirstBatch_events 1 Sample.fresh (mkClient 1)
              (mkListRes (Some [Sample.m1; Sample.m2]) (Some "next"))
              eq_refl eq_refl ltac:(apply NoDup_by_decide; by vm_compute))
    as (ids & Hr & _ & _ & He).
  exists ids. split; [exact Hr | exact He].
Defined.

Lemma run_syncFirstBatch_failure u w e :
  (client_of (remote w) u = Err e ∨
   exists c, client_of (remote w) u = Ok c ∧ list_of (remote w) c 100 None = Err e) ->
  exists cs,
    run (syncFirstBatch u) w = (logged cs w, Err e) ∧
    fetches cs = [] ∧ emitted cs = [].
Proof.
  intros [Hc | (c & Hc & Hl)]; unfold syncFirstBatch.
  - exists [call_of (getAuthenticatedGmailClient u)]. split; [| done].
    rewrite run_abind, run_call, exec_pure by done. cbn [outcome snd]. by rewrite Hc.
  - exists [call_of (getAuthenticatedGmailClient u); call_of (messages_list c 100 None)].
    split; [| done].
    rewrite run_abind, run_call, exec_pure by done. cbn [outcome snd]. rewrite Hc.
    rewrite run_abind, run_call, exec_pure by done. cbn [outcome snd].
    by rewrite remote_logged, Hl, logged_logged.
Qed.

(** X18.  [syncFirstBatch] does not catch failures.  When the client request
    or the listing fails, the call rejects with that failure; nothing is
    stored and no event is emitted. *)
Theorem syncFirstBatch_failure u w e :
  (client_of (remote w) u = Err e ∨
   exists c, client_of (remote w) u = Ok c ∧ list_of (remote w) c 100 None = Err e) ->
  let p := syncFirstBatch u in
  (run p w).2 = Err e ∧
  store (run p w).1 = store w ∧
  fetches (performed p w) = [] ∧
  emitted (performed p w) = [].
Proof.
  intros Hfail. cbv zeta.
  destruct (run_syncFirstBatch_failure u w e Hfail) as (cs & Hrun & Hf & He).
  by rewrite (performed_eq _ _ _ _ _ Hrun eq_refl), Hrun.
Qed.

Lemma syncFirstBatch_failure_witness :
  (run (syncFirstBatch 1) Example.two_users_unreachable).2 = Err AuthError.
Proof.
  exact (proj1 (syncFirstBatch_failure 1 Example.two_users_unreachable AuthError
                  (or_introl eq_refl))).
Defined.

Lemma listings_get_id_calls c ids : listings (get_id_calls c ids) = [].
Proof. by induction ids. Qed.

Lemma listings_delete_calls ids u : listings (delete_calls ids u) = [].
Proof. unfold delete_calls. by destruct (nonempty ids). Qed.

Lemma listings_cursor_calls u h : listings (cursor_calls u h) = [].
Proof. unfold cursor_calls. destruct h as [x |]; [by destruct (truthy x) | done]. Qed.

Lemma listings_history_calls s r u c hr : listings (history_calls s r u c hr) = [].
Proof.
  unfold history_calls. cbv zeta. autorewrite with views.
  rewrite listings_delete_calls, listings_cursor_calls.
  destruct (nonempty (newEmailIds_of hr)); [| done].
  change (?x :: ?l) with ([x] ++ l). autorewrite with views.
  rewrite listings_get_id_calls.
  destruct (nonempty (non_null _)); [| done].
  change (?x :: ?l) with ([x] ++ l). autorewrite with views.
  by rewrite listings_save_calls.
Qed.

Lemma listings_page_tail_calls u hr del : listings (page_tail_calls u hr del) = [].
Proof.
  unfold page_tail_calls. cbv zeta. autorewrite with views.
  destruct (nonempty (_ ++ _)), (nonempty (newEmailIds_of hr)),
    (truthy_opt (nextPageToken hr));
    rewrite ?listings_cursor_calls; done.
Qed.

Lemma history_requests_page_tail_calls u hr del :
  history_requests (page_tail_calls u hr del) = [].
Proof.
  unfold page_tail_calls. cbv zeta. autorewrite with views.
  destruct (nonempty (_ ++ _)), (nonempty (newEmailIds_of hr)),
    (truthy_opt (nextPageToken hr));
    rewrite ?history_requests_cursor_calls; done.
Qed.

(** What the handler does with a request of page counter 1 and a token, in
    every world. *)
Lemma history_page_requests u tok del w :
  truthy_opt tok = true ->
  let p := handleSyncOldEmails (mkSyncEvent u tok 1 del) in
  listings (performed p w) = [] ∧
  history_requests (performed p w) = [(None, tok)].
Proof.
  intros Htok. cbv zeta.
  assert (Hok : forall hr c,
            history_of (remote w) u None (Some 100) tok = Ok hr ->
            (nonempty (newEmailIds_of hr) = true -> client_of (remote w) u = Ok c) ->
            distinct_keys (history_rows (store w) (remote w) u c (newEmailIds_of hr))
              = true ->
            listings (performed (handleSyncOldEmails (mkSyncEvent u tok 1 del)) w) = [] ∧
            history_requests (performed (handleSyncOldEmails (mkSyncEvent u tok 1 del)) w)
              = [(None, tok)]).
  { intros hr c Hh Hc Hd.
    pose proof (run_history_page_sync u tok del w hr c Hh Hc Hd) as Hpage.
    cbv zeta in Hpage.
    assert (Hrun : run (handleSyncOldEmails (mkSyncEvent u tok 1 del)) w =
                   run (history_page_sync u tok del) w).
    { rewrite run_handle_history_page, run_try_catch by done. by rewrite Hpage. }
    rewrite (performed_eq _ _ _ _ _ (eq_trans Hrun Hpage) eq_refl).
    autorewrite with views.
    by rewrite listings_history_calls, listings_page_tail_calls,
      history_requests_history_calls, history_requests_page_tail_calls. }
  destruct (history_of (remote w) u None (Some 100) tok) as [hr | e] eqn:Hh.
  - destruct (nonempty (newEmailIds_of hr)) eqn:Hnew;
      [destruct (client_of (remote w) u) as [c | e] eqn:Hc |].
    + destruct (distinct_keys (history_rows (store w) (remote w) u c (newEmailIds_of hr)))
        eqn:Hd.
      * by apply (Hok hr c).
      * pose proof (run_history_page_sync_rejected u tok del w hr c Hh Hc Hd) as Hpage.
        cbv zeta in Hpage.
        assert (Hrun : run (handleSyncOldEmails (mkSyncEvent u tok 1 del)) w =
                  (logged ([call_of (getMailboxHistory u None (Some 100) tok)]
                     ++ call_of (getAuthenticatedGmailClient u)
                     :: get_id_calls c (newEmailIds_of hr)
                     ++ [call_of (repo_find_id_in (map (fun e => Some (id e))
                            (non_null (map (fetched_history (remote w) u c)
                               (newEmailIds_of hr)))));
                         call_of (repo_save (history_rows (store w) (remote w) u c
                                    (newEmailIds_of hr)))]) w, Ok tt)).
        { rewrite run_handle_history_page, run_try_catch by done. by rewrite Hpage. }
        rewrite (performed_eq _ _ _ _ _ Hrun eq_refl).
        change (?x :: ?l ++ ?l') with ([x] ++ l ++ l'). autorewrite with views.
        by rewrite listings_get_id_calls, history_requests_get_id_calls.
    + assert (Hrun : run (handleSyncOldEmails (mkSyncEvent u tok 1 del)) w =
                (logged [call_of (getMailboxHistory u None (Some 100) tok);
                         call_of (getAuthenticatedGmailClient u)] w, Ok tt)).
      { rewrite run_handle_history_page, run_try_catch by done. unfold history_page_sync.
        rewrite run_abind, run_call, exec_pure by done. cbn [outcome snd]. rewrite Hh.
        rewrite run_abind, (run_processHistoryRecords_Err _ _ _ e) by done.
        by rewrite logged_logged. }
      by rewrite (performed_eq _ _ _ _ _ Hrun eq_refl).
    + apply (Hok hr (mkClient u)); [done | congruence |].
      by apply distinct_history_rows_nil.
  - assert (Hrun : run (handleSyncOldEmails (mkSyncEvent u tok 1 del)) w =
              (logged [call_of (getMailboxHistory u None (Some 100) tok)] w, Ok tt)).
    { rewrite run_handle_history_page, run_try_catch by done. unfold history_page_sync.
      rewrite run_abind, run_call, exec_pure by done. cbn [outcome snd]. by rewrite Hh. }
    by rewrite (performed_eq _ _ _ _ _ Hrun eq_refl).
Qed.

Lemma sync_requests_syncFirstBatch u w e :
  e ∈ sync_requests (performed (syncFirstBatch u) w) ->
  exists tok, e = mkSyncEvent u tok 1 None ∧ truthy_opt tok = true.
Proof.
  destruct (client_of (remote w) u) as [c | err] eqn:Hc.
  - destruct (list_of (remote w) c 100 None) as [lr | err] eqn:Hl.
    + destruct (distinct_keys (validEmails (remote w) u c
                    (messagesToFetch (store w) (default [] (l_messages lr))))) eqn:Hd.
      * pose proof (run_syncFirstBatch u w c lr Hc Hl Hd) as Hrun. cbv zeta in Hrun.
        rewrite (performed_eq _ _ _ _ _ Hrun eq_refl).
        autorewrite with views. rewrite sync_requests_batch_calls.
        destruct (nonempty (map id _)); cbn [app];
          (destruct (nonempty (default [] (l_messages lr))); cbn [andb];
           [destruct (truthy_opt (l_nextPageToken lr)) eqn:Ht |]);
          cbn; intros He; try (by apply elem_of_nil in He);
          apply list_elem_of_singleton in He as ->; by eexists.
      * pose proof (run_syncFirstBatch_rejected u w c lr Hc Hl Hd) as Hrun.
        cbv zeta in Hrun.
        rewrite (performed_eq _ _ _ _ _ Hrun eq_refl).
        autorewrite with views. rewrite sync_requests_batch_calls.
        by intros ?%elem_of_nil.
    + destruct (run_syncFirstBatch_failure u w err) as (cs & Hrun & _ & Hem);
        [right; by exists c |].
      rewrite (performed_eq _ _ _ _ _ Hrun eq_refl).
      unfold sync_requests. rewrite Hem. by intros ?%elem_of_nil.
  - destruct (run_syncFirstBatch_failure u w err) as (cs & Hrun & _ & Hem); [by left |].
    rewrite (performed_eq _ _ _ _ _ Hrun eq_refl).
    unfold sync_requests. rewrite Hem. by intros ?%elem_of_nil.
Qed.

(** X19.  The follow-up of the first batch is handled as a history page.
    Every sync request [syncFirstBatch] emits has page counter 1 and a
    non-empty token, the continuation token of [messages.list]; whatever the
    world it is handled in, the listener hands that token to
    [getMailboxHistory] as a page token, once, and never calls
    [messages.list] for it. *)
Theorem first_batch_follow_up_is_history_page u w e w2 :
  e ∈ sync_requests (performed (syncFirstBatch u) w) ->
  let p := handleSyncOldEmails e in
  ev_pageCount e = 1%float ∧
  listings (performed p w2) = [] ∧
  history_requests (performed p w2) = [(None, ev_pageToken e)].
Proof.
  intros (tok & -> & Htok)%sync_requests_syncFirstBatch. cbv zeta.
  split; [done |]. by apply history_page_requests.
Qed.

Lemma first_batch_follow_up_is_history_page_witness :
  history_requests
    (performed (handleSyncOldEmails (EmailSyncEvent3 1 (Some "next") 1)) Sample.with_cursor)
  = [(None, Some "next"%string)].
Proof.
  refine (proj2 (proj2 (first_batch_follow_up_is_history_page 1 Sample.fresh
            (EmailSyncEvent3 1 (Some "next") 1) Sample.with_cursor _))).
  assert (H : sync_requests (performed (syncFirstBatch 1) Sample.fresh)
              = [EmailSyncEvent3 1 (Some "next") 1]) by (by vm_compute).
  rewrite H. apply list_elem_of_here.
Defined.

(** X20.  [syncEmailsForUser] only originates the sync.  When the client
    request and the listing succeed, it returns the latest 20 of the records
    the store holds for the user at that moment, leaves the store as it was
    and fetches no message; when the listing has at least one message it
    emits exactly one sync request, with page counter 0 and the listing's
    continuation token (absent or not), and none when the listing is
    empty. *)
Theorem syncEmailsForUser_originates_sync latest u w c lr :
  client_of (remote w) u = Ok c ->
  list_of (remote w) c 100 None = Ok lr ->
  let p := syncEmailsForUser latest u in
  (run p w).2 = Ok (latest 20%nat (find_user u (store w))) ∧
  store (run p w).1 = store w ∧
  fetches (performed p w) = [] ∧
  emitted (performed p w) =
    (if nonempty (default [] (l_messages lr))
     then [email_sync (EmailSyncEvent3 u (l_nextPageToken lr) 0)] else []).
Proof.
  intros Hc Hl. cbv zeta.
  assert (Hrun : run (syncEmailsForUser latest u) w =
    (logged ([call_of (getAuthenticatedGmailClient u); call_of (messages_list c 100 None)]
             ++ (if nonempty (default [] (l_messages lr))
                 then [call_of (emit (email_sync
                                  (EmailSyncEvent3 u (l_nextPageToken lr) 0)))]
                 else [])
             ++ [call_of (repo_find_user u)]) w,
     Ok (latest 20%nat (find_user u (store w))))).
  { unfold syncEmailsForUser.
    rewrite run_abind, run_call, exec_pure by done. cbn [outcome snd]. rewrite Hc.
    rewrite run_abind, run_call, exec_pure by done. cbn [outcome snd].
    rewrite remote_logged, Hl. cbv zeta.
    rewrite run_abind, run_when_pure by done.
    rewrite run_abind, run_call, exec_pure by done. cbn [outcome snd].
    rewrite run_resolve, !logged_logged, !store_logged. by rewrite <- ?app_assoc. }
  rewrite (performed_eq _ _ _ _ _ Hrun eq_refl), Hrun. cbn [fst snd].
  split; [done |]. split; [done |].
  autorewrite with views.
  by destruct (nonempty (default [] (l_messages lr))).
Qed.

Lemma syncEmailsForUser_originates_sync_witness :
  emitted (performed (syncEmailsForUser Example.first_n 1) Example.two_users)
  = [email_sync (EmailSyncEvent3 1 (Some "next") 0)].
Proof.
  exact (proj2 (proj2 (proj2 (syncEmailsForUser_originates_sync Example.first_n 1
           Example.two_users (mkClient 1)
           (mkListRes (Some [Sample.m1; Sample.m2]) (Some "next"))
           eq_refl eq_refl)))).
Defined.

(** ** [syncDeletedEmails] *)

Lemma run_gone_remotely c i w :
  run (gone_remotely c i) w =
  (logged [call_of (messages_get c (Some i))] w,
   Ok (match detail_of (remote w) c i with
       | Ok _ => false
       | Err e => is_404 e
       end)).
Proof.
  unfold gone_remotely. rewrite run_try_catch, run_abind, run_call.
  rewrite exec_pure by done. cbn [outcome snd].
  by destruct (detail_of (remote w) c i).
Qed.

Lemma run_check_each c ids w :
  run (check_each c ids) w =
  (logged (get_id_calls c ids) w, Ok (gone_ids (remote w) c ids)).
Proof.
  revert w. induction ids as [| i ids IH]; intros w.
  - cbn. by rewrite logged_nil.
  - cbn [check_each]. rewrite run_abind, run_gone_remotely, run_abind, IH, run_resolve.
    rewrite logged_logged, remote_logged. cbn [gone_ids List.filter].
    by destruct (detail_of (remote w) c i) as [d | e]; [| destruct (is_404 e)].
Qed.

Lemma run_syncDeletedEmails u w c :
  client_of (remote w) u = Ok c ->
  let ids := map id (find_user u (store w)) in
  let gone := gone_ids (remote w) c ids in
  run (syncDeletedEmails u) w =
  (mkWorld (delete_step gone u (store w)) (remote w)
     (log w ++ [call_of (getAuthenticatedGmailClient u); call_of (repo_find_user u)]
            ++ get_id_calls c ids ++ delete_calls gone u),
   Ok gone).
Proof.
  intros Hc. cbv zeta. unfold syncDeletedEmails.
  rewrite run_abind, run_call, exec_pure by done. cbn [outcome snd]. rewrite Hc.
  rewrite run_abind, run_call, exec_pure by done. cbn [outcome snd].
  rewrite store_logged, logged_logged. cbn [app].
  destruct (nonempty (find_user u (store w))) eqn:Hdb; cbn [negb].
  - cbv zeta. rewrite run_abind, run_check_each, remote_logged.
    rewrite run_abind, run_delete_step, run_resolve. cbn [store remote log logged].
    by rewrite <- !app_assoc.
  - apply nonempty_false in Hdb. rewrite Hdb, run_resolve.
    unfold logged. cbn. by destruct w as [[] ? ?].
Qed.

Lemma is_404_NotFound e : is_404 e = true <-> e = NotFound.
Proof. by destruct e. Qed.

Lemma elem_of_gone_ids r c ids i :
  i ∈ gone_ids r c ids <-> i ∈ ids ∧ detail_of r c i = Err NotFound.
Proof.
  unfold gone_ids. rewrite elem_of_List_filter.
  destruct (detail_of r c i) as [d | e]; [naive_solver |].
  rewrite is_404_NotFound. naive_solver.
Qed.

Lemma elem_of_user_ids u s i :
  i ∈ map id (find_user u s) <-> is_Some (emails s !! (u, i)).
Proof.
  rewrite elem_of_List_map. split.
  - intros (e & <- & [_ He]%elem_of_find_user). by rewrite He.
  - intros [b Hb]. exists (row_of (u, i) b). split; [done |].
    apply elem_of_find_user. split; [done |]. by rewrite body_of_row_of.
Qed.

(** X21.  [syncDeletedEmails] removes what is gone remotely, and only that.
    With a client at hand, one [messages.get] is made for each record of the
    user and for nothing else; the returned ids are exactly the ids of the
    user's records whose request fails with status 404, and these records
    are removed; a record whose request succeeds or fails for another reason
    is kept as it was, and records of other users are untouched. *)
Theorem syncDeletedEmails_removes_gone u w c :
  client_of (remote w) u = Ok c ->
  let p := syncDeletedEmails u in
  let w' := (run p w).1 in
  exists deleted,
    (run p w).2 = Ok deleted ∧
    (forall i, Some i ∈ fetches (performed p w) <-> is_Some (emails (store w) !! (u, i))) ∧
    (forall i, i ∈ deleted <->
       is_Some (emails (store w) !! (u, i)) ∧ detail_of (remote w) c i = Err NotFound) ∧
    (forall i, emails (store w') !! (u, i) =
       match detail_of (remote w) c i with
       | Err NotFound => None
       | _ => emails (store w) !! (u, i)
       end) ∧
    (forall u' i, u' ≠ u -> emails (store w') !! (u', i) = emails (store w) !! (u', i)).
Proof.
  intros Hc. cbv zeta.
  pose proof (run_syncDeletedEmails u w c Hc) as Hrun. cbv zeta in Hrun.
  rewrite (performed_eq _ _ _ _ _ Hrun eq_refl), Hrun. cbn [fst snd store].
  set (ids := map id (find_user u (store w))) in *.
  set (gone := gone_ids (remote w) c ids) in *.
  assert (Hgone : forall i, i ∈ gone <->
            is_Some (emails (store w) !! (u, i)) ∧ detail_of (remote w) c i = Err NotFound).
  { intros i. unfold gone. rewrite elem_of_gone_ids. unfold ids.
    by rewrite elem_of_user_ids. }
  exists gone. split; [done |]. split; [| split; [done | split]].
  - intros i. autorewrite with views.
    rewrite fetches_get_id_calls, fetches_delete_calls. cbn [fetches flat_map app projT2 call_of].
    rewrite app_nil_r, <- elem_of_user_ids. fold ids.
    rewrite !elem_of_List_map. split.
    + intros (j & [= ->] & Hj). done.
    + intros Hi. by exists i.
  - intros i. rewrite lookup_delete_step. cbn [fst snd].
    destruct (decide (u = u ∧ i ∈ gone)) as [[_ Hin] | Hnin].
    + apply Hgone in Hin as [_ ->]. done.
    + destruct (detail_of (remote w) c i) as [d | e] eqn:Hd; [done |].
      destruct e; try done.
      destruct (emails (store w) !! (u, i)) as [b |] eqn:Hl; [| done].
      exfalso. apply Hnin. split; [done |]. apply Hgone. by rewrite Hl.
  - intros u' i Hne. rewrite lookup_delete_step. cbn [fst snd].
    by rewrite decide_False by (by intros [? _]).
Qed.

(** User 1 holds A (gone, 404), B (readable) and C (rate limited): only A
    is removed. *)
Lemma syncDeletedEmails_removes_gone_witness :
  (run (syncDeletedEmails 1) Example.two_users).2 = Ok ["A"%string] ∧
  emails (store (run (syncDeletedEmails 1) Example.two_users).1) !! (1, "C"%string)
  = Some Sample.body0.
Proof.
  destruct (syncDeletedEmails_removes_gone 1 Example.two_users (mkClient 1) eq_refl)
    as (deleted & Hr & _ & _ & Hl & _).
  split; [by vm_compute |].
  rewrite (Hl "C"%string). by vm_compute.
Defined.

(** X22.  [syncDeletedEmails] without a client or without records.  When
    the client request fails the call rejects and nothing else happens; when
    the user has no record, no message is requested and nothing is deleted. *)
Theorem syncDeletedEmails_nothing_to_check u w :
  (forall e, client_of (remote w) u = Err e ->
     (run (syncDeletedEmails u) w).2 = Err e ∧
     performed (syncDeletedEmails u) w = [call_of (getAuthenticatedGmailClient u)]) ∧
  (forall c, client_of (remote w) u = Ok c ->
     (forall i, emails (store w) !! (u, i) = None) ->
     (run (syncDeletedEmails u) w).2 = Ok [] ∧
     fetches (performed (syncDeletedEmails u) w) = [] ∧
     deletions (performed (syncDeletedEmails u) w) = []).
Proof.
  split.
  - intros e Hc.
    assert (Hrun : run (syncDeletedEmails u) w =
              (logged [call_of (getAuthenticatedGmailClient u)] w, Err e)).
    { unfold syncDeletedEmails.
      rewrite run_abind, run_call, exec_pure by done. cbn [outcome snd]. by rewrite Hc. }
    by rewrite (performed_eq _ _ _ _ _ Hrun eq_refl), Hrun.
  - intros c Hc Hnone.
    pose proof (run_syncDeletedEmails u w c Hc) as Hrun. cbv zeta in Hrun.
    assert (Hids : map id (find_user u (store w)) = []).
    { apply elem_of_nil_inv. intros i Hi%elem_of_user_ids.
      rewrite Hnone in Hi. by destruct Hi. }
    rewrite Hids in Hrun.
    by rewrite (performed_eq _ _ _ _ _ Hrun eq_refl), Hrun.
Qed.

Lemma syncDeletedEmails_nothing_to_check_witness :
  (run (syncDeletedEmails 1) Example.two_users_unreachable).2 = Err AuthError ∧
  (run (syncDeletedEmails 1) Sample.fresh).2 = Ok [].
Proof.
  split.
  - exact (proj1 (proj1 (syncDeletedEmails_nothing_to_check 1
                           Example.two_users_unreachable) AuthError eq_refl)).
  - exact (proj1 (proj2 (syncDeletedEmails_nothing_to_check 1 Sample.fresh)
                    (mkClient 1) eq_refl (fun i => lookup_empty _))).
Defined.

(** ** Who moves the cursor *)

(** X23.  Only the history path moves the cursor.  Whatever the remote side
    answers, the cursors of all users are the same before and after a call
    of [processAndSaveBatch], [syncEmailsWithDeletion],
    [generateEmbeddingsForEmails], [syncFirstBatch] or [syncDeletedEmails],
    and after the listener handled a list-page request (page counter other
    than 0 and 1). *)
Theorem cursor_untouched_outside_history_path w :
  (forall u ms c,
     cursors (store (run (processAndSaveBatch u ms c) w).1) = cursors (store w)) ∧
  (forall u ms c,
     cursors (store (run (syncEmailsWithDeletion u ms c) w).1) = cursors (store w)) ∧
  (forall trim u ids,
     cursors (store (run (generateEmbeddingsForEmails trim u ids) w).1)
     = cursors (store w)) ∧
  (forall u, cursors (store (run (syncFirstBatch u) w).1) = cursors (store w)) ∧
  (forall u, cursors (store (run (syncDeletedEmails u) w).1) = cursors (store w)) ∧
  (forall payload,
     (ev_pageCount payload =? 0)%float = false ->
     (ev_pageCount payload =? 1)%float = false ->
     cursors (store (run (handleSyncOldEmails payload) w).1) = cursors (store w)).
Proof.
  split; [| split; [| split; [| split; [| split]]]].
  - intros u ms c.
    destruct (distinct_keys (validEmails (remote w) u c (messagesToFetch (store w) ms)))
      eqn:Hd.
    + rewrite run_processAndSaveBatch by done. apply save_step_cursors.
    + by rewrite run_processAndSaveBatch_rejected.
  - intros u ms c.
    destruct (distinct_keys (validEmails (remote w) u c (to_fetch_user u (store w) ms)))
      eqn:Hd.
    + rewrite run_syncEmailsWithDeletion by done. cbn [fst store].
      by rewrite delete_step_cursors, save_step_cursors.
    + by rewrite run_syncEmailsWithDeletion_rejected.
  - intros trim u ids. rewrite run_generateEmbeddingsForEmails. apply save_step_cursors.
  - intros u.
    destruct (client_of (remote w) u) as [c | e] eqn:Hc;
      [destruct (list_of (remote w) c 100 None) as [lr | e] eqn:Hl |].
    + destruct (distinct_keys (validEmails (remote w) u c
                  (messagesToFetch (store w) (default [] (l_messages lr))))) eqn:Hd.
      * rewrite (run_syncFirstBatch u w c lr) by done. apply save_step_cursors.
      * by rewrite (run_syncFirstBatch_rejected u w c lr).
    + destruct (run_syncFirstBatch_failure u w e) as (cs & -> & _); [| done].
      right. by exists c.
    + destruct (run_syncFirstBatch_failure u w e) as (cs & -> & _); [by left | done].
  - intros u. destruct (client_of (remote w) u) as [c | e] eqn:Hc.
    + rewrite (run_syncDeletedEmails u w c) by done. apply delete_step_cursors.
    + unfold syncDeletedEmails.
      rewrite run_abind, run_call, exec_pure by done. cbn [outcome snd]. by rewrite Hc.
  - intros [u tok n del] H0 H1.
    cbn [ev_userId ev_pageToken ev_pageCount] in *.
    destruct (truthy_opt tok) eqn:Htok;
      [destruct (MAX_PAGES <? n)%float eqn:Hle |].
    + unfold handleSyncOldEmails. cbn [ev_userId ev_pageToken ev_pageCount].
      by rewrite H0, H1, Hle, Htok.
    + rewrite run_handle_list_page by done.
      cbn [ev_userId ev_pageToken ev_pageCount]. rewrite run_try_catch.
      destruct (client_of (remote w) u) as [c | e] eqn:Hc;
        [destruct (list_of (remote w) c 100 tok) as [lr | e] eqn:Hl |].
      * destruct (distinct_keys (validEmails (remote w) u c
                    (messagesToFetch (store w) (default [] (l_messages lr))))) eqn:Hd.
        -- rewrite (run_list_page_sync u tok n w c lr) by done. apply save_step_cursors.
        -- by rewrite (run_list_page_sync_rejected u tok n w c lr).
      * by rewrite (run_list_page_sync_no_listing u tok n w c e).
      * by rewrite (run_list_page_sync_no_client u tok n w e).
    + unfold handleSyncOldEmails. cbn [ev_userId ev_pageToken ev_pageCount].
      by rewrite H0, H1, Htok.
Qed.

(** X24.  The cursor after a history page.  When the handler processed a
    history page (listing succeeded, client at hand if the page adds
    messages, no added id named twice that can be read and that the store
    does not hold, so that the save is accepted), the user's cursor is the history id the page reports when
    that is a non-empty string, and is unchanged otherwise, whether or not
    the page carries a continuation token; the cursors of other users are
    untouched. *)
Theorem history_page_sync_cursor u tok del w hr c :
  truthy_opt tok = true ->
  history_of (remote w) u None (Some 100) tok = Ok hr ->
  (nonempty (newEmailIds_of hr) = true -> client_of (remote w) u = Ok c) ->
  NoDup (history_ids (store w) (remote w) u c hr) ->
  let w' := (run (handleSyncOldEmails (mkSyncEvent u tok 1 del)) w).1 in
  cursors (store w') !! u =
    match historyId hr with
    | Some x => if truthy x then Some x else cursors (store w) !! u
    | None => cursors (store w) !! u
    end ∧
  (forall u', u' ≠ u -> cursors (store w') !! u' = cursors (store w) !! u').
Proof.
  intros Htok Hhist Hc Hd%distinct_history. cbv zeta.
  rewrite run_handle_history_page, run_try_catch by done.
  rewrite (run_history_page_sync u tok del w hr c) by done.
  cbn [fst store].
  assert (Hstep : forall s, cursors (cursor_step u (historyId hr) s) =
            match historyId hr with
            | Some x => if truthy x then <[u := x]> (cursors s) else cursors s
            | None => cursors s
            end).
  { intros s. unfold cursor_step.
    destruct (historyId hr) as [x |]; [by destruct (truthy x) | done]. }
  assert (Hs1 : cursors (history_store (store w) (remote w) u c hr) =
            match historyId hr with
            | Some x => if truthy x then <[u := x]> (cursors (store w))
                        else cursors (store w)
            | None => cursors (store w)
            end).
  { unfold history_store. by rewrite Hstep, delete_step_cursors, save_step_cursors. }
  assert (Hfinal : cursors (if truthy_opt (nextPageToken hr)
                            then history_store (store w) (remote w) u c hr
                            else cursor_step u (historyId hr)
                                   (history_store (store w) (remote w) u c hr)) =
            match historyId hr with
            | Some x => if truthy x then <[u := x]> (cursors (store w))
                        else cursors (store w)
            | None => cursors (store w)
            end).
  { destruct (truthy_opt (nextPageToken hr)); [done |].
    rewrite Hstep, Hs1.
    destruct (historyId hr) as [x |]; [destruct (truthy x) |]; try done.
    apply insert_insert_eq. }
  rewrite Hfinal.
  destruct (historyId hr) as [x |]; [destruct (truthy x) |];
    (split; [by rewrite ?lookup_insert_eq | intros u' Hne; by rewrite ?lookup_insert_ne]).
Qed.

Lemma history_page_sync_cursor_witness :
  cursors (store (run (handleSyncOldEmails (mkSyncEvent 1 (Some "p") 1 None))
                    Example.two_users).1) !! 1 = Some "200"%string.
Proof.
  exact (proj1 (history_page_sync_cursor 1 (Some "p"%string) None Example.two_users
                  Example.page_add_delete (mkClient 1) eq_refl eq_refl
                  (fun _ => eq_refl) ltac:(apply NoDup_by_decide; by vm_compute))).
Defined.

Lemma cursor_untouched_outside_history_path_witness :
  cursors (store (run (handleSyncOldEmails (mkSyncEvent 1 (Some "p") 2 None))
                    Example.two_users).1) = cursors (store Example.two_users).
Proof.
  destruct (cursor_untouched_outside_history_path Example.two_users)
    as (_ & _ & _ & _ & _ & H).
  apply (H (mkSyncEvent 1 (Some "p"%string) 2 None)); reflexivity.
Defined.
